(** * Image metadata generation tool: a shallow embedding and its properties

    The development follows [metadata_extraction_tool.py]: the image
    normaliser [compress_image], the two provider clients
    [get_image_tags_from_google] and [get_description_from_astica], the
    per-image pipeline [process_image_metadata] and the driver [main].

    The program is effectful Python.  Its effects are threaded through a
    state-and-exception monad [M]: the state holds the process environment,
    the file system and a trace of the calls made to the outside world; an
    exception is a value of [exn] and [try_] / [except_] follow Python's
    handler chain.  What the outside world answers (the label-detection
    service, the description endpoint, the image codec, standard input, the
    notebook upload widget) is read from a record of oracles, [World].

    [print] statements are not modelled. *)

From stdpp Require Import gmap strings list.
From Stdlib Require Import Ascii ZArith QArith Qround Lia Lqa SpecFloat.

Set Warnings "-register-all".

Open Scope Z_scope.

(** ** Python strings

    A string is a sequence of characters with code points below 256.  *)

Module str.

(** The characters [lower] changes: A-Z and the capital letters of the
    upper half of Latin-1. *)
Definition is_upper (c : ascii) : bool :=
  let n := N_of_ascii c in
  (((65 <=? n) && (n <=? 90)) || ((192 <=? n) && (n <=? 214))
   || ((216 <=? n) && (n <=? 222)))%N.

Definition lower_char (c : ascii) : ascii :=
  if is_upper c then ascii_of_N (N_of_ascii c + 32) else c.

(** [s.lower()] *)
Fixpoint lower (s : string) : string :=
  match s with
  | EmptyString => EmptyString
  | String c s' => String (lower_char c) (lower s')
  end.

(** [s.endswith(suffix)] *)
Fixpoint endswith (s suffix : string) : bool :=
  String.eqb s suffix ||
  match s with
  | EmptyString => false
  | String _ s' => endswith s' suffix
  end.

(** [s.endswith(tuple)]: some member of the tuple is a suffix of [s]. *)
Definition endswith_any (s : string) (suffixes : list string) : bool :=
  existsb (endswith s) suffixes.

(** [s.startswith(prefix)] *)
Definition startswith (s prefix : string) : bool := String.prefix prefix s.

(** The characters [str.isspace] accepts, among the codes below 256. *)
Definition isspace (c : ascii) : bool :=
  let n := N_of_ascii c in
  (((9 <=? n) && (n <=? 13)) || ((28 <=? n) && (n <=? 32))
   || (n =? 133) || (n =? 160))%N.

Fixpoint lstrip (s : string) : string :=
  match s with
  | EmptyString => EmptyString
  | String c s' => if isspace c then lstrip s' else s
  end.

Fixpoint rstrip (s : string) : string :=
  match s with
  | EmptyString => EmptyString
  | String c s' =>
      match rstrip s' with
      | EmptyString => if isspace c then EmptyString else String c EmptyString
      | r => String c r
      end
  end.

(** [s.strip()] *)
Definition strip (s : string) : string := rstrip (lstrip s).

(** [sep.join(parts)] *)
Definition join (sep : string) (parts : list string) : string :=
  String.concat sep parts.

(** Truth value of a string: non-empty. *)
Definition truthy (s : string) : bool := negb (String.eqb s "").

Fixpoint contains_char (c : ascii) (s : string) : bool :=
  match s with
  | EmptyString => false
  | String c' s' => Ascii.eqb c c' || contains_char c s'
  end.

End str.

(** ** [os.path] on a POSIX system *)

Module os_path.

(** [os.path.join(a, b)] *)
Definition join (a b : string) : string :=
  if str.startswith b "/" then b
  else if String.eqb a "" || str.endswith a "/" then a +:+ b
  else a +:+ "/" +:+ b.

(** [os.path.basename(p)]: what follows the last slash. *)
Fixpoint basename (p : string) : string :=
  match p with
  | EmptyString => EmptyString
  | String c p' =>
      if str.contains_char "/" p' then basename p'
      else if Ascii.eqb c "/" then p' else p
  end.

(** [os.path.dirname(p)]: what precedes the last slash, without the slashes
    it ends with unless it is made of slashes only. *)
Fixpoint dirname_head (p : string) : string :=
  match p with
  | EmptyString => EmptyString
  | String c p' =>
      if str.contains_char "/" p' then String c (dirname_head p')
      else if Ascii.eqb c "/" then String c EmptyString else EmptyString
  end.

Fixpoint rstrip_slashes (s : string) : string :=
  match s with
  | EmptyString => EmptyString
  | String c s' =>
      match rstrip_slashes s' with
      | EmptyString => if Ascii.eqb c "/" then EmptyString else String c EmptyString
      | r => String c r
      end
  end.

Definition dirname (p : string) : string :=
  let head := dirname_head p in
  match rstrip_slashes head with
  | EmptyString => head
  | r => r
  end.

End os_path.

(** ** [base64.b64encode] *)

Module base64.

Definition alphabet : string :=
  "ABCDEFGHIJKLMNOPQRSTUVWXYZabcdefghijklmnopqrstuvwxyz0123456789+/".

Definition sextet (n : Z) : ascii :=
  match String.get (Z.to_nat n) alphabet with
  | Some c => c
  | None => "="%char
  end.

Definition byte_val (c : ascii) : Z := Z.of_N (N_of_ascii c).

(** Three bytes at a time become four characters; a short last group is
    padded with [=]. *)
Fixpoint b64encode_fuel (fuel : nat) (data : string) : string :=
  match fuel with
  | O => EmptyString
  | S fuel' =>
      match data with
      | EmptyString => EmptyString
      | String a EmptyString =>
          let n := Z.shiftl (byte_val a) 16 in
          String (sextet (Z.land (Z.shiftr n 18) 63))
            (String (sextet (Z.land (Z.shiftr n 12) 63)) "==")
      | String a (String b EmptyString) =>
          let n := Z.lor (Z.shiftl (byte_val a) 16) (Z.shiftl (byte_val b) 8) in
          String (sextet (Z.land (Z.shiftr n 18) 63))
            (String (sextet (Z.land (Z.shiftr n 12) 63))
               (String (sextet (Z.land (Z.shiftr n 6) 63)) "="))
      | String a (String b (String c rest)) =>
          let n := Z.lor (Z.lor (Z.shiftl (byte_val a) 16)
                                (Z.shiftl (byte_val b) 8)) (byte_val c) in
          String (sextet (Z.land (Z.shiftr n 18) 63))
            (String (sextet (Z.land (Z.shiftr n 12) 63))
               (String (sextet (Z.land (Z.shiftr n 6) 63))
                  (String (sextet (Z.land n 63)) (b64encode_fuel fuel' rest))))
      end
  end.

Definition b64encode (data : string) : string :=
  b64encode_fuel (String.length data) data.

End base64.

(** ** IEEE 754 binary64 arithmetic

    A finite Python float is the rational it denotes.  An arithmetic
    operation returns the exact result rounded to the nearest double, ties
    to even ([RN]).  The significand has 53 bits and the least exponent is
    -1074; the values of this program stay far below the overflow threshold
    [2^1024], so infinities are not represented. *)

Module float.

(** The integer nearest to [n / d], ties to the even one ([0 < d]). *)
Definition round_half_even (n d : Z) : Z :=
  let q := n / d in
  match 2 * (n mod d) ?= d with
  | Lt => q
  | Gt => q + 1
  | Eq => if Z.even q then q else q + 1
  end.

(** [floor (log2 (n / d))] for positive [n] and [d]. *)
Definition floor_log2_ratio (n d : Z) : Z :=
  let k := Z.log2 n - Z.log2 d in
  if d * 2 ^ Z.max 0 k <=? n * 2 ^ Z.max 0 (- k) then k else k - 1.

(** Round to nearest double. The result is [m * 2^e] with [m] the rounding
    of [|x| / 2^e] and [e] chosen so that [2^52 <= |x| / 2^e < 2^53] (or
    [e = -1074] for subnormal results). *)
Definition RN (x : Q) : Q :=
  let n := Qnum x in
  let d := Z.pos (Qden x) in
  if n =? 0 then 0%Q else
  let a := Z.abs n in
  let e := Z.max (floor_log2_ratio a d - 52) (-1074) in
  let m := round_half_even (a * 2 ^ Z.max 0 (- e)) (d * 2 ^ Z.max 0 e) in
  (inject_Z (Z.sgn n * m * 2 ^ Z.max 0 e) / inject_Z (2 ^ Z.max 0 (- e)))%Q.

(** [float(z)] for an integer [z]. *)
Definition of_int (z : Z) : Q := RN (inject_Z z).

(** [x / y] and [x * y] on floats. *)
Definition div (x y : Q) : Q := RN (x / y)%Q.
Definition mul (x y : Q) : Q := RN (x * y)%Q.

(** [int(x)]: truncation toward zero. *)
Definition to_int (x : Q) : Z := Qnum x ÷ Z.pos (Qden x).

End float.

(** The doubles of the Standard Library's [SpecFloat], read as rationals;
    used to compare [float.RN] with its operations on sample inputs. *)
Definition sf_to_Q (f : spec_float) : Q :=
  match f with
  | S754_finite s m e =>
      let v := (inject_Z (Z.pos m * 2 ^ Z.max 0 e) / inject_Z (2 ^ Z.max 0 (- e)))%Q in
      if s then Qopp v else v
  | _ => 0%Q
  end.

Definition sf_of_int (z : Z) : spec_float := binary_normalize 53 1024 z 0 false.

(** The unit roundoff of binary64, [2^-53]. *)
Definition float_unit : Q := 1 # 9007199254740992.

(** ** Exceptions

    The exception types the program can meet, and the classes its [except]
    clauses name.  [RequestsJSONDecodeError] is the decoding error of
    [requests] from version 2.27 on, which derives from both
    [RequestException] and [ValueError]; [JSONDecodeError] is the one of the
    [json] module, which older versions let through.  Only subclasses of
    [Exception] are represented. *)

Inductive exn : Type :=
  | FileNotFoundError
  | IsADirectoryError
  | PermissionError
  | OSError
  | UnidentifiedImageError
  | ValueError
  | JSONDecodeError
  | RequestsJSONDecodeError
  | HTTPError
  | ConnectionError
  | Timeout
  | RequestException
  | AttributeError
  | GoogleAPIError
  | Exception_.

Inductive exn_class : Type :=
  | cFileNotFoundError
  | cHTTPError
  | cRequestException
  | cValueError
  | cIOError
  | cException.

(** [isinstance(e, c)] along the class hierarchy. *)
Definition isinstance (e : exn) (c : exn_class) : bool :=
  match c with
  | cException => true
  | cFileNotFoundError =>
      match e with FileNotFoundError => true | _ => false end
  | cHTTPError =>
      match e with HTTPError => true | _ => false end
  | cRequestException =>
      match e with
      | HTTPError | ConnectionError | Timeout | RequestException
      | RequestsJSONDecodeError => true
      | _ => false
      end
  | cValueError =>
      match e with
      | ValueError | JSONDecodeError | RequestsJSONDecodeError => true
      | _ => false
      end
  | cIOError =>
      match e with
      | FileNotFoundError | IsADirectoryError | PermissionError | OSError
      | UnidentifiedImageError
      | HTTPError | ConnectionError | Timeout | RequestException
      | RequestsJSONDecodeError => true
      | _ => false
      end
  end.

Inductive result (A : Type) : Type :=
  | Ok (a : A)
  | Raise (e : exn).

Arguments Ok {A} a.
Arguments Raise {A} e.

(** ** Data *)

(** A decoded image, as far as the program looks at it. *)
Record image : Type := { width : Z; height : Z }.

(** What a file holds: raw bytes, an image written by [Image.save] at some
    quality, or the rows written through the [csv] module. *)
Inductive content : Type :=
  | Raw (data : string)
  | Encoded (img : image) (quality : Z)
  | CsvText (rows : list (list string)).

Inductive node : Type :=
  | Dir (entries : list string)
  | File (c : content).

(** JSON values; an object is kept as the list of its items. *)
Inductive json : Type :=
  | JNull
  | JBool (b : bool)
  | JNum (literal : string)
  | JStr (s : string)
  | JArr (items : list json)
  | JObj (items : list (string * json)).

(** One entry of [response.label_annotations]. *)
Record label : Type := { description : string }.

(** The response of [client.label_detection]. *)
Record vision_response : Type :=
  { error_message : string; label_annotations : list label }.

(** The response object of [requests.post]: its status code and what
    [response.json()] gives. *)
Record http_response : Type :=
  { status_code : Z; json_body : result json }.

(** A Python dict with string keys and values, as the list of its items in
    insertion order.  An [ImageRecord] is such a dict. *)
Definition dict : Type := list (string * string).

Fixpoint dict_get (key : string) (d : dict) : option string :=
  match d with
  | [] => None
  | (k, v) :: rest => if String.eqb k key then Some v else dict_get key rest
  end.

Definition dict_keys (d : dict) : list string := map fst d.

(** Calls to the outside world, in the order they are made. *)
Inductive event : Type :=
  | EvGetenv (key : string)
  | EvImageOpen (path : string)
  | EvLabelDetection (path : string)
  | EvReadFile (path : string)
  | EvHttpPost (url tkn input : string)
  | EvUpload
  | EvInput
  | EvDownload (path : string).

(** What [img.save(path, ...)] comes to.  Pillow picks the format from the
    extension of [path] and raises [ValueError] for an extension it does
    not know, before it touches the file.  Otherwise it opens the file for
    writing, which empties it, and hands the picture to the encoder of the
    format; the encoder raises [OSError] for a picture it cannot write (an
    RGBA picture as JPEG), and the file stays empty. *)
Inductive save_outcome : Type :=
  | Saved
  | UnknownExtension
  | CannotWrite.

(** ** The outside world *)

Record World : Type := {
  (** whether [import google.colab] succeeds *)
  in_colab : bool;
  (** the line typed at the [input] prompt *)
  stdin_line : string;
  (** [os.getcwd()] *)
  cwd : string;
  (** what [files.upload()] returns when asked for the credentials *)
  upload_credentials : result (list (string * string));
  (** what [files.upload()] returns when asked for the images *)
  upload_images : list (string * string);
  (** the path [files.upload()] saves an uploaded file of a given name at,
      given the files there are: the name itself in the working directory
      or, when that is taken, a fresh one ([photo (1).jpg]) *)
  upload_name : gmap string node -> string -> string;
  (** [files.download] *)
  download : string -> result unit;
  (** the image codec behind [Image.open] and [Image.save] *)
  pil_decode : string -> option image;
  pil_encode : image -> Z -> string;
  (** whether [Image.save] can write a picture at a path *)
  pil_save : image -> string -> save_outcome;
  (** the bytes of a file written through the [csv] module *)
  csv_bytes : list (list string) -> string;
  (** [vision.ImageAnnotatorClient()] *)
  vision_client : result unit;
  (** [client.label_detection] on the bytes of an image *)
  label_detection : string -> result vision_response;
  (** [requests.post] to the description endpoint, by token and input *)
  astica_post : string -> string -> result http_response;
  (** [str] of a JSON value that is not itself a string *)
  json_repr : json -> string
}.

(** ** State and the monad *)

(** The file system maps a path, spelled as the program spells it, to what
    is there.  Paths are not normalised: a state is meant to name each file
    by the one spelling the program reaches it under, and two spellings of
    one file ([x.csv] and [os.path.join(os.getcwd(), "x.csv")]) are two
    keys.  The working directory and the root are taken to exist without
    being keys. *)
Record state : Type := {
  environ : gmap string string;
  fs : gmap string node;
  trace : list event
}.

Definition M (A : Type) : Type := state -> result A * state.

Definition ret {A} (a : A) : M A := fun s => (Ok a, s).

Definition raise {A} (e : exn) : M A := fun s => (Raise e, s).

Definition bind {A B} (m : M A) (k : A -> M B) : M B :=
  fun s =>
    match m s with
    | (Ok a, s') => k a s'
    | (Raise e, s') => (Raise e, s')
    end.

Declare Scope py_scope.
Delimit Scope py_scope with py.
Notation "x <- m ;; k" := (bind m (fun x => k))
  (at level 100, m at next level, right associativity) : py_scope.
Notation "m ;;; k" := (bind m (fun _ => k))
  (at level 100, right associativity) : py_scope.
Open Scope py_scope.

(** The clauses of a [try] statement, in order: the first whose class the
    exception is an instance of handles it; with none, it propagates. *)
Fixpoint except_ {A} (handlers : list (exn_class * M A)) (e : exn) : M A :=
  match handlers with
  | [] => raise e
  | (c, h) :: rest => if isinstance e c then h else except_ rest e
  end.

Definition try_ {A} (body : M A) (handlers : list (exn_class * M A)) : M A :=
  fun s =>
    match body s with
    | (Ok a, s') => (Ok a, s')
    | (Raise e, s') => except_ handlers e s'
    end.

Definition lift {A} (r : result A) : M A :=
  match r with
  | Ok a => ret a
  | Raise e => raise e
  end.

Definition get_state : M state := fun s => (Ok s, s).

Definition log (ev : event) : M unit :=
  fun s => (Ok tt, {| environ := environ s; fs := fs s;
                      trace := trace s ++ [ev] |}).

Definition set_fs (f : gmap string node) : M unit :=
  fun s => (Ok tt, {| environ := environ s; fs := f; trace := trace s |}).

Definition set_environ (e : gmap string string) : M unit :=
  fun s => (Ok tt, {| environ := e; fs := fs s; trace := trace s |}).

(** A [for] loop that collects one result per element. *)
Fixpoint for_each {A B} (xs : list A) (body : A -> M B) : M (list B) :=
  match xs with
  | [] => ret []
  | x :: rest => y <- body x ;; ys <- for_each rest body ;; ret (y :: ys)
  end.

(** ** The library calls the program makes *)

Definition file_bytes (W : World) (c : content) : string :=
  match c with
  | Raw data => data
  | Encoded img q => pil_encode W img q
  | CsvText rows => csv_bytes W rows
  end.

(** [os.environ.get(key)] *)
Definition os_environ_get (key : string) : M (option string) :=
  log (EvGetenv key) ;;;
  s <- get_state ;;
  ret (environ s !! key).

(** [os.path.exists], [os.path.isdir], [os.path.isfile], [os.listdir] *)
Definition os_path_exists (path : string) : M bool :=
  s <- get_state ;;
  ret (match fs s !! path with Some _ => true | None => false end).

Definition os_path_isdir (path : string) : M bool :=
  s <- get_state ;;
  ret (match fs s !! path with Some (Dir _) => true | _ => false end).

Definition os_path_isfile (path : string) : M bool :=
  s <- get_state ;;
  ret (match fs s !! path with Some (File _) => true | _ => false end).

Definition os_listdir (path : string) : M (list string) :=
  s <- get_state ;;
  match fs s !! path with
  | Some (Dir entries) => ret entries
  | Some (File _) => raise OSError
  | None => raise FileNotFoundError
  end.

(** [os.path.getsize(path)] *)
Definition os_path_getsize (W : World) (path : string) : M Z :=
  s <- get_state ;;
  match fs s !! path with
  | Some (File c) => ret (Z.of_nat (String.length (file_bytes W c)))
  | Some (Dir _) => ret 4096
  | None => raise FileNotFoundError
  end.

(** [os.remove(path)] *)
Definition os_remove (path : string) : M unit :=
  s <- get_state ;;
  match fs s !! path with
  | Some (File _) => set_fs (delete path (fs s))
  | Some (Dir _) => raise IsADirectoryError
  | None => raise FileNotFoundError
  end.

(** [open(path, 'rb').read()] *)
Definition read_file (W : World) (path : string) : M string :=
  log (EvReadFile path) ;;;
  s <- get_state ;;
  match fs s !! path with
  | Some (File c) => ret (file_bytes W c)
  | Some (Dir _) => raise IsADirectoryError
  | None => raise FileNotFoundError
  end.

(** Whether the directory a path lies in exists: the working directory
    (also for a bare name), the root, or a directory of the file system. *)
Definition parent_exists (W : World) (f : gmap string node) (path : string) : bool :=
  let d := os_path.dirname path in
  String.eqb d "" || String.eqb d "/" || String.eqb d (cwd W)
  || match f !! d with Some (Dir _) => true | _ => false end.

(** [open(path, 'wb').write(data)] *)
Definition write_file (W : World) (path data : string) : M unit :=
  s <- get_state ;;
  match fs s !! path with
  | Some (Dir _) => raise IsADirectoryError
  | _ =>
      if parent_exists W (fs s) path
      then set_fs (<[path := File (Raw data)]> (fs s))
      else raise FileNotFoundError
  end.

(** What [files.upload()] leaves on disk: every uploaded file, saved at the
    path [upload_name] gives; nothing is saved over what is there. *)
Fixpoint upload_saved (W : World) (uploaded : list (string * string))
    (f : gmap string node) : gmap string node :=
  match uploaded with
  | [] => f
  | (name, data) :: rest =>
      let p := upload_name W f name in
      upload_saved W rest
        (match f !! p with
         | None => <[p := File (Raw data)]> f
         | Some _ => f
         end)
  end.

(** [files.upload()], given the dict it returns. *)
Definition files_upload (W : World) (answer : result (list (string * string)))
    : M (list (string * string)) :=
  log EvUpload ;;;
  uploaded <- lift answer ;;
  s <- get_state ;;
  set_fs (upload_saved W uploaded (fs s)) ;;;
  ret uploaded.

(** [Image.open(path)] *)
Definition Image_open (W : World) (path : string) : M image :=
  log (EvImageOpen path) ;;;
  s <- get_state ;;
  match fs s !! path with
  | Some (File (Encoded img _)) => ret img
  | Some (File c) =>
      match pil_decode W (file_bytes W c) with
      | Some img => ret img
      | None => raise UnidentifiedImageError
      end
  | Some (Dir _) => raise IsADirectoryError
  | None => raise FileNotFoundError
  end.

(** [img.resize((w, h), Image.LANCZOS)]: Pillow rejects a target size with
    a side below one pixel ("height and width must be > 0"). *)
Definition Image_resize (img : image) (size : Z * Z) : M image :=
  if (fst size <? 1) || (snd size <? 1) then raise ValueError
  else ret {| width := fst size; height := snd size |}.

(** [img.save(path, quality=quality, optimize=True)]; [compress_image] calls
    it on the file it has just opened. *)
Definition Image_save (W : World) (img : image) (path : string) (quality : Z)
    : M unit :=
  match pil_save W img path with
  | UnknownExtension => raise ValueError
  | outcome =>
      s <- get_state ;;
      match fs s !! path with
      | Some (Dir _) => raise IsADirectoryError
      | _ =>
          match outcome with
          | Saved => set_fs (<[path := File (Encoded img quality)]> (fs s))
          | _ => set_fs (<[path := File (Raw "")]> (fs s)) ;;; raise OSError
          end
      end
  end.

(** The size [Image.open] would report for what [path] holds. *)
Definition image_at (W : World) (s : state) (path : string) : option image :=
  match fs s !! path with
  | Some (File (Encoded img _)) => Some img
  | Some (File c) => pil_decode W (file_bytes W c)
  | _ => None
  end.

(** ** Configuration constants *)

Definition OUTPUT_CSV_FILENAME : string := "image_metadata.csv".
Definition MAX_IMAGE_WIDTH : Z := 1024.
Definition COMPRESSION_QUALITY : Z := 85.
Definition ASTICA_API_TIMEOUT : Z := 30.

Definition is_running_in_colab (W : World) : bool := in_colab W.

(** ** Authentication setup *)

Definition setup_google_credentials (W : World) : M bool :=
  s <- get_state ;;
  if match environ s !! "GOOGLE_APPLICATION_CREDENTIALS" with
     | Some p => match fs s !! p with Some _ => true | None => false end
     | None => false
     end
  then ret true
  else if is_running_in_colab W then
    try_ (uploaded <- files_upload W (upload_credentials W) ;;
          match uploaded with
          | [] => ret false
          | (fn, _) :: _ =>
              s' <- get_state ;;
              set_environ (<["GOOGLE_APPLICATION_CREDENTIALS" := fn]> (environ s')) ;;;
              ret true
          end)
      [(cException, ret false)]
  else ret false.

(** ** Image processing functions *)

(** The new height [compress_image] computes for an image wider than
    [max_width]. *)
Definition height_size (max_width : Z) (img : image) : Z :=
  let width_percent := float.div (float.of_int max_width) (float.of_int (width img)) in
  float.to_int (float.mul (float.of_int (height img)) width_percent).

Definition compress_image_with (W : World) (image_path : string)
    (max_width quality : Z) : M unit :=
  try_ (img <- Image_open W image_path ;;
        original_size <- os_path_getsize W image_path ;;
        img <- (if width img >? max_width
                then Image_resize img (max_width, height_size max_width img)
                else ret img) ;;
        Image_save W img image_path quality ;;;
        compressed_size <- os_path_getsize W image_path ;;
        ret tt)
    [(cFileNotFoundError, ret tt); (cException, ret tt)].

Definition compress_image (W : World) (image_path : string) : M unit :=
  compress_image_with W image_path MAX_IMAGE_WIDTH COMPRESSION_QUALITY.

Definition get_image_tags_from_google (W : World) (image_path : string) : M string :=
  try_ (client <- lift (vision_client W) ;;
        content <- read_file W image_path ;;
        log (EvLabelDetection image_path) ;;;
        response <- lift (label_detection W content) ;;
        (if str.truthy (error_message response) then raise Exception_ else ret tt) ;;;
        let labels := label_annotations response in
        let google_tags := str.join ", " (map description labels) in
        ret (if str.truthy google_tags then google_tags
             else "No tags found by Google Vision"))
    [(cException, ret "Google Vision tags failed")].

Definition convert_image_to_base64 (W : World) (image_path : string)
    : M (option string) :=
  try_ (data <- read_file W image_path ;;
        ret (Some (base64.b64encode data)))
    [(cFileNotFoundError, ret None); (cException, ret None)].

(** *** The description client *)

Definition api_endpoint : string := "https://vision.astica.ai/describe".

Definition requests_post (W : World) (url tkn input : string) : M http_response :=
  log (EvHttpPost url tkn input) ;;;
  lift (astica_post W tkn input).

(** [response.raise_for_status()] *)
Definition raise_for_status (r : http_response) : M unit :=
  if (400 <=? status_code r) && (status_code r <? 600) then raise HTTPError
  else ret tt.

(** [response.json()] *)
Definition response_json (r : http_response) : M json := lift (json_body r).

Fixpoint items_get (key : string) (items : list (string * json)) : option json :=
  match items with
  | [] => None
  | (k, v) :: rest => if String.eqb k key then Some v else items_get key rest
  end.

(** [j.get(key, default)]; only a dict has the method. *)
Definition json_get (j : json) (key : string) (default : json) : M json :=
  match j with
  | JObj items =>
      ret (match items_get key items with Some v => v | None => default end)
  | _ => raise AttributeError
  end.

(** [key in j] for a dict [j] *)
Definition json_has (j : json) (key : string) : bool :=
  match j with
  | JObj items => match items_get key items with Some _ => true | None => false end
  | _ => false
  end.

(** [j == s] for a string literal [s] *)
Definition json_eq_str (j : json) (s : string) : bool :=
  match j with
  | JStr t => String.eqb t s
  | _ => false
  end.

(** [j.strip()]; only a string has the method. *)
Definition json_strip (j : json) : M string :=
  match j with
  | JStr s => ret (str.strip s)
  | _ => raise AttributeError
  end.

(** How an f-string renders a JSON value. *)
Definition format_json (W : World) (j : json) : string :=
  match j with
  | JStr s => s
  | JNull => "None"
  | JBool true => "True"
  | JBool false => "False"
  | _ => json_repr W j
  end.

Definition get_description_from_astica (W : World) (image_base64 : string)
    : M string :=
  astica_api_key <- os_environ_get "ASTICA_API_KEY" ;;
  match astica_api_key with
  | None => ret "Astica API key not configured"
  | Some astica_api_key =>
      if negb (str.truthy astica_api_key) then ret "Astica API key not configured"
      else
        try_ (response_astica <- requests_post W api_endpoint astica_api_key image_base64 ;;
              raise_for_status response_astica ;;;
              astica_result <- response_json response_astica ;;
              status <- json_get astica_result "status" JNull ;;
              if json_eq_str status "error" || json_has astica_result "error" then
                error_msg <- json_get astica_result "error" (JStr "Unknown Astica API error") ;;
                ret ("Astica API error: " +:+ format_json W error_msg)
              else
                caption <- json_get astica_result "caption" (JStr "") ;;
                astica_description <- json_strip caption ;;
                ret (if str.truthy astica_description then astica_description
                     else "No description available from Astica"))
          [(cHTTPError, ret "Astica API request failed (HTTP error)");
           (cRequestException, ret "Astica API request failed (Connection/Request error)");
           (cValueError, ret "Astica API response JSON decoding failed");
           (cException, ret "Astica description processing failed (Unexpected error)")]
  end.

(** ** Main processing logic *)

Definition process_image_metadata (W : World) (image_path : string) : M dict :=
  let filename := os_path.basename image_path in
  compress_image W image_path ;;;
  google_tags <- get_image_tags_from_google W image_path ;;
  image_base64 <- convert_image_to_base64 W image_path ;;
  astica_description <-
    match image_base64 with
    | Some b64 =>
        if str.truthy b64 then get_description_from_astica W b64
        else ret "Astica processing skipped (image not available for base64)"
    | None => ret "Astica processing skipped (image not available for base64)"
    end ;;
  ret [("filename", filename);
       ("description", astica_description);
       ("tags", google_tags)].

(** *** The [csv] module

    A file written through a [csv] writer is kept as the list of its rows. *)

(** [open(path, "w", newline='', encoding='utf-8')]: creates or truncates.
    The program opens a bare file name, which lies in the working
    directory. *)
Definition csv_open (path : string) : M unit :=
  s <- get_state ;;
  match fs s !! path with
  | Some (Dir _) => raise IsADirectoryError
  | _ => set_fs (<[path := File (CsvText [])]> (fs s))
  end.

(** [writer.writerow(row)] on the file opened at [path] *)
Definition csv_writer_writerow (path : string) (row : list string) : M unit :=
  s <- get_state ;;
  match fs s !! path with
  | Some (File (CsvText rows)) =>
      set_fs (<[path := File (CsvText (rows ++ [row]))]> (fs s))
  | _ => raise ValueError
  end.

(** [DictWriter._dict_to_list] with the default [extrasaction="raise"] and
    [restval=""]: a key of the row that is not a field name is an error. *)
Definition DictWriter_dict_to_list (fieldnames : list string) (rowdict : dict)
    : M (list string) :=
  let wrong_fields :=
    List.filter (fun k => negb (existsb (String.eqb k) fieldnames)) (dict_keys rowdict) in
  match wrong_fields with
  | _ :: _ => raise ValueError
  | [] =>
      ret (map (fun key => match dict_get key rowdict with
                           | Some v => v
                           | None => ""
                           end) fieldnames)
  end.

Definition DictWriter_writerow (path : string) (fieldnames : list string)
    (rowdict : dict) : M unit :=
  row <- DictWriter_dict_to_list fieldnames rowdict ;;
  csv_writer_writerow path row.

(** [writer.writeheader()]: the row [dict(zip(fieldnames, fieldnames))] *)
Definition DictWriter_writeheader (path : string) (fieldnames : list string) : M unit :=
  DictWriter_writerow path fieldnames (combine fieldnames fieldnames).

(** [writer.writerows(rowdicts)]: row after row, stopping at the first
    error. *)
Definition DictWriter_writerows (path : string) (fieldnames : list string)
    (rowdicts : list dict) : M unit :=
  for_each rowdicts (DictWriter_writerow path fieldnames) ;;;
  ret tt.

(** *** [main] *)

Definition image_extensions : list string :=
  [".png"; ".jpg"; ".jpeg"; ".gif"; ".bmp"; ".tiff"].

(** [name.lower().endswith(('.png', '.jpg', '.jpeg', '.gif', '.bmp', '.tiff'))] *)
Definition has_image_extension (name : string) : bool :=
  str.endswith_any (str.lower name) image_extensions.

Definition is_empty {A} (l : list A) : bool :=
  match l with [] => true | _ => false end.

(** The export step of [main] ("Write to CSV"). *)
Definition write_csv (W : World) (processed_images_metadata : list dict) : M unit :=
  if negb (is_empty processed_images_metadata) then
    try_ (csv_open OUTPUT_CSV_FILENAME ;;;
          let fieldnames := ["Filename"; "Description"; "Tags"] in
          DictWriter_writeheader OUTPUT_CSV_FILENAME fieldnames ;;;
          DictWriter_writerows OUTPUT_CSV_FILENAME fieldnames processed_images_metadata ;;;
          if is_running_in_colab W then
            log (EvDownload OUTPUT_CSV_FILENAME) ;;;
            lift (download W OUTPUT_CSV_FILENAME)
          else ret tt)
      [(cIOError, ret tt); (cException, ret tt)]
  else ret tt.

(** The clean-up step of [main]. *)
Definition clean_up (W : World) (temp_image_paths_colab : list string) : M unit :=
  if is_running_in_colab W && negb (is_empty temp_image_paths_colab) then
    for_each temp_image_paths_colab (fun temp_file_path =>
      ex <- os_path_exists temp_file_path ;;
      if ex then try_ (os_remove temp_file_path) [(cException, ret tt)]
      else ret tt) ;;;
    ret tt
  else ret tt.

(** [main] from "Process all identified images" on.  The value returned is
    the list [processed_images_metadata] as it stands when [main] ends. *)
Definition process_and_export (W : World)
    (image_paths_to_process temp_image_paths_colab : list string) : M (list dict) :=
  processed_images_metadata <-
    for_each image_paths_to_process (process_image_metadata W) ;;
  write_csv W processed_images_metadata ;;;
  clean_up W temp_image_paths_colab ;;;
  ret processed_images_metadata.

(** The Colab branch: save every uploaded file next to the notebook. *)
Definition save_uploads (W : World) (uploaded : list (string * string))
    : M (list string) :=
  saved <- for_each uploaded (fun '(name, content) =>
    let temp_path := os_path.join (cwd W) name in
    try_ (write_file W temp_path content ;;; ret (Some temp_path))
      [(cException, ret None)]) ;;
  ret (omap id saved).

(** The local branch: the paths to process, or [None] where [main]
    returns at once. *)
Definition local_image_paths (W : World) : M (option (list string)) :=
  log EvInput ;;;
  let image_source_path := str.strip (stdin_line W) in
  ex <- os_path_exists image_source_path ;;
  if negb ex then ret None
  else
    isd <- os_path_isdir image_source_path ;;
    if isd then
      names <- os_listdir image_source_path ;;
      ret (Some (map (os_path.join image_source_path)
                   (List.filter has_image_extension names)))
    else
      isf <- os_path_isfile image_source_path ;;
      if isf then
        if has_image_extension image_source_path
        then ret (Some [image_source_path])
        else ret None
      else ret None.

Definition main (W : World) : M (list dict) :=
  ok <- setup_google_credentials W ;;
  if negb ok then ret []
  else
    astica_api_key <- os_environ_get "ASTICA_API_KEY" ;;
    if is_running_in_colab W then
      uploaded_images_content <- files_upload W (Ok (upload_images W)) ;;
      if is_empty uploaded_images_content then ret []
      else
        temp_image_paths_colab <- save_uploads W uploaded_images_content ;;
        process_and_export W temp_image_paths_colab temp_image_paths_colab
    else
      found <- local_image_paths W ;;
      match found with
      | None => ret []
      | Some image_paths_to_process =>
          if is_empty image_paths_to_process then ret []
          else process_and_export W image_paths_to_process []
      end.

(** ** Names used in the statements *)

(** [s] after the events [evs], the environment and the files untouched. *)
Definition after_events (s : state) (evs : list event) : state :=
  {| environ := environ s; fs := fs s; trace := trace s ++ evs |}.

(** The calls made by the description client. *)
Definition description_event (ev : event) : bool :=
  match ev with
  | EvGetenv _ | EvHttpPost _ _ _ => true
  | _ => false
  end.

(** The strings the program puts in place of a result. *)
Definition sentinel_no_tags : string := "No tags found by Google Vision".
Definition sentinel_tags_failed : string := "Google Vision tags failed".
Definition sentinel_no_key : string := "Astica API key not configured".
Definition sentinel_http : string := "Astica API request failed (HTTP error)".
Definition sentinel_connection : string :=
  "Astica API request failed (Connection/Request error)".
Definition sentinel_json : string := "Astica API response JSON decoding failed".
Definition sentinel_unexpected : string :=
  "Astica description processing failed (Unexpected error)".
Definition sentinel_no_description : string := "No description available from Astica".
Definition sentinel_skipped : string :=
  "Astica processing skipped (image not available for base64)".
Definition service_error_prefix : string := "Astica API error: ".

(** The header row of the exported file. *)
Definition csv_header : list string := ["Filename"; "Description"; "Tags"].

(** The record [process_image_metadata] builds. *)
Definition image_record (filename description tags : string) : dict :=
  [("filename", filename); ("description", description); ("tags", tags)].

(** The sentinel the handlers of the description client map an exception
    to. *)
Definition handler_sentinel (e : exn) : string :=
  if isinstance e cHTTPError then sentinel_http
  else if isinstance e cRequestException then sentinel_connection
  else if isinstance e cValueError then sentinel_json
  else sentinel_unexpected.

(** The API key the description client finds, if any: the variable must be
    set and non-empty. *)
Definition api_key (env : gmap string string) : option string :=
  match env !! "ASTICA_API_KEY" with
  | Some k => if str.truthy k then Some k else None
  | None => None
  end.

(** What the description client makes of a decoded response body. *)
Definition description_of_json (W : World) (j : json) : string :=
  match j with
  | JObj items =>
      if json_eq_str (match items_get "status" items with
                      | Some v => v
                      | None => JNull
                      end) "error"
         || json_has j "error"
      then service_error_prefix +:+
           format_json W (match items_get "error" items with
                          | Some v => v
                          | None => JStr "Unknown Astica API error"
                          end)
      else match items_get "caption" items with
           | None => sentinel_no_description
           | Some (JStr c) =>
               if str.truthy (str.strip c) then str.strip c
               else sentinel_no_description
           | Some _ => sentinel_unexpected
           end
  | _ => sentinel_unexpected
  end.

(** The test [setup_google_credentials] starts with: the variable is set
    and names an existing path. *)
Definition credentials_found (s : state) : bool :=
  match environ s !! "GOOGLE_APPLICATION_CREDENTIALS" with
  | Some p => match fs s !! p with Some _ => true | None => false end
  | None => false
  end.

(** The base64 text the description client is given for [path], if any:
    the file must be readable and not empty. *)
Definition base64_input (W : World) (s : state) (path : string) : option string :=
  match fs s !! path with
  | Some (File c) =>
      let b64 := base64.b64encode (file_bytes W c) in
      if str.truthy b64 then Some b64 else None
  | _ => None
  end.

(** The caption the description endpoint sent for [b64], when it sent
    one. *)
Definition parsed_caption (W : World) (s : state) (b64 : string) : option string :=
  match api_key (environ s) with
  | Some k =>
      match astica_post W k b64 with
      | Ok resp =>
          match json_body resp with
          | Ok (JObj items) =>
              match items_get "caption" items with
              | Some (JStr c) => Some (str.strip c)
              | _ => None
              end
          | _ => None
          end
      | Raise _ => None
      end
  | None => None
  end.

(** The outcomes the specification lists for the description client: the
    parsed caption, or the sentinel of one of six failure kinds. *)
Definition listed_description_outcome (W : World) (s : state) (b64 r : string)
    : Prop :=
  parsed_caption W s b64 = Some r
  \/ r = sentinel_no_key
  \/ (exists msg, r = service_error_prefix +:+ msg)
  \/ r = sentinel_http
  \/ r = sentinel_connection
  \/ r = sentinel_json
  \/ r = sentinel_no_description.

(** What [compress_image] writes back for an image, if anything. *)
Definition normalized (img : image) : option image :=
  if width img >? MAX_IMAGE_WIDTH then
    let h := height_size MAX_IMAGE_WIDTH img in
    if h <? 1 then None else Some {| width := MAX_IMAGE_WIDTH; height := h |}
  else Some img.

(** The files after [Image.save] was asked to write [img] at the regular
    file [path]. *)
Definition after_save (W : World) (img : image) (path : string)
    (f : gmap string node) : gmap string node :=
  match pil_save W img path with
  | Saved => <[path := File (Encoded img COMPRESSION_QUALITY)]> f
  | UnknownExtension => f
  | CannotWrite => <[path := File (Raw "")]> f
  end.

(** What [os.remove], as the clean-up calls it, leaves of the files: a
    regular file is removed, anything else stays. *)
Definition without_file (f : gmap string node) (path : string)
    : gmap string node :=
  match f !! path with
  | Some (File _) => delete path f
  | _ => f
  end.

(** Whether [open(path, 'wb')] succeeds. *)
Definition writable (W : World) (f : gmap string node) (path : string) : bool :=
  match f !! path with
  | Some (Dir _) => false
  | _ => parent_exists W f path
  end.

(** The paths the Colab branch saves the uploads at, and the files then. *)
Fixpoint saved_uploads (W : World) (uploaded : list (string * string))
    (f : gmap string node) : list string * gmap string node :=
  match uploaded with
  | [] => ([], f)
  | (name, data) :: rest =>
      let p := os_path.join (cwd W) name in
      if writable W f p then
        let r := saved_uploads W rest (<[p := File (Raw data)]> f) in
        (p :: fst r, snd r)
      else saved_uploads W rest f
  end.



(** A computation that leaves the environment as it found it; one that
    never raises. *)
Definition preserves_environ {A} (m : M A) : Prop :=
  forall s, environ (snd (m s)) = environ s.

Definition total {A} (m : M A) : Prop :=
  forall s, exists a, fst (m s) = Ok a.

(** ** Sample worlds *)

(** A label service that answers "cat", "pet" for every picture and fails
    on empty content, a description endpoint that captions every picture,
    and a codec that reads the bytes [IMG] as a 2048 x 1000 picture and
    [FLAT] as a 4096 x 3 one, and saves every picture.  Local mode; the
    prompt is answered with the directory [pics]. *)
Definition sample_world : World := {|
  in_colab := false;
  stdin_line := "pics ";
  cwd := "/home/user";
  upload_credentials := Ok [];
  upload_images := [];
  upload_name := fun _ name => name;
  download := fun _ => Ok tt;
  pil_decode := fun data =>
    if String.eqb data "IMG" then Some {| width := 2048; height := 1000 |}
    else if String.eqb data "FLAT" then Some {| width := 4096; height := 3 |}
    else None;
  pil_encode := fun img q => "JPEG";
  pil_save := fun _ _ => Saved;
  csv_bytes := fun _ => "";
  vision_client := Ok tt;
  label_detection := fun data =>
    if String.eqb data "" then Raise GoogleAPIError
    else Ok {| error_message := "";
               label_annotations := [{| description := "cat" |};
                                     {| description := "pet" |}] |};
  astica_post := fun _ _ =>
    Ok {| status_code := 200;
          json_body := Ok (JObj [("caption", JStr " A cat. ")]) |};
  json_repr := fun _ => "?"
|}.

(** Credentials and API key set; a directory [pics] with one picture and
    one text file. *)
Definition sample_state : state := {|
  environ := {[ "GOOGLE_APPLICATION_CREDENTIALS" := "key.json";
                "ASTICA_API_KEY" := "secret" ]};
  fs := {[ "key.json" := File (Raw "{}");
           "pics" := Dir ["a.JPG"; "notes.txt"];
           "pics/a.JPG" := File (Raw "IMG");
           "pics/notes.txt" := File (Raw "hello") ]};
  trace := []
|}.

(** No API key for the description provider; the directory holds one
    picture and one empty file. *)
Definition keyless_state : state := {|
  environ := {[ "GOOGLE_APPLICATION_CREDENTIALS" := "key.json" ]};
  fs := {[ "key.json" := File (Raw "{}");
           "pics" := Dir ["a.JPG"; "empty.jpg"];
           "pics/a.JPG" := File (Raw "IMG");
           "pics/empty.jpg" := File (Raw "") ]};
  trace := []
|}.

(** A directory whose only entry is a sub-directory named like a picture. *)
Definition subdir_state : state := {|
  environ := {[ "GOOGLE_APPLICATION_CREDENTIALS" := "key.json" ]};
  fs := {[ "key.json" := File (Raw "{}");
           "pics" := Dir ["thumbs.png"];
           "pics/thumbs.png" := Dir [] ]};
  trace := []
|}.

(** A picture 4096 pixels wide and 3 high. *)
Definition flat_state : state := {|
  environ := ∅;
  fs := {[ "wide.png" := File (Raw "FLAT") ]};
  trace := []
|}.

(** The description endpoint answers with a JSON array, and the label
    service with a single label whose description is empty. *)
Definition array_world : World := {|
  in_colab := false;
  stdin_line := "pics";
  cwd := "/home/user";
  upload_credentials := Ok [];
  upload_images := [];
  upload_name := fun _ name => name;
  download := fun _ => Ok tt;
  pil_decode := fun _ => None;
  pil_encode := fun img q => "JPEG";
  pil_save := fun _ _ => Saved;
  csv_bytes := fun _ => "";
  vision_client := Ok tt;
  label_detection := fun _ =>
    Ok {| error_message := "";
          label_annotations := [{| description := "" |}] |};
  astica_post := fun _ _ =>
    Ok {| status_code := 200; json_body := Ok (JArr []) |};
  json_repr := fun _ => "?"
|}.



(** The label service answers with two labels, both without a
    description. *)
Definition blank_labels_world : World := {|
  in_colab := false;
  stdin_line := "pics";
  cwd := "/home/user";
  upload_credentials := Ok [];
  upload_images := [];
  upload_name := fun _ name => name;
  download := fun _ => Ok tt;
  pil_decode := pil_decode sample_world;
  pil_encode := pil_encode sample_world;
  pil_save := pil_save sample_world;
  csv_bytes := csv_bytes sample_world;
  vision_client := Ok tt;
  label_detection := fun _ =>
    Ok {| error_message := "";
          label_annotations := [{| description := "" |}; {| description := "" |}] |};
  astica_post := astica_post sample_world;
  json_repr := json_repr sample_world
|}.

(** ** Relations between the state before and after *)

(** [m] takes every state to one related to it by [R]. *)
Definition respects (R : state -> state -> Prop) {A} (m : M A) : Prop :=
  forall s, R s (snd (m s)).

(** Only the files at paths in [P] may differ. *)
Definition same_files_except (P : string -> Prop) (s s' : state) : Prop :=
  forall q, ~ P q -> fs s' !! q = fs s !! q.

(** What was a regular file is one still, and what was a directory too. *)
Definition kinds_kept (s s' : state) : Prop :=
  (forall q c, fs s !! q = Some (File c) -> exists c', fs s' !! q = Some (File c'))
  /\ (forall q entries, fs s !! q = Some (Dir entries) ->
        fs s' !! q = Some (Dir entries)).

(** The trace grew by events that all satisfy [ok]. *)
Definition logged_only (ok : event -> bool) (s s' : state) : Prop :=
  exists evs, trace s' = trace s ++ evs /\ forallb ok evs = true.

(** The call of [files.download], and every other event. *)
Definition is_download (ev : event) : bool :=
  match ev with EvDownload _ => true | _ => false end.

Definition not_download (ev : event) : bool := negb (is_download ev).

(** Colab: the credentials are uploaded as [sa.json]; two files are
    uploaded for processing, one of them a text file.  An upload is saved
    under its name in [/content], or under a second name where the first
    is taken; the credentials file is named as the program names it. *)
Definition colab_world : World := {|
  in_colab := true;
  stdin_line := "";
  cwd := "/content";
  upload_credentials := Ok [("sa.json", "{}")];
  upload_images := [("a.JPG", "IMG"); ("notes.txt", "hello")];
  upload_name := fun f name =>
    if String.eqb name "sa.json" then name
    else match f !! ("/content/" +:+ name) with
         | None => "/content/" +:+ name
         | Some _ =>
             if String.eqb name "notes.txt" then "/content/notes (1).txt"
             else "/content/" +:+ name +:+ " (1)"
         end;
  download := fun _ => Ok tt;
  pil_decode := fun data =>
    if String.eqb data "IMG" then Some {| width := 2048; height := 1000 |}
    else None;
  pil_encode := fun img q => "JPEG";
  pil_save := fun _ _ => Saved;
  csv_bytes := fun _ => "";
  vision_client := Ok tt;
  label_detection := fun data =>
    Ok {| error_message := "";
          label_annotations := [{| description := "cat" |};
                                {| description := "pet" |}] |};
  astica_post := fun _ _ =>
    Ok {| status_code := 200;
          json_body := Raise RequestsJSONDecodeError |};
  json_repr := fun _ => "?"
|}.

(** Nothing set, nothing on disk but an older file named like an upload. *)
Definition colab_state : state := {|
  environ := {[ "ASTICA_API_KEY" := "secret" ]};
  fs := {[ "/content/notes.txt" := File (Raw "older") ]};
  trace := []
|}.

(** The prompt is answered with the path of one picture. *)
Definition single_file_world : World := {|
  in_colab := false;
  stdin_line := " pics/a.JPG ";
  cwd := "/home/user";
  upload_credentials := Ok [];
  upload_images := [];
  upload_name := fun _ name => name;
  download := fun _ => Ok tt;
  pil_decode := pil_decode sample_world;
  pil_encode := pil_encode sample_world;
  pil_save := pil_save sample_world;
  csv_bytes := csv_bytes sample_world;
  vision_client := Ok tt;
  label_detection := label_detection sample_world;
  astica_post := astica_post sample_world;
  json_repr := json_repr sample_world
|}.

(** * Properties *)

(** ** Strings *)

Lemma truthy_true (s : string) : str.truthy s = true <-> s <> "".
Proof.
  unfold str.truthy. rewrite negb_true_iff.
  split; intros H.
  - intros ->. discriminate.
  - destruct s; [congruence | reflexivity].
Qed.

Lemma truthy_false (s : string) : str.truthy s = false <-> s = "".
Proof.
  unfold str.truthy. rewrite negb_false_iff. apply String.eqb_eq.
Qed.

Lemma endswith_app (p suffix : string) : str.endswith (p +:+ suffix) suffix = true.
Proof.
  induction p as [|c p IH].
  - change ("" +:+ suffix) with suffix.
    destruct suffix; cbn [str.endswith]; now rewrite String.eqb_refl.
  - change (String c p +:+ suffix) with (String c (p +:+ suffix)).
    cbn [str.endswith]. rewrite IH. apply orb_true_r.
Qed.

Lemma endswith_spec (s suffix : string) :
  str.endswith s suffix = true <-> exists p, s = p +:+ suffix.
Proof.
  split.
  - induction s as [|c s IH]; cbn [str.endswith]; intros H.
    + rewrite orb_false_r in H. apply String.eqb_eq in H. exists "". now subst.
    + apply orb_true_iff in H as [H|H].
      * apply String.eqb_eq in H. exists "". now rewrite H.
      * destruct (IH H) as [p ->]. now exists (String c p).
  - intros [p ->]. apply endswith_app.
Qed.

(** ** The monad *)

Ltac mstep :=
  unfold bind, ret, raise, lift, log, get_state, set_fs, set_environ, try_ in *;
  cbn [except_ isinstance fst snd environ fs trace] in *.

(** ** Combinators: what keeps the environment, what never raises *)

Lemma preserves_ret {A} (a : A) : preserves_environ (ret a).
Proof. now intros s. Qed.

Lemma preserves_raise {A} (e : exn) : preserves_environ (@raise A e).
Proof. now intros s. Qed.

Lemma preserves_lift {A} (r : result A) : preserves_environ (lift r).
Proof. now destruct r; intros s. Qed.

Lemma preserves_log (ev : event) : preserves_environ (log ev).
Proof. now intros s. Qed.

Lemma preserves_get_state : preserves_environ get_state.
Proof. now intros s. Qed.

Lemma preserves_set_fs f : preserves_environ (set_fs f).
Proof. now intros s. Qed.

Lemma preserves_bind {A B} (m : M A) (k : A -> M B) :
  preserves_environ m -> (forall a, preserves_environ (k a)) ->
  preserves_environ (bind m k).
Proof.
  intros Hm Hk s. unfold bind. specialize (Hm s).
  destruct (m s) as [[a|e] s1]; cbn [snd] in *; [|assumption].
  now rewrite Hk.
Qed.

Lemma preserves_except {A} (hs : list (exn_class * M A)) (e : exn) :
  Forall (fun h => preserves_environ (snd h)) hs -> preserves_environ (except_ hs e).
Proof.
  induction 1 as [|[c h] hs Hh _ IH]; cbn [except_].
  - apply preserves_raise.
  - now destruct (isinstance e c).
Qed.

Lemma preserves_try {A} (body : M A) (hs : list (exn_class * M A)) :
  preserves_environ body -> Forall (fun h => preserves_environ (snd h)) hs ->
  preserves_environ (try_ body hs).
Proof.
  intros Hb Hh s. unfold try_. specialize (Hb s).
  destruct (body s) as [[a|e] s1]; cbn [snd] in *; [assumption|].
  now rewrite (preserves_except hs e Hh).
Qed.

Lemma preserves_for_each {A B} (xs : list A) (body : A -> M B) :
  (forall x, preserves_environ (body x)) -> preserves_environ (for_each xs body).
Proof.
  intros Hb. induction xs as [|x xs IH]; cbn [for_each].
  - apply preserves_ret.
  - apply preserves_bind; [apply Hb|]. intros y.
    apply preserves_bind; [apply IH|]. intros ys. apply preserves_ret.
Qed.

Create HintDb py discriminated.
#[local] Hint Resolve preserves_ret preserves_raise preserves_lift preserves_log
  preserves_get_state preserves_set_fs : py.

Ltac preserves :=
  repeat first
    [ progress auto with py
    | apply preserves_bind; [|intros ?]
    | apply preserves_for_each; intros ?
    | apply preserves_try
    | apply Forall_cons; cbn [snd]
    | apply Forall_nil
    | match goal with
      | |- preserves_environ (match ?x with _ => _ end) => destruct x
      | |- preserves_environ (let '(_, _) := ?x in _) => destruct x
      end ].

Lemma total_ret {A} (a : A) : total (ret a).
Proof. intros s; now exists a. Qed.

Lemma total_bind {A B} (m : M A) (k : A -> M B) :
  total m -> (forall a, total (k a)) -> total (bind m k).
Proof.
  intros Hm Hk s. unfold bind. destruct (Hm s) as [a Ha].
  destruct (m s) as [[a'|e] s1]; cbn [fst] in *; [|discriminate].
  apply Hk.
Qed.

Lemma total_try {A} (body : M A) (hs : list (exn_class * M A)) :
  (forall e, total (except_ hs e)) -> total (try_ body hs).
Proof.
  intros Hh s. unfold try_.
  destruct (body s) as [[a|e] s1]; [now exists a | apply Hh].
Qed.

Lemma total_for_each {A B} (xs : list A) (body : A -> M B) :
  (forall x, total (body x)) -> total (for_each xs body).
Proof.
  intros Hb. induction xs as [|x xs IH]; cbn [for_each].
  - apply total_ret.
  - apply total_bind; [apply Hb|]. intros y.
    apply total_bind; [apply IH|]. intros ys. apply total_ret.
Qed.

Lemma total_run {A} (m : M A) (s : state) :
  total m -> exists a s', m s = (Ok a, s').
Proof.
  intros H. destruct (H s) as [a Ha]. exists a, (snd (m s)).
  destruct (m s); cbn in *; congruence.
Qed.


Lemma after_events_nil (s : state) : after_events s [] = s.
Proof. destruct s; unfold after_events; cbn. now rewrite app_nil_r. Qed.

Lemma after_events_app (s : state) (e1 e2 : list event) :
  after_events (after_events s e1) e2 = after_events s (e1 ++ e2).
Proof. unfold after_events; cbn. now rewrite app_assoc. Qed.

(** ** The tag client *)

Lemma get_image_tags_from_google_cases (W : World) (path : string) (s : state) :
  get_image_tags_from_google W path s =
  match vision_client W with
  | Raise _ => (Ok sentinel_tags_failed, s)
  | Ok _ =>
      match fs s !! path with
      | Some (File c) =>
          (Ok match label_detection W (file_bytes W c) with
              | Raise _ => sentinel_tags_failed
              | Ok response =>
                  if str.truthy (error_message response) then sentinel_tags_failed
                  else
                    let joined :=
                      str.join ", " (map description (label_annotations response)) in
                    if str.truthy joined then joined else sentinel_no_tags
              end,
           after_events s [EvReadFile path; EvLabelDetection path])
      | _ => (Ok sentinel_tags_failed, after_events s [EvReadFile path])
      end
  end.
Proof.
  unfold get_image_tags_from_google, read_file, after_events. mstep.
  destruct (vision_client W) as [[]|e]; mstep; [|now destruct s].
  destruct (fs s !! path) as [[entries|c]|]; mstep; try reflexivity.
  rewrite <- app_assoc. cbn [app].
  destruct (label_detection W (file_bytes W c)) as [resp|e]; mstep; [|reflexivity].
  destruct (str.truthy (error_message resp)); reflexivity.
Qed.

Lemma get_image_tags_from_google_run (W : World) (path : string) (s : state) :
  exists r evs,
    get_image_tags_from_google W path s = (Ok r, after_events s evs)
    /\ forallb (fun ev => negb (description_event ev)) evs = true
    /\ r <> "".
Proof.
  rewrite get_image_tags_from_google_cases.
  destruct (vision_client W) as [[]|e].
  2:{ exists sentinel_tags_failed, []. now rewrite after_events_nil. }
  destruct (fs s !! path) as [[entries|c]|];
    try (now exists sentinel_tags_failed, [EvReadFile path]).
  eexists _, _. split; [reflexivity|]. split; [reflexivity|].
  destruct (label_detection W (file_bytes W c)) as [resp|e]; [|easy].
  destruct (str.truthy (error_message resp)); [easy|]. cbn zeta.
  destruct (str.truthy (str.join _ _)) eqn:Ht; [now apply truthy_true in Ht | easy].
Qed.

(** ** Base64 conversion *)

Lemma convert_image_to_base64_cases (W : World) (path : string) (s : state) :
  convert_image_to_base64 W path s =
  (Ok match fs s !! path with
      | Some (File c) => Some (base64.b64encode (file_bytes W c))
      | _ => None
      end,
   after_events s [EvReadFile path]).
Proof.
  unfold convert_image_to_base64, read_file, after_events. mstep.
  destruct (fs s !! path) as [[entries|c]|]; reflexivity.
Qed.

(** ** The description client *)

Lemma get_description_from_astica_cases (W : World) (b64 : string) (s : state) :
  get_description_from_astica W b64 s =
  match api_key (environ s) with
  | None => (Ok sentinel_no_key, after_events s [EvGetenv "ASTICA_API_KEY"])
  | Some k =>
      (Ok match astica_post W k b64 with
          | Raise e => handler_sentinel e
          | Ok resp =>
              if (400 <=? status_code resp) && (status_code resp <? 600)
              then sentinel_http
              else match json_body resp with
                   | Raise e => handler_sentinel e
                   | Ok j => description_of_json W j
                   end
          end,
       after_events s [EvGetenv "ASTICA_API_KEY"; EvHttpPost api_endpoint k b64])
  end.
Proof.
  unfold get_description_from_astica, os_environ_get, api_key, requests_post,
    raise_for_status, response_json.
  mstep.
  destruct (environ s !! "ASTICA_API_KEY") as [k|]; [|reflexivity].
  destruct (str.truthy k); cbn [negb]; [|reflexivity].
  unfold after_events. cbn [environ fs trace]. rewrite <- app_assoc. cbn [app].
  destruct (astica_post W k b64) as [resp|e]; mstep; [|destruct e; reflexivity].
  destruct ((400 <=? status_code resp) && (status_code resp <? 600)); mstep;
    [reflexivity|].
  destruct (json_body resp) as [j|e]; mstep; [|destruct e; reflexivity].
  destruct j as [| | | |items|items]; try reflexivity.
  unfold json_get, description_of_json. mstep.
  destruct (json_eq_str _ "error" || json_has (JObj items) "error"); mstep;
    [reflexivity|].
  destruct (items_get "caption" items) as [[| | |c| |]|]; reflexivity.
Qed.

Lemma handler_sentinel_nonempty (e : exn) : handler_sentinel e <> "".
Proof. now destruct e. Qed.

Lemma description_of_json_nonempty (W : World) (j : json) :
  description_of_json W j <> "".
Proof.
  destruct j as [| | | |items|items]; try easy.
  unfold description_of_json.
  destruct (_ || _); [easy|].
  destruct (items_get "caption" items) as [[| | |c| |]|]; try easy.
  destruct (str.truthy (str.strip c)) eqn:Ht; [now apply truthy_true in Ht | easy].
Qed.

Lemma get_description_from_astica_run (W : World) (b64 : string) (s : state) :
  exists r evs,
    get_description_from_astica W b64 s = (Ok r, after_events s evs) /\ r <> "".
Proof.
  rewrite get_description_from_astica_cases.
  destruct (api_key (environ s)) as [k|]; [|now eexists _, _].
  eexists _, _. split; [reflexivity|].
  destruct (astica_post W k b64) as [resp|e]; [|apply handler_sentinel_nonempty].
  destruct (_ && _); [easy|].
  destruct (json_body resp) as [j|e];
    [apply description_of_json_nonempty | apply handler_sentinel_nonempty].
Qed.

(** ** The normaliser *)

Lemma image_at_file (W : World) (s : state) (path : string) (img : image) :
  image_at W s path = Some img -> exists c, fs s !! path = Some (File c).
Proof.
  unfold image_at. destruct (fs s !! path) as [[entries|c]|]; try discriminate.
  intros _. now exists c.
Qed.

Lemma Image_open_cases (W : World) (path : string) (s : state) :
  Image_open W path s =
  (match fs s !! path with
   | Some (File _) =>
       match image_at W s path with
       | Some img => Ok img
       | None => Raise UnidentifiedImageError
       end
   | Some (Dir _) => Raise IsADirectoryError
   | None => Raise FileNotFoundError
   end,
   after_events s [EvImageOpen path]).
Proof.
  unfold Image_open, image_at, after_events. mstep.
  destruct (fs s !! path) as [[entries|c]|]; try reflexivity.
  destruct c as [data|img q|rows]; try reflexivity;
    cbn [file_bytes]; now destruct (pil_decode W _).
Qed.

Lemma compress_image_cases (W : World) (path : string) (s : state) :
  compress_image W path s =
  (Ok tt,
   {| environ := environ s;
      fs := match image_at W s path with
            | Some img =>
                match normalized img with
                | Some img' => after_save W img' path (fs s)
                | None => fs s
                end
            | None => fs s
            end;
      trace := trace s ++ [EvImageOpen path] |}).
Proof.
  unfold compress_image, compress_image_with, try_, bind at 1.
  rewrite Image_open_cases.
  destruct (image_at W s path) as [img|] eqn:Himg.
  2:{ destruct (fs s !! path) as [[entries|c]|]; reflexivity. }
  destruct (image_at_file _ _ _ _ Himg) as [c Hc]. rewrite Hc.
  unfold normalized, after_save, os_path_getsize, Image_resize, Image_save,
    after_events.
  mstep. rewrite Hc. mstep.
  destruct (width img >? MAX_IMAGE_WIDTH); mstep.
  - change (MAX_IMAGE_WIDTH <? 1) with false. cbn [orb].
    destruct (height_size MAX_IMAGE_WIDTH img <? 1); mstep; [reflexivity|].
    destruct (pil_save W _ path); mstep; try reflexivity;
      rewrite Hc; mstep; rewrite ?lookup_insert_eq; reflexivity.
  - destruct (pil_save W img path); mstep; try reflexivity;
      rewrite Hc; mstep; rewrite ?lookup_insert_eq; reflexivity.
Qed.

Lemma after_save_file (W : World) (img : image) (path : string)
    (f : gmap string node) (c : content) :
  f !! path = Some (File c) ->
  exists c', after_save W img path f !! path = Some (File c').
Proof.
  intros Hc. unfold after_save.
  destruct (pil_save W img path); rewrite ?lookup_insert_eq; eauto.
Qed.

Lemma after_save_other (W : World) (img : image) (path q : string)
    (f : gmap string node) :
  q <> path -> after_save W img path f !! q = f !! q.
Proof.
  intros Hq. unfold after_save.
  destruct (pil_save W img path); rewrite ?lookup_insert_ne by congruence;
    reflexivity.
Qed.

Lemma image_at_same_fs (W : World) (s s' : state) (path : string) :
  fs s' = fs s -> image_at W s' path = image_at W s path.
Proof. unfold image_at. now intros ->. Qed.

Lemma image_at_saved (W : World) (s : state) (f : gmap string node) (path : string)
    (img : image) (q : Z) :
  fs s = <[path := File (Encoded img q)]> f -> image_at W s path = Some img.
Proof. unfold image_at. intros ->. now rewrite lookup_insert_eq. Qed.


Lemma normalized_narrow (img : image) :
  width img <= MAX_IMAGE_WIDTH -> normalized img = Some img.
Proof.
  intros Hw. unfold normalized.
  destruct (width img >? MAX_IMAGE_WIDTH) eqn:H; [lia | reflexivity].
Qed.

(** What [compress_image] leaves at [path], as [Image.open] sees it. *)
Lemma image_at_compress_image (W : World) (path : string) (s : state) :
  image_at W (snd (compress_image W path s)) path =
  match image_at W s path with
  | Some img =>
      match normalized img with
      | Some img' =>
          match pil_save W img' path with
          | Saved => Some img'
          | UnknownExtension => Some img
          | CannotWrite => pil_decode W ""
          end
      | None => Some img
      end
  | None => None
  end.
Proof.
  rewrite compress_image_cases. cbn [snd].
  destruct (image_at W s path) as [img|] eqn:Himg.
  - destruct (normalized img) as [img'|].
    + unfold after_save. destruct (pil_save W img' path).
      * eapply image_at_saved. reflexivity.
      * rewrite <- Himg. now apply image_at_same_fs.
      * unfold image_at. cbn [fs]. now rewrite lookup_insert_eq.
    + rewrite <- Himg. now apply image_at_same_fs.
  - rewrite <- Himg. now apply image_at_same_fs.
Qed.

(** ** The per-image pipeline *)

Lemma bind_ok {A B} (m : M A) (k : A -> M B) (s s1 : state) (a : A) :
  m s = (Ok a, s1) -> bind m k s = k a s1.
Proof. intros H. unfold bind. now rewrite H. Qed.

Lemma process_image_metadata_run (W : World) (path : string) (s : state) :
  exists t evs d s',
    let s1 := snd (compress_image W path s) in
    let s3 := after_events s1 (evs ++ [EvReadFile path]) in
    get_image_tags_from_google W path s1 = (Ok t, after_events s1 evs)
    /\ forallb (fun ev => negb (description_event ev)) evs = true
    /\ t <> ""
    /\ process_image_metadata W path s =
         (Ok (image_record (os_path.basename path) d t), s')
    /\ match base64_input W s1 path with
       | Some b64 => get_description_from_astica W b64 s3 = (Ok d, s')
       | None => d = sentinel_skipped /\ s' = s3
       end.
Proof.
  destruct (get_image_tags_from_google_run W path (snd (compress_image W path s)))
    as (t & evs & Ht & Hq & Hne).
  exists t, evs.
  unfold process_image_metadata.
  pose proof (compress_image_cases W path s) as Hc.
  set (s1 := snd (compress_image W path s)) in *.
  assert (Hc' : compress_image W path s = (Ok tt, s1)).
  { subst s1. now rewrite Hc. }
  rewrite (bind_ok _ _ _ _ _ Hc'), (bind_ok _ _ _ _ _ Ht).
  rewrite (bind_ok _ _ _ _ _ (convert_image_to_base64_cases W path _)).
  rewrite after_events_app.
  unfold base64_input. cbn [after_events fs].
  destruct (fs s1 !! path) as [[entries|c]|].
  1,3: (eexists _, _; cbn zeta; repeat split; try eassumption; reflexivity).
  destruct (str.truthy (base64.b64encode (file_bytes W c))) eqn:Hb.
  - destruct (get_description_from_astica_run W (base64.b64encode (file_bytes W c))
                (after_events s1 (evs ++ [EvReadFile path]))) as (d & evs' & Hd & _).
    exists d, (after_events (after_events s1 (evs ++ [EvReadFile path])) evs').
    cbn zeta. repeat split; try assumption.
    now rewrite (bind_ok _ _ _ _ _ Hd).
  - eexists _, _; cbn zeta; repeat split; try eassumption; reflexivity.
Qed.

Lemma process_image_metadata_record (W : World) (path : string) (s : state) :
  exists d t s',
    process_image_metadata W path s =
      (Ok (image_record (os_path.basename path) d t), s')
    /\ environ s' = environ s /\ d <> "" /\ t <> ""
    /\ (api_key (environ s) = None -> d = sentinel_no_key \/ d = sentinel_skipped).
Proof.
  destruct (process_image_metadata_run W path s) as (t & evs & d & s' & H).
  cbn zeta in H. destruct H as (_ & _ & Ht & Hp & Hd).
  exists d, t, s'. split; [assumption|].
  assert (He1 : environ (snd (compress_image W path s)) = environ s)
    by now rewrite compress_image_cases.
  destruct (base64_input W _ path) as [b64|].
  - rewrite get_description_from_astica_cases in Hd. cbn [after_events environ] in Hd.
    rewrite He1 in Hd.
    destruct (api_key (environ s)) as [k|]; injection Hd as <- <-; cbn [environ].
    + repeat split; try assumption; [|discriminate].
      destruct (astica_post W k b64) as [resp|e]; [|apply handler_sentinel_nonempty].
      destruct (_ && _); [easy|].
      destruct (json_body resp) as [j|e];
        [apply description_of_json_nonempty | apply handler_sentinel_nonempty].
    + repeat split; try assumption; [easy | now left].
  - destruct Hd as [-> ->]. cbn [after_events environ].
    repeat split; try assumption; [easy | now right].
Qed.

(** One record per path, in order. *)
Lemma for_each_process (W : World) (paths : list string) (s : state) :
  exists recs s',
    for_each paths (process_image_metadata W) s = (Ok recs, s')
    /\ environ s' = environ s
    /\ Forall2 (fun p r => exists d t,
                  r = image_record (os_path.basename p) d t /\ d <> "" /\ t <> ""
                  /\ (api_key (environ s) = None ->
                      d = sentinel_no_key \/ d = sentinel_skipped))
         paths recs.
Proof.
  revert s. induction paths as [|p paths IH]; intros s; cbn [for_each].
  - exists [], s. repeat split. constructor.
  - destruct (process_image_metadata_record W p s) as (d & t & s1 & Hp & He & Hd & Ht & Hk).
    destruct (IH s1) as (recs & s2 & Hr & He2 & Hall).
    exists (image_record (os_path.basename p) d t :: recs), s2.
    rewrite (bind_ok _ _ _ _ _ Hp), (bind_ok _ _ _ _ _ Hr).
    repeat split; [congruence|].
    constructor; [now exists d, t|].
    rewrite He in Hall. exact Hall.
Qed.

Lemma Forall2_filenames (P : string -> string -> Prop) (paths : list string)
    (recs : list dict) :
  Forall2 (fun p r => exists d t,
             r = image_record (os_path.basename p) d t /\ P d t) paths recs ->
  map (dict_get "filename") recs = map (fun p => Some (os_path.basename p)) paths.
Proof.
  induction 1 as [|p r paths recs (d & t & -> & _) _ IH]; [reflexivity|].
  cbn [map]. now rewrite IH.
Qed.

(** ** The export step *)

Lemma write_csv_total (W : World) (recs : list dict) : total (write_csv W recs).
Proof.
  unfold write_csv. destruct (negb (is_empty recs)); [|apply total_ret].
  apply total_try. intros e. cbn [except_].
  destruct (isinstance e cIOError); apply total_ret.
Qed.

Lemma write_csv_empty (W : World) (s : state) : write_csv W [] s = (Ok tt, s).
Proof. reflexivity. Qed.

Lemma bind_raise {A B} (m : M A) (k : A -> M B) (s s1 : state) (e : exn) :
  m s = (Raise e, s1) -> bind m k s = (Raise e, s1).
Proof. intros H. unfold bind. now rewrite H. Qed.

Lemma csv_open_run (path : string) (s : state) :
  (forall entries, fs s !! path <> Some (Dir entries)) ->
  csv_open path s =
  (Ok tt, {| environ := environ s;
             fs := <[path := File (CsvText [])]> (fs s);
             trace := trace s |}).
Proof.
  intros Hnd. unfold csv_open. mstep.
  destruct (fs s !! path) as [[entries|c]|] eqn:Hf; try reflexivity.
  now destruct (Hnd entries).
Qed.

Lemma csv_writer_writerow_run (path : string) (row : list string)
    (rows : list (list string)) (s : state) :
  fs s !! path = Some (File (CsvText rows)) ->
  csv_writer_writerow path row s =
  (Ok tt, {| environ := environ s;
             fs := <[path := File (CsvText (rows ++ [row]))]> (fs s);
             trace := trace s |}).
Proof. intros Hf. unfold csv_writer_writerow. mstep. now rewrite Hf. Qed.

(** The keys of an image record are not field names of the writer. *)
Lemma DictWriter_refuses_image_record (path f d t : string) (s : state) :
  DictWriter_writerow path csv_header (image_record f d t) s = (Raise ValueError, s).
Proof. reflexivity. Qed.

(** With at least one record the file is opened and the header written;
    the first record is then refused, its keys not being field names, and
    the handler for [Exception] ends the export. *)
Lemma write_csv_header_only (W : World) (s : state) (f d t : string)
    (rest : list dict) :
  (forall entries, fs s !! OUTPUT_CSV_FILENAME <> Some (Dir entries)) ->
  write_csv W (image_record f d t :: rest) s =
  (Ok tt, {| environ := environ s;
             fs := <[OUTPUT_CSV_FILENAME := File (CsvText [csv_header])]> (fs s);
             trace := trace s |}).
Proof.
  intros Hnd. unfold write_csv. cbn [is_empty negb]. unfold try_.
  rewrite (bind_ok _ _ _ _ _ (csv_open_run _ s Hnd)).
  unfold DictWriter_writeheader, DictWriter_writerow at 1.
  change (DictWriter_dict_to_list ["Filename"; "Description"; "Tags"]
            (combine ["Filename"; "Description"; "Tags"]
               ["Filename"; "Description"; "Tags"]))
    with (@ret (list string) csv_header).
  unfold bind at 1. unfold bind at 1. unfold ret at 1.
  erewrite csv_writer_writerow_run by (cbn [fs]; apply lookup_insert_eq).
  cbn [fs environ trace app]. rewrite insert_insert_eq.
  unfold DictWriter_writerows. cbn [for_each].
  unfold bind at 1. unfold bind at 1. unfold bind at 1.
  fold csv_header. rewrite DictWriter_refuses_image_record.
  reflexivity.
Qed.

(** ** The clean-up step *)

Lemma clean_up_total (W : World) (temps : list string) : total (clean_up W temps).
Proof.
  unfold clean_up. destruct (_ && _); [|apply total_ret].
  apply total_bind; [|intros; apply total_ret].
  apply total_for_each. intros p. unfold os_path_exists.
  apply total_bind;
    [apply total_bind; [intros s; now eexists | intros; apply total_ret]|].
  intros [|]; [|apply total_ret].
  apply total_try. intros e. cbn. apply total_ret.
Qed.

Lemma clean_up_local (W : World) (s : state) : clean_up W [] s = (Ok tt, s).
Proof. unfold clean_up. cbn [is_empty negb]. now rewrite andb_false_r. Qed.

(** ** From the paths to the records *)

Lemma process_and_export_run (W : World) (paths temps : list string) (s : state) :
  exists recs s1 s',
    for_each paths (process_image_metadata W) s = (Ok recs, s1)
    /\ process_and_export W paths temps s = (Ok recs, s').
Proof.
  destruct (for_each_process W paths s) as (recs & s1 & Hr & _).
  destruct (total_run _ s1 (write_csv_total W recs)) as ([] & s2 & Hw).
  destruct (total_run _ s2 (clean_up_total W temps)) as ([] & s3 & Hc).
  exists recs, s1, s3. split; [assumption|].
  unfold process_and_export.
  now rewrite (bind_ok _ _ _ _ _ Hr), (bind_ok _ _ _ _ _ Hw), (bind_ok _ _ _ _ _ Hc).
Qed.

(** ** Paths and extensions *)

Lemma string_app_assoc (a b c : string) : (a +:+ b) +:+ c = a +:+ (b +:+ c).
Proof.
  induction a as [|x a IH]; [reflexivity|].
  change (String x ((a +:+ b) +:+ c) = String x (a +:+ (b +:+ c))). now rewrite IH.
Qed.

Lemma string_app_last_inj (x y : string) (a b : ascii) :
  x +:+ String a "" = y +:+ String b "" -> a = b.
Proof.
  revert y. induction x as [|c x IH]; intros [|c' y] H.
  - now injection H.
  - injection H as _ H. now destruct y.
  - injection H as _ H. now destruct x.
  - injection H as _ H. eauto.
Qed.

(** Two strings that end in different characters are not suffixes of the
    same string. *)
Lemma endswith_last_char (s u v : string) (a b : ascii) :
  str.endswith s (u +:+ String a "") = true ->
  str.endswith s (v +:+ String b "") = true -> a = b.
Proof.
  intros [p Hp]%endswith_spec [q Hq]%endswith_spec.
  rewrite <- string_app_assoc in Hp, Hq.
  apply (string_app_last_inj (p +:+ u) (q +:+ v)). congruence.
Qed.

Lemma txt_not_image (name : string) :
  str.endswith (str.lower name) ".txt" = true -> has_image_extension name = false.
Proof.
  intros Ht. unfold has_image_extension, str.endswith_any, image_extensions.
  cbn [existsb].
  repeat match goal with
  | |- context [str.endswith (str.lower name) ?e] =>
      destruct (str.endswith (str.lower name) e) eqn:?
  end; try reflexivity; exfalso.
  all: match goal with
       | H : str.endswith _ ?e = true |- _ =>
           first
             [ pose proof (endswith_last_char _ ".tx" ".pn" _ _ Ht H) as Hab
             | pose proof (endswith_last_char _ ".tx" ".jp" _ _ Ht H) as Hab
             | pose proof (endswith_last_char _ ".tx" ".jpe" _ _ Ht H) as Hab
             | pose proof (endswith_last_char _ ".tx" ".gi" _ _ Ht H) as Hab
             | pose proof (endswith_last_char _ ".tx" ".bm" _ _ Ht H) as Hab
             | pose proof (endswith_last_char _ ".tx" ".tif" _ _ Ht H) as Hab ];
           discriminate Hab
       end.
Qed.

Lemma jpg_is_image (name : string) :
  str.endswith (str.lower name) ".jpg" = true -> has_image_extension name = true.
Proof.
  intros H. unfold has_image_extension, str.endswith_any, image_extensions.
  cbn [existsb]. rewrite H. now rewrite orb_true_r.
Qed.

Lemma has_image_extension_spec (name : string) :
  has_image_extension name = true <->
  exists stem ext, In ext image_extensions /\ str.lower name = stem +:+ ext.
Proof.
  unfold has_image_extension, str.endswith_any. rewrite existsb_exists. split.
  - intros (ext & Hin & [stem Hs]%endswith_spec). now exists stem, ext.
  - intros (stem & ext & Hin & Hs). exists ext. split; [assumption|].
    apply endswith_spec. now exists stem.
Qed.

Lemma basename_no_slash (n : string) :
  str.contains_char "/" n = false -> os_path.basename n = n.
Proof.
  destruct n as [|c n]; [reflexivity|]. cbn [str.contains_char os_path.basename].
  intros [Hc Hn]%orb_false_iff. rewrite Hn.
  rewrite Ascii.eqb_sym in Hc. now rewrite Hc.
Qed.

Lemma contains_char_app_r (c : ascii) (a b : string) :
  str.contains_char c b = true -> str.contains_char c (a +:+ b) = true.
Proof.
  intros H. induction a as [|x a IH]; [assumption|].
  change (str.contains_char c (String x (a +:+ b)) = true).
  cbn [str.contains_char]. rewrite IH. apply orb_true_r.
Qed.

Lemma basename_after_slash (a n : string) :
  str.contains_char "/" n = false -> os_path.basename (a +:+ String "/" n) = n.
Proof.
  intros Hn. induction a as [|x a IH].
  - change (os_path.basename (String "/" n) = n). cbn [os_path.basename].
    now rewrite Hn.
  - change (os_path.basename (String x (a +:+ String "/" n)) = n).
    cbn [os_path.basename].
    rewrite contains_char_app_r; [assumption|].
    cbn [str.contains_char]. now rewrite Ascii.eqb_refl.
Qed.

(** The base name of a directory entry joined to its directory is the
    entry. *)
Lemma basename_join (d n : string) :
  str.contains_char "/" n = false -> os_path.basename (os_path.join d n) = n.
Proof.
  intros Hn. unfold os_path.join.
  assert (Hs : str.startswith n "/" = false).
  { destruct n as [|c n]; [reflexivity|].
    unfold str.startswith. cbn [String.prefix].
    destruct (ascii_dec "/" c) as [<-|Hne]; [|reflexivity].
    cbn [str.contains_char] in Hn. now rewrite Ascii.eqb_refl in Hn. }
  rewrite Hs.
  destruct (String.eqb d "") eqn:Hd.
  - apply String.eqb_eq in Hd as ->. now apply basename_no_slash.
  - cbn [orb]. destruct (str.endswith d "/") eqn:He.
    + apply endswith_spec in He as [p ->]. rewrite string_app_assoc.
      now apply basename_after_slash.
    + now apply basename_after_slash.
Qed.

Lemma map_basename_join (d : string) (names : list string) :
  Forall (fun n => str.contains_char "/" n = false) names ->
  map (fun p => Some (os_path.basename p)) (map (os_path.join d) names)
  = map Some names.
Proof.
  induction 1 as [|n names Hn _ IH]; [reflexivity|].
  cbn [map]. now rewrite basename_join, IH.
Qed.

(** ** Credentials *)

Lemma api_key_insert (env : gmap string string) (v : string) :
  api_key (<["GOOGLE_APPLICATION_CREDENTIALS" := v]> env) = api_key env.
Proof. unfold api_key. now rewrite lookup_insert_ne. Qed.

Lemma setup_google_credentials_found (W : World) (s : state) :
  credentials_found s = true -> setup_google_credentials W s = (Ok true, s).
Proof.
  unfold credentials_found, setup_google_credentials. mstep. now intros ->.
Qed.

Lemma setup_google_credentials_cases (W : World) (s : state) :
  setup_google_credentials W s =
  if credentials_found s then (Ok true, s)
  else if in_colab W then
    match upload_credentials W with
    | Ok ((fn, data) :: rest) =>
        (Ok true,
         {| environ := <["GOOGLE_APPLICATION_CREDENTIALS" := fn]> (environ s);
            fs := upload_saved W ((fn, data) :: rest) (fs s);
            trace := trace s ++ [EvUpload] |})
    | _ => (Ok false, after_events s [EvUpload])
    end
  else (Ok false, s).
Proof.
  unfold setup_google_credentials, files_upload, is_running_in_colab. mstep.
  destruct (credentials_found s) eqn:Hcf; unfold credentials_found in Hcf;
    rewrite Hcf; [reflexivity|].
  destruct (in_colab W); [|reflexivity].
  destruct (upload_credentials W) as [[|[fn data] rest]|e]; reflexivity.
Qed.

(** What [files.upload()] saves is new: what was there is there still. *)
Lemma upload_saved_keeps (W : World) (uploaded : list (string * string))
    (f : gmap string node) (q : string) (n : node) :
  f !! q = Some n -> upload_saved W uploaded f !! q = Some n.
Proof.
  revert f. induction uploaded as [|[name data] rest IH]; intros f Hq; [exact Hq|].
  cbn [upload_saved]. apply IH.
  destruct (f !! upload_name W f name) eqn:Hp; [exact Hq|].
  rewrite lookup_insert_ne; [exact Hq|]. intros <-. congruence.
Qed.

(** And what it saves are regular files. *)
Lemma upload_saved_dir (W : World) (uploaded : list (string * string))
    (f : gmap string node) (q : string) (entries : list string) :
  upload_saved W uploaded f !! q = Some (Dir entries) -> f !! q = Some (Dir entries).
Proof.
  revert f. induction uploaded as [|[name data] rest IH]; intros f Hq; [exact Hq|].
  cbn [upload_saved] in Hq. apply IH in Hq.
  destruct (f !! upload_name W f name) eqn:Hp; [exact Hq|].
  destruct (decide (upload_name W f name = q)) as [<-|Hne].
  - rewrite lookup_insert_eq in Hq. discriminate.
  - now rewrite lookup_insert_ne in Hq.
Qed.

Lemma setup_google_credentials_run (W : World) (s : state) :
  exists ok s',
    setup_google_credentials W s = (Ok ok, s')
    /\ (in_colab W = false \/ ok = false \/ credentials_found s = true ->
        fs s' = fs s)
    /\ api_key (environ s') = api_key (environ s)
    /\ (trace s' = trace s \/ trace s' = trace s ++ [EvUpload])
    /\ (credentials_found s = true -> ok = true).
Proof.
  rewrite setup_google_credentials_cases.
  destruct (credentials_found s) eqn:Hcf; [exists true, s; repeat split; auto|].
  destruct (in_colab W); [|exists false, s; repeat split; auto; discriminate].
  destruct (upload_credentials W) as [[|[fn data] rest]|e].
  - eexists false, _. repeat split; auto; discriminate.
  - eexists true, _. split; [reflexivity|]. cbn [environ fs trace].
    split; [intros [H|[H|H]]; discriminate|].
    repeat split; auto using api_key_insert.
  - eexists false, _. repeat split; auto; discriminate.
Qed.

(** ** The local branch *)

Lemma local_image_paths_cases (W : World) (s : state) :
  local_image_paths W s =
  (Ok match fs s !! str.strip (stdin_line W) with
      | Some (Dir names) =>
          Some (map (os_path.join (str.strip (stdin_line W)))
                  (List.filter has_image_extension names))
      | Some (File _) =>
          if has_image_extension (str.strip (stdin_line W))
          then Some [str.strip (stdin_line W)] else None
      | None => None
      end,
   after_events s [EvInput]).
Proof.
  unfold local_image_paths, os_path_exists, os_path_isdir, os_path_isfile,
    os_listdir, after_events.
  mstep.
  destruct (fs s !! str.strip (stdin_line W)) as [[names|c]|] eqn:Hf;
    cbn [negb fs]; rewrite ?Hf; cbn [fs]; rewrite ?Hf; try reflexivity.
  now destruct (has_image_extension _).
Qed.

(** ** The Colab branch *)

Lemma files_upload_run (W : World) (uploaded : list (string * string)) (s : state) :
  files_upload W (Ok uploaded) s =
  (Ok uploaded, {| environ := environ s; fs := upload_saved W uploaded (fs s);
                   trace := trace s ++ [EvUpload] |}).
Proof. reflexivity. Qed.

Lemma save_uploads_run (W : World) (uploaded : list (string * string)) (s : state) :
  exists paths s',
    save_uploads W uploaded s = (Ok paths, s') /\ environ s' = environ s.
Proof.
  assert (Hp : preserves_environ (save_uploads W uploaded)).
  { unfold save_uploads, write_file. preserves. }
  assert (Ht : total (save_uploads W uploaded)).
  { unfold save_uploads. apply total_bind; [|intros; apply total_ret].
    apply total_for_each. intros [name data]. apply total_try.
    intros e. cbn. apply total_ret. }
  destruct (total_run _ s Ht) as (paths & s' & H). exists paths, s'.
  split; [assumption|]. specialize (Hp s). now rewrite H in Hp.
Qed.

(** ** [main] *)


Lemma os_environ_get_run (key : string) (s : state) :
  os_environ_get key s = (Ok (environ s !! key), after_events s [EvGetenv key]).
Proof. reflexivity. Qed.

(** In local mode with a directory given, [main] processes the selected
    entries, in the order of the listing. *)
Lemma main_local_directory (W : World) (s : state) (names : list string) :
  in_colab W = false ->
  credentials_found s = true ->
  fs s !! str.strip (stdin_line W) = Some (Dir names) ->
  exists recs s1 s',
    for_each (map (os_path.join (str.strip (stdin_line W)))
                (List.filter has_image_extension names))
      (process_image_metadata W)
      (after_events s [EvGetenv "ASTICA_API_KEY"; EvInput]) = (Ok recs, s1)
    /\ main W s = (Ok recs, s').
Proof.
  intros Hcolab Hcred Hdir. unfold main.
  rewrite (bind_ok _ _ _ _ _ (setup_google_credentials_found W s Hcred)).
  cbn [negb]. rewrite (bind_ok _ _ _ _ _ (os_environ_get_run _ s)).
  unfold is_running_in_colab. rewrite Hcolab.
  rewrite (bind_ok _ _ _ _ _ (local_image_paths_cases W _)).
  rewrite after_events_app. cbn [app after_events fs]. rewrite Hdir.
  set (paths := map _ _).
  destruct (process_and_export_run W paths []
              (after_events s [EvGetenv "ASTICA_API_KEY"; EvInput]))
    as (recs & s1 & s' & Hr & Hm).
  destruct paths as [|p paths'] eqn:Hp.
  - cbn [for_each] in Hr. injection Hr as <- <-.
    eexists [], _, _. split; reflexivity.
  - exists recs, s1, s'. split; [assumption|]. cbn [is_empty]. exact Hm.
Qed.

(** Whatever the mode, [main] ends normally and every record it returns
    was built by [process_image_metadata]. *)
Lemma main_run (W : World) (s : state) :
  exists recs s',
    main W s = (Ok recs, s')
    /\ Forall (fun r => exists f d t,
                 r = image_record f d t /\ d <> "" /\ t <> ""
                 /\ (api_key (environ s) = None ->
                     d = sentinel_no_key \/ d = sentinel_skipped)) recs.
Proof.
  destruct (setup_google_credentials_run W s) as (ok & s0 & Hs & _ & Hk & _ & _).
  unfold main. rewrite (bind_ok _ _ _ _ _ Hs).
  destruct ok; cbn [negb]; [|now exists [], s0].
  rewrite (bind_ok _ _ _ _ _ (os_environ_get_run _ s0)).
  assert (Hgo : forall paths temps s1,
    environ s1 = environ s0 ->
    exists recs s',
      process_and_export W paths temps s1 = (Ok recs, s')
      /\ Forall (fun r => exists f d t,
                   r = image_record f d t /\ d <> "" /\ t <> ""
                   /\ (api_key (environ s) = None ->
                       d = sentinel_no_key \/ d = sentinel_skipped)) recs).
  { intros paths temps s1 He.
    destruct (process_and_export_run W paths temps s1) as (recs & s2 & s' & Hr & Hm).
    exists recs, s'. split; [assumption|].
    destruct (for_each_process W paths s1) as (recs' & s2' & Hr' & _ & Hall).
    rewrite Hr in Hr'. injection Hr' as <- <-.
    rewrite He, Hk in Hall. clear -Hall.
    induction Hall as [|p r paths recs (d & t & Hrec) _ IH]; constructor; [|assumption].
    now exists (os_path.basename p), d, t. }
  destruct (is_running_in_colab W).
  - rewrite (bind_ok _ _ _ _ _ (files_upload_run W _ _)).
    destruct (is_empty (upload_images W)); [now eexists [], _|].
    match goal with |- context [bind _ _ ?st] =>
      destruct (save_uploads_run W (upload_images W) st) as (paths & s1 & Hu & He) end.
    rewrite (bind_ok _ _ _ _ _ Hu). apply Hgo. now rewrite He.
  - rewrite (bind_ok _ _ _ _ _ (local_image_paths_cases W _)).
    destruct (match fs _ !! _ with Some _ => _ | None => _ end) as [paths|];
      [|now eexists [], _].
    destruct (is_empty paths); [now eexists [], _|].
    apply Hgo. reflexivity.
Qed.

(** ** Two runs on the same files *)

(** After the normaliser, [process_image_metadata] only reads. *)
Lemma process_image_metadata_files (W : World) (path : string) (s : state) :
  fs (snd (process_image_metadata W path s)) = fs (snd (compress_image W path s)).
Proof.
  destruct (process_image_metadata_run W path s) as (t & evs & d & s' & H).
  cbn zeta in H. destruct H as (_ & _ & _ & Hp & Hd). rewrite Hp. cbn [snd].
  destruct (base64_input W _ path) as [b64|].
  - rewrite get_description_from_astica_cases in Hd.
    destruct (api_key _); injection Hd as _ <-; reflexivity.
  - destruct Hd as [_ ->]. reflexivity.
Qed.







(** The clean-up, file by file. *)
Lemma clean_up_cases (W : World) (temps : list string) (s : state) :
  clean_up W temps s =
  (Ok tt, {| environ := environ s;
             fs := if in_colab W then fold_left without_file temps (fs s)
                   else fs s;
             trace := trace s |}).
Proof.
  unfold clean_up, is_running_in_colab.
  destruct (in_colab W); [|now destruct s].
  destruct temps as [|p0 temps0]; [now destruct s|].
  cbn [is_empty negb andb].
  set (temps := p0 :: temps0). clearbody temps.
  set (body := fun temp_file_path : string => _).
  assert (H : forall s, exists l, for_each temps body s =
      (Ok l, {| environ := environ s;
                fs := fold_left without_file temps (fs s);
                trace := trace s |})).
  { clear s. induction temps as [|p temps IH]; intros s.
    - exists []. now destruct s.
    - cbn [for_each fold_left].
      assert (Hb : body p s = (Ok tt, {| environ := environ s;
                                         fs := without_file (fs s) p;
                                         trace := trace s |})).
      { unfold body, os_path_exists, os_remove, try_, without_file. mstep.
        destruct (fs s !! p) as [[entries|c]|] eqn:Hf; mstep; rewrite ?Hf;
          try reflexivity; now destruct s. }
      destruct (IH {| environ := environ s; fs := without_file (fs s) p;
                      trace := trace s |}) as (l & Hl).
      exists (tt :: l). rewrite (bind_ok _ _ _ _ _ Hb), (bind_ok _ _ _ _ _ Hl).
      reflexivity. }
  destruct (H s) as (l & Hl). now rewrite (bind_ok _ _ _ _ _ Hl).
Qed.

Lemma write_file_cases (W : World) (path data : string) (s : state) :
  write_file W path data s =
  if writable W (fs s) path
  then (Ok tt, {| environ := environ s; fs := <[path := File (Raw data)]> (fs s);
                  trace := trace s |})
  else (Raise (match fs s !! path with
               | Some (Dir _) => IsADirectoryError
               | _ => FileNotFoundError
               end), s).
Proof.
  unfold write_file, writable. mstep.
  destruct (fs s !! path) as [[entries|c]|]; try reflexivity;
    now destruct (parent_exists W (fs s) path).
Qed.

(** The Colab branch saves what it can, in the order of the upload. *)
Lemma save_uploads_cases (W : World) (uploaded : list (string * string))
    (s : state) :
  save_uploads W uploaded s =
  (Ok (fst (saved_uploads W uploaded (fs s))),
   {| environ := environ s; fs := snd (saved_uploads W uploaded (fs s));
      trace := trace s |}).
Proof.
  unfold save_uploads.
  match goal with |- context [for_each uploaded ?b] => set (body := b) end.
  assert (H : forall s, exists saved,
    for_each uploaded body s =
      (Ok saved, {| environ := environ s; fs := snd (saved_uploads W uploaded (fs s));
                    trace := trace s |})
    /\ omap id saved = fst (saved_uploads W uploaded (fs s))).
  { clear s. induction uploaded as [|[name data] uploaded IH]; intros s.
    - exists []. split; [now destruct s | reflexivity].
    - cbn [for_each saved_uploads].
      set (p := os_path.join (cwd W) name).
      assert (Hb : body (name, data) s =
        if writable W (fs s) p
        then (Ok (Some p), {| environ := environ s;
                              fs := <[p := File (Raw data)]> (fs s);
                              trace := trace s |})
        else (Ok None, s)).
      { unfold body, try_, bind. fold p. rewrite write_file_cases.
        destruct (writable W (fs s) p); [reflexivity|].
        now destruct (fs s !! p) as [[entries|c]|]. }
      destruct (writable W (fs s) p) eqn:Hw.
      + destruct (IH {| environ := environ s; fs := <[p := File (Raw data)]> (fs s);
                        trace := trace s |}) as (saved & Hr & Hs).
        cbn [fs environ trace] in *.
        exists (Some p :: saved).
        rewrite (bind_ok _ _ _ _ _ Hb), (bind_ok _ _ _ _ _ Hr).
        split; [reflexivity|]. cbn [fst snd].
        change (omap id (?x :: ?l)) with
          (match id x with Some y => y :: omap id l | None => omap id l end).
        cbn [id]. now rewrite Hs.
      + destruct (IH s) as (saved & Hr & Hs).
        exists (None :: saved).
        rewrite (bind_ok _ _ _ _ _ Hb), (bind_ok _ _ _ _ _ Hr).
        split; [reflexivity|].
        change (omap id (?x :: ?l)) with
          (match id x with Some y => y :: omap id l | None => omap id l end).
        cbn [id]. exact Hs. }
  destruct (H s) as (saved & Hr & Hs).
  rewrite (bind_ok _ _ _ _ _ Hr). unfold ret. now rewrite Hs.
Qed.



(** ** Floating point: the error of one rounding *)

Lemma round_half_even_error (n d : Z) :
  0 < d ->
  - d <= 2 * (float.round_half_even n d * d - n) <= d.
Proof.
  intros Hd. unfold float.round_half_even.
  pose proof (Z.div_mod n d ltac:(lia)) as Hdm.
  pose proof (Z.mod_pos_bound n d Hd) as Hm.
  destruct (Z.compare_spec (2 * (n mod d)) d) as [He|Hl|Hg];
    [destruct (Z.even (n / d))|..]; nia.
Qed.

(** [2^max(0,-(e-j)) * 2^max(0,e) = 2^j * 2^max(0,-e) * 2^max(0,e-j)]: both
    sides scale by [2^j]. *)
Lemma pow2_shift (e j : Z) :
  0 <= j ->
  2 ^ Z.max 0 (- (e - j)) * 2 ^ Z.max 0 e
  = 2 ^ j * 2 ^ Z.max 0 (- e) * 2 ^ Z.max 0 (e - j).
Proof.
  intros Hj. rewrite <- !Z.pow_add_r by lia. f_equal. lia.
Qed.

Lemma pow2_pos (e : Z) : 0 < 2 ^ Z.max 0 e.
Proof. apply Z.pow_pos_nonneg; lia. Qed.

Lemma floor_log2_ratio_spec (n d : Z) :
  0 < n -> 0 < d ->
  let k := float.floor_log2_ratio n d in
  d * 2 ^ Z.max 0 k <= n * 2 ^ Z.max 0 (- k) < 2 * (d * 2 ^ Z.max 0 k).
Proof.
  intros Hn Hd. unfold float.floor_log2_ratio.
  destruct (Z.log2_spec n Hn) as [Hn1 Hn2].
  destruct (Z.log2_spec d Hd) as [Hd1 Hd2].
  pose proof (Z.log2_nonneg n) as Hln. pose proof (Z.log2_nonneg d) as Hld.
  rewrite Z.pow_succ_r in Hn2, Hd2 by assumption.
  set (ln := Z.log2 n) in *. set (ld := Z.log2 d) in *.
  set (k0 := ln - ld).
  assert (Hs : 2 ^ Z.max 0 (- k0) * 2 ^ ln = 2 ^ Z.max 0 k0 * 2 ^ ld).
  { rewrite <- !Z.pow_add_r by lia. f_equal. lia. }
  pose proof (pow2_pos k0) as Hp. pose proof (pow2_pos (- k0)) as Hq.
  assert (Hpn : 0 < 2 ^ ln) by (apply Z.pow_pos_nonneg; lia).
  assert (Hpd : 0 < 2 ^ ld) by (apply Z.pow_pos_nonneg; lia).
  set (a := 2 ^ Z.max 0 (- k0)) in *. set (b := 2 ^ Z.max 0 k0) in *.
  set (pn := 2 ^ ln) in *. set (pd := 2 ^ ld) in *.
  (* n * a < 2 * d * b  and  d * b < 2 * n * a *)
  assert (Hup : n * a < 2 * (d * b)).
  { apply (Z.mul_lt_mono_pos_r pd); [assumption|].
    apply Z.lt_le_trans with (2 * pn * a * pd); [nia|].
    replace (2 * pn * a * pd) with (2 * (a * pn) * pd) by ring.
    rewrite Hs. nia. }
  assert (Hlo : d * b < 2 * (n * a)).
  { apply (Z.mul_lt_mono_pos_r pn); [assumption|].
    apply Z.lt_le_trans with (2 * pd * b * pn); [nia|].
    replace (2 * pd * b * pn) with (2 * (b * pd) * pn) by ring.
    rewrite <- Hs. nia. }
  cbn zeta. destruct (Z.leb_spec (d * b) (n * a)) as [Hle|Hgt].
  - fold k0. fold a b. lia.
  - pose proof (pow2_shift k0 1 ltac:(lia)) as Hsh. fold a b in Hsh.
    pose proof (pow2_pos (k0 - 1)) as Hp'. pose proof (pow2_pos (- (k0 - 1))) as Hq'.
    set (a' := 2 ^ Z.max 0 (- (k0 - 1))) in *. set (b' := 2 ^ Z.max 0 (k0 - 1)) in *.
    change (2 ^ 1) with 2 in Hsh.
    split.
    + apply (Z.mul_le_mono_pos_r _ _ b); [assumption|].
      replace (n * a' * b) with (n * (a' * b)) by ring. rewrite Hsh. nia.
    + apply (Z.mul_lt_mono_pos_r b); [assumption|].
      replace (n * a' * b) with (n * (a' * b)) by ring. rewrite Hsh. nia.
Qed.

(** The shape of a rounded positive number in the normal range: [m * 2^e]
    with [m] within half a unit of [x / 2^e] and [x / 2^e >= 2^52]. *)
Lemma RN_positive_shape (n : Z) (d : positive) :
  0 < n -> Z.pos d <= n * 2 ^ 1022 ->
  exists m e,
    float.RN (n # d)
    = (inject_Z (1 * m * 2 ^ Z.max 0 e) / inject_Z (2 ^ Z.max 0 (- e)))%Q
    /\ - (n * 2 ^ Z.max 0 (- e))
       <= 2 ^ 53 * (m * (Z.pos d * 2 ^ Z.max 0 e) - n * 2 ^ Z.max 0 (- e))
       <= n * 2 ^ Z.max 0 (- e).
Proof.
  intros Hn Hnorm. unfold float.RN. cbn [Qnum Qden].
  destruct (Z.eqb_spec n 0) as [->|_]; [lia|].
  rewrite (Z.abs_eq n), (Z.sgn_pos n) by lia.
  pose proof (floor_log2_ratio_spec n (Z.pos d) Hn ltac:(lia)) as Hk.
  cbn zeta in Hk. set (k := float.floor_log2_ratio n (Z.pos d)) in *.
  assert (Hk1 : -1022 <= k).
  { destruct (Z.le_gt_cases (-1022) k) as [|Hlt]; [assumption|exfalso].
    rewrite (Z.max_l 0 k), (Z.max_r 0 (- k)) in Hk by lia.
    pose proof (Z.pow_le_mono_r 2 1023 (- k) ltac:(lia) ltac:(lia)) as Hp.
    change (2 ^ 1023) with (2 * 2 ^ 1022) in Hp.
    assert (0 < 2 ^ 1022) by (apply Z.pow_pos_nonneg; lia).
    set (c := 2 ^ 1022) in *. set (b := 2 ^ (- k)) in *.
    change (2 ^ 0) with 1 in Hk. nia. }
  rewrite (Z.max_l (k - 52) (-1074)) by lia.
  set (e := k - 52).
  exists (float.round_half_even (n * 2 ^ Z.max 0 (- e)) (Z.pos d * 2 ^ Z.max 0 e)), e.
  split; [reflexivity|].
  pose proof (pow2_pos e) as HP. pose proof (pow2_pos (- e)) as HN.
  pose proof (pow2_pos k) as HPk. pose proof (pow2_pos (- k)) as HNk.
  pose proof (pow2_shift k 52 ltac:(lia)) as Hsh. fold e in Hsh.
  set (P := 2 ^ Z.max 0 e) in *. set (N := 2 ^ Z.max 0 (- e)) in *.
  set (Pk := 2 ^ Z.max 0 k) in *. set (Nk := 2 ^ Z.max 0 (- k)) in *.
  assert (HD : 0 < Z.pos d * P) by nia.
  pose proof (round_half_even_error (n * N) (Z.pos d * P) HD) as Hr.
  set (m := float.round_half_even (n * N) (Z.pos d * P)) in *.
  (* normalisation: 2^52 * D <= A *)
  assert (Hnormal : 2 ^ 52 * (Z.pos d * P) <= n * N).
  { apply (Z.mul_le_mono_pos_r _ _ Pk); [assumption|].
    replace (n * N * Pk) with (n * (N * Pk)) by ring. rewrite Hsh.
    set (c := 2 ^ 52) in *. assert (0 < c) by (subst c; lia). nia. }
  change (2 ^ 53) with (2 * 2 ^ 52).
  set (c := 2 ^ 52) in *. assert (0 < c) by (subst c; lia).
  set (D := Z.pos d * P) in *. set (A := n * N) in *.
  nia.
Qed.

(** One rounding moves a positive number of the normal range by at most
    the fraction [2^-53] of itself. *)
Lemma RN_relative_error (x : Q) :
  (0 < x)%Q -> (1 # (2 ^ 1022)%positive <= x)%Q ->
  (x * (1 - float_unit) <= float.RN x <= x * (1 + float_unit))%Q.
Proof.
  destruct x as [n d]. intros Hpos Hnorm.
  assert (Hn : 0 < n) by (unfold Qlt in Hpos; cbn in Hpos; lia).
  assert (Hd : Z.pos d <= n * 2 ^ 1022).
  { unfold Qle in Hnorm. cbn [Qnum Qden] in Hnorm.
    change (Z.pos (2 ^ 1022)%positive) with (2 ^ 1022) in Hnorm. lia. }
  destruct (RN_positive_shape n d Hn Hd) as (m & e & -> & Hlo & Hhi).
  pose proof (pow2_pos e) as HP. pose proof (pow2_pos (- e)) as HN.
  set (P := 2 ^ Z.max 0 e) in *. set (N := 2 ^ Z.max 0 (- e)) in *.
  assert (HNq : (0 < inject_Z N)%Q) by (rewrite <- (Zlt_Qlt 0); exact HN).
  assert (Hdq : (0 < inject_Z (Z.pos d))%Q) by (rewrite <- (Zlt_Qlt 0); lia).
  assert (Hx : (n # d == inject_Z n / inject_Z (Z.pos d))%Q) by apply Qmake_Qdiv.
  set (r := (inject_Z (1 * m * P) / inject_Z N)%Q).
  assert (Hr : (r * inject_Z N == inject_Z (m * P))%Q).
  { subst r. rewrite Z.mul_1_l. field. lra. }
  assert (Hxd : ((n # d) * inject_Z (Z.pos d) == inject_Z n)%Q).
  { rewrite Hx. field. lra. }
  change (2 ^ 53) with 9007199254740992 in Hlo, Hhi.
  assert (Hlo' : (- (inject_Z n * inject_Z N)
                 <= 9007199254740992 * (inject_Z (m * P) * inject_Z (Z.pos d)
                                        - inject_Z n * inject_Z N))%Q).
  { change 9007199254740992%Q with (inject_Z 9007199254740992).
    unfold Qminus.
    rewrite <- !inject_Z_mult, <- !inject_Z_opp, <- inject_Z_plus, <- inject_Z_mult.
    rewrite <- Zle_Qle. lia. }
  assert (Hhi' : (9007199254740992 * (inject_Z (m * P) * inject_Z (Z.pos d)
                                      - inject_Z n * inject_Z N)
                 <= inject_Z n * inject_Z N)%Q).
  { change 9007199254740992%Q with (inject_Z 9007199254740992).
    unfold Qminus.
    rewrite <- !inject_Z_mult, <- !inject_Z_opp, <- inject_Z_plus, <- inject_Z_mult.
    rewrite <- Zle_Qle. lia. }
  rewrite <- Hr, <- Hxd in Hlo', Hhi'.
  set (x := n # d) in *. set (Nq := inject_Z N) in *. set (dq := inject_Z (Z.pos d)) in *.
  clearbody x Nq dq r. unfold float_unit.
  assert (Hprod : (0 < Nq * dq)%Q) by nra.
  split.
  - apply (Qmult_le_r _ _ (Nq * dq) Hprod). nra.
  - apply (Qmult_le_r _ _ (Nq * dq) Hprod). nra.
Qed.

(** An integer below [2^53] is a double. *)
Lemma of_int_exact (z : Z) :
  0 < z < 2 ^ 53 -> (float.of_int z == inject_Z z)%Q.
Proof.
  intros Hz. unfold float.of_int, float.RN, inject_Z. cbn [Qnum Qden].
  destruct (Z.eqb_spec z 0) as [->|_]; [lia|].
  rewrite (Z.abs_eq z), (Z.sgn_pos z) by lia.
  pose proof (floor_log2_ratio_spec z 1 ltac:(lia) ltac:(lia)) as Hk.
  cbn zeta in Hk. set (k := float.floor_log2_ratio z 1) in *.
  assert (Hk0 : 0 <= k).
  { destruct (Z.le_gt_cases 0 k) as [|Hlt]; [assumption|exfalso].
    rewrite (Z.max_l 0 k), (Z.max_r 0 (- k)) in Hk by lia.
    pose proof (Z.pow_le_mono_r 2 1 (- k) ltac:(lia) ltac:(lia)) as Hp.
    change (2 ^ 1) with 2 in Hp. change (2 ^ 0) with 1 in Hk. nia. }
  assert (Hk52 : k <= 52).
  { destruct (Z.le_gt_cases k 52) as [|Hgt]; [assumption|exfalso].
    rewrite (Z.max_r 0 k), (Z.max_l 0 (- k)) in Hk by lia.
    pose proof (Z.pow_le_mono_r 2 53 k ltac:(lia) ltac:(lia)) as Hp.
    change (2 ^ 0) with 1 in Hk. lia. }
  rewrite (Z.max_l (k - 52) (-1074)) by lia.
  rewrite (Z.max_l 0 (k - 52)) by lia.
  rewrite (Z.max_r 0 (- (k - 52))) by lia.
  change (2 ^ 0) with 1.
  assert (HN : 0 < 2 ^ (- (k - 52))) by (apply Z.pow_pos_nonneg; lia).
  set (N := 2 ^ (- (k - 52))) in *.
  assert (Hm : float.round_half_even (z * N) (1 * 1) = z * N).
  { unfold float.round_half_even. change (1 * 1) with 1.
    rewrite Z.mod_1_r, Z.div_1_r. reflexivity. }
  rewrite Hm.
  replace (1 * (z * N) * 1) with (z * N) by ring.
  change (z # 1) with (inject_Z z). change (z * N # 1) with (inject_Z (z * N)).
  change (N # 1) with (inject_Z N).
  assert (HNq : (0 < inject_Z N)%Q) by (rewrite <- (Zlt_Qlt 0); exact HN).
  rewrite inject_Z_mult. field. lra.
Qed.

(** [int] of a non-negative float is its floor. *)
Lemma to_int_floor (x : Q) :
  (0 <= x)%Q ->
  (inject_Z (float.to_int x) <= x)%Q /\ (x < inject_Z (float.to_int x) + 1)%Q.
Proof.
  intros Hx.
  assert (Hf : float.to_int x = Qfloor x).
  { unfold float.to_int, Qfloor. destruct x as [n d]. cbn [Qnum Qden].
    apply Z.quot_div_nonneg; [|lia].
    unfold Qle in Hx. cbn in Hx. lia. }
  rewrite Hf. split; [apply Qfloor_le|].
  pose proof (Qlt_floor x) as H. rewrite inject_Z_plus in H. exact H.
Qed.

(** The height [compress_image] computes for a picture wider than 1024 is
    the exact scaled height [1024 * h / w] or falls short of it by at most
    one pixel. *)
Lemma height_size_within_one_pixel (w h : Z) :
  1024 < w < 2 ^ 31 -> 0 < h < 2 ^ 31 ->
  let H := height_size 1024 {| width := w; height := h |} in
  1024 * h - w <= H * w <= 1024 * h.
Proof.
  intros Hw Hh. unfold height_size, float.div, float.mul. cbn [width height].
  pose proof (of_int_exact 1024 ltac:(lia)) as Ea.
  pose proof (of_int_exact w ltac:(lia)) as Ew.
  pose proof (of_int_exact h ltac:(lia)) as Eh.
  assert (HW : (1024 < inject_Z w)%Q) by (change 1024%Q with (inject_Z 1024); rewrite <- Zlt_Qlt; lia).
  assert (HW2 : (inject_Z w < 2147483648)%Q)
    by (change 2147483648%Q with (inject_Z (2 ^ 31)); rewrite <- Zlt_Qlt; lia).
  assert (HH : (1 <= inject_Z h)%Q) by (change 1%Q with (inject_Z 1); rewrite <- Zle_Qle; lia).
  assert (HH2 : (inject_Z h < 2147483648)%Q)
    by (change 2147483648%Q with (inject_Z (2 ^ 31)); rewrite <- Zlt_Qlt; lia).
  set (x := (float.of_int 1024 / float.of_int w)%Q).
  assert (Hx : (x * inject_Z w == 1024)%Q).
  { subst x. rewrite Ea, Ew. change (inject_Z 1024) with 1024%Q. field. lra. }
  assert (Hxpos : (0 < x)%Q) by nra.
  assert (Hxlow : (1 # (2 ^ 1022)%positive <= x)%Q).
  { apply Qle_trans with (1 # 2147483648)%Q; [unfold Qle; cbn; lia|].
    apply (Qmult_le_r _ _ (inject_Z w)); [lra|]. rewrite Hx. nra. }
  pose proof (RN_relative_error x Hxpos Hxlow) as [Hq1 Hq2].
  set (q := float.RN x) in *.
  set (y := (float.of_int h * q)%Q).
  assert (Hy : (y == inject_Z h * q)%Q) by (subst y; now rewrite Eh).
  unfold float_unit in *.
  assert (Hqpos : (0 < q)%Q) by nra.
  assert (Hqw1 : (q * inject_Z w <= 1024 * (1 + (1 # 9007199254740992)))%Q) by nra.
  assert (Hqw2 : (1024 * (1 - (1 # 9007199254740992)) <= q * inject_Z w)%Q) by nra.
  assert (Hypos : (0 < y)%Q) by (rewrite Hy; nra).
  assert (Hylow : (1 # (2 ^ 1022)%positive <= y)%Q).
  { apply Qle_trans with (1 # 4294967296)%Q; [unfold Qle; cbn; lia|].
    rewrite Hy. apply (Qmult_le_r _ _ (inject_Z w)); [lra|]. nra. }
  pose proof (RN_relative_error y Hypos Hylow) as [Hp1 Hp2].
  unfold float_unit in *.
  set (p := float.RN y) in *.
  assert (Hppos : (0 <= p)%Q) by nra.
  destruct (to_int_floor p Hppos) as [Hf1 Hf2].
  set (H := float.to_int p) in *.
  rewrite Hy in Hp1, Hp2.
  assert (Hpw1 : (p * inject_Z w
                  <= inject_Z h * (1024 * (1 + (1 # 9007199254740992)))
                     * (1 + (1 # 9007199254740992)))%Q).
  { apply Qle_trans with (inject_Z h * q * (1 + (1 # 9007199254740992)) * inject_Z w)%Q; nra. }
  assert (Hpw2 : (inject_Z h * (1024 * (1 - (1 # 9007199254740992)))
                  * (1 - (1 # 9007199254740992))
                  <= p * inject_Z w)%Q).
  { apply Qle_trans with (inject_Z h * q * (1 - (1 # 9007199254740992)) * inject_Z w)%Q; nra. }
  assert (Hup : (inject_Z (H * w) < inject_Z (1024 * h + 1))%Q).
  { rewrite inject_Z_mult, inject_Z_plus, inject_Z_mult.
    change (inject_Z 1024) with 1024%Q. change (inject_Z 1) with 1%Q. nra. }
  assert (Hdown : (inject_Z (1024 * h - w - 1) < inject_Z (H * w))%Q).
  { unfold Z.sub. rewrite !inject_Z_plus, !inject_Z_mult, !inject_Z_opp.
    change (inject_Z 1024) with 1024%Q. change (inject_Z 1) with 1%Q. nra. }
  rewrite <- Zlt_Qlt in Hup, Hdown. cbn zeta. lia.
Qed.

(** ** The floating-point model against the Standard Library *)

(** On these inputs the rounding of this development and the binary64
    operations the Standard Library specifies give the same doubles. *)
Example rounding_agrees_with_SpecFloat :
  (sf_to_Q (SFdiv 53 1024 (sf_of_int 1024) (sf_of_int 1122))
   == float.div (float.of_int 1024) (float.of_int 1122))%Q
  /\ (sf_to_Q (SFmul 53 1024 (sf_of_int 1122)
                 (SFdiv 53 1024 (sf_of_int 1024) (sf_of_int 1122)))
      == float.mul (float.of_int 1122)
           (float.div (float.of_int 1024) (float.of_int 1122)))%Q
  /\ (sf_to_Q (SFdiv 53 1024 (sf_of_int 1) (sf_of_int 3))
      == float.div (float.of_int 1) (float.of_int 3))%Q.
Proof. repeat split; vm_compute; reflexivity. Qed.

(** A square picture 1122 pixels wide comes out 1024 x 1023: the product
    [1122 * (1024 / 1122)] rounds to just below 1024.  For a picture of
    50176 x 49 the product rounds to just below 1 and the height is 0. *)
Example height_size_examples :
  height_size MAX_IMAGE_WIDTH {| width := 1122; height := 1122 |} = 1023
  /\ height_size MAX_IMAGE_WIDTH {| width := 2048; height := 1000 |} = 500
  /\ height_size MAX_IMAGE_WIDTH {| width := 50176; height := 49 |} = 0.
Proof. repeat split; vm_compute; reflexivity. Qed.

(** ** Library models on sample inputs *)

Example b64encode_examples :
  base64.b64encode "Man" = "TWFu" /\ base64.b64encode "Ma" = "TWE="
  /\ base64.b64encode "M" = "TQ==" /\ base64.b64encode "" = ""
  /\ base64.b64encode "light work." = "bGlnaHQgd29yay4=".
Proof. repeat split. Qed.

Example string_examples :
  str.strip "  a b  " = "a b" /\ str.strip "   " = ""
  /\ str.lower "A.JpG" = "a.jpg" /\ str.join ", " ["a"; "b"] = "a, b"
  /\ os_path.basename "d/e/a.jpg" = "a.jpg" /\ os_path.basename "d/" = ""
  /\ os_path.join "d" "a" = "d/a" /\ os_path.join "d/" "a" = "d/a"
  /\ os_path.join "d" "/a" = "/a".
Proof. repeat split. Qed.

(** * The claims *)

(** ** C1: the export *)

(** A local run of [main] that produces no record leaves every file as it
    was: no CSV file is created. *)
Lemma main_without_records_creates_nothing (W : World) (s s' : state) :
  in_colab W = false ->
  main W s = (Ok [], s') -> fs s' = fs s.
Proof.
  intros Hcolab.
  destruct (setup_google_credentials_run W s) as (ok & s0 & Hs & Hf & _).
  specialize (Hf (or_introl Hcolab)).
  unfold main. rewrite (bind_ok _ _ _ _ _ Hs).
  destruct ok; cbn [negb]; [|now intros [= <-]].
  rewrite (bind_ok _ _ _ _ _ (os_environ_get_run _ s0)).
  unfold is_running_in_colab. rewrite Hcolab.
  rewrite (bind_ok _ _ _ _ _ (local_image_paths_cases W _)).
  destruct (match fs _ !! _ with Some _ => _ | None => _ end) as [paths|];
    [|now intros [= <-]].
  destruct (is_empty paths) eqn:He; [now intros [= <-]|].
  intros H.
  destruct (process_and_export_run W paths [] (after_events (after_events s0
              [EvGetenv "ASTICA_API_KEY"]) [EvInput])) as (recs & s1 & s2 & Hr & Hm).
  rewrite Hm in H. injection H as -> ->.
  destruct (for_each_process W paths (after_events (after_events s0
              [EvGetenv "ASTICA_API_KEY"]) [EvInput])) as (recs' & s1' & Hr' & _ & Hall).
  rewrite Hr in Hr'. injection Hr' as <- <-.
  inversion Hall; subst. discriminate He.
Qed.

(** C1 (the code departs from it). A run over a directory with one picture
    produces one record, and the exported file then holds the header row
    and nothing else: the record's keys are [filename], [description] and
    [tags], the writer's field names are [Filename], [Description] and
    [Tags], so [writerows] raises on the first record and the handler for
    [Exception] ends the export. *)
Theorem main_csv_holds_header_only :
  exists s',
    main sample_world sample_state =
      (Ok [image_record "a.JPG" "A cat." "cat, pet"], s')
    /\ fs s' !! OUTPUT_CSV_FILENAME = Some (File (CsvText [csv_header])).
Proof. eexists. split; vm_compute; reflexivity. Qed.

(** ** C2: the description client *)

(** C2 (as stated, false). The endpoint answers 200 with the JSON array
    [[]]: there is no caption to parse, and the client returns the
    "unexpected error" sentinel, which is none of the listed outcomes. *)
Lemma description_array_body_counterexample :
  exists r s',
    get_description_from_astica array_world "aGk=" sample_state = (Ok r, s')
    /\ r = sentinel_unexpected
    /\ ~ listed_description_outcome array_world sample_state "aGk=" r.
Proof.
  eexists _, _. split; [vm_compute; reflexivity|]. split; [reflexivity|].
  intros [H|[H|[[msg H]|[H|[H|[H|H]]]]]]; discriminate H.
Qed.

Lemma handler_sentinel_listed (e : exn) :
  handler_sentinel e = sentinel_http \/ handler_sentinel e = sentinel_connection
  \/ handler_sentinel e = sentinel_json \/ handler_sentinel e = sentinel_unexpected.
Proof. destruct e; cbn; auto. Qed.

Lemma description_sentinel_facts (W : World) :
  (handler_sentinel HTTPError = sentinel_http
   /\ handler_sentinel ConnectionError = sentinel_connection
   /\ handler_sentinel Timeout = sentinel_connection
   /\ handler_sentinel JSONDecodeError = sentinel_json
   /\ handler_sentinel AttributeError = sentinel_unexpected)
  /\ (forall items,
        items_get "status" items <> Some (JStr "error") ->
        items_get "error" items = None ->
        items_get "caption" items = None ->
        description_of_json W (JObj items) = sentinel_no_description)
  /\ (forall items msg,
        items_get "error" items = Some (JStr msg) ->
        description_of_json W (JObj items) = service_error_prefix +:+ msg)
  /\ NoDup [sentinel_no_key; sentinel_http; sentinel_connection; sentinel_json;
            sentinel_no_description; sentinel_unexpected; sentinel_skipped].
Proof.
  split; [repeat split|]. split; [|split].
  - intros items Hs He Hc. unfold description_of_json, json_has. rewrite He, Hc.
    destruct (items_get "status" items) as [[| | |t| |]|]; try reflexivity.
    cbn [json_eq_str]. destruct (String.eqb_spec t "error") as [->|Hne];
      [now destruct Hs | reflexivity].
  - intros items msg He. unfold description_of_json, json_has. rewrite He.
    now rewrite orb_true_r.
  - apply (bool_decide_unpack _). vm_compute. exact I.
Qed.

(** C2 (amended). [get_description_from_astica] never raises.  Its result
    is the caption the endpoint sent, stripped, or one of the listed
    sentinels, or the "unexpected error" sentinel (a body that is not an
    object, a caption that is not a string, any other exception).  The key
    missing or empty gives the missing-key sentinel; a status from 400 to
    599 the HTTP sentinel; an exception the sentinel of the first handler
    whose class it belongs to, so [ConnectionError] and [Timeout] give the
    connection sentinel and the [ValueError] of a body that does not decode
    the JSON sentinel; an object with [status == "error"] or an [error] key
    the service-error text; an object with neither and no caption the "no
    description" sentinel.  The sentinels are pairwise distinct. *)
Theorem get_description_from_astica_outcomes (W : World) (b64 : string) (s : state) :
  exists r s',
    get_description_from_astica W b64 s = (Ok r, s')
    /\ (listed_description_outcome W s b64 r \/ r = sentinel_unexpected)
    /\ (api_key (environ s) = None -> r = sentinel_no_key)
    /\ (forall k, api_key (environ s) = Some k ->
          (forall e, astica_post W k b64 = Raise e -> r = handler_sentinel e)
          /\ (forall resp, astica_post W k b64 = Ok resp ->
                (400 <= status_code resp < 600 -> r = sentinel_http)
                /\ (~ 400 <= status_code resp < 600 ->
                    (forall e, json_body resp = Raise e -> r = handler_sentinel e)
                    /\ (forall j, json_body resp = Ok j ->
                          r = description_of_json W j))))
    /\ (handler_sentinel HTTPError = sentinel_http
        /\ handler_sentinel ConnectionError = sentinel_connection
        /\ handler_sentinel Timeout = sentinel_connection
        /\ handler_sentinel JSONDecodeError = sentinel_json
        /\ handler_sentinel AttributeError = sentinel_unexpected)
    /\ (forall items,
          items_get "status" items <> Some (JStr "error") ->
          items_get "error" items = None ->
          items_get "caption" items = None ->
          description_of_json W (JObj items) = sentinel_no_description)
    /\ (forall items msg,
          items_get "error" items = Some (JStr msg) ->
          description_of_json W (JObj items) = service_error_prefix +:+ msg)
    /\ NoDup [sentinel_no_key; sentinel_http; sentinel_connection; sentinel_json;
              sentinel_no_description; sentinel_unexpected; sentinel_skipped].
Proof.
  rewrite get_description_from_astica_cases.
  unfold listed_description_outcome, parsed_caption.
  destruct (api_key (environ s)) as [k|]; eexists _, _; (split; [reflexivity|]).
  2:{ split; [auto|]. split; [reflexivity|]. split; [discriminate|].
      apply description_sentinel_facts. }
  split; [|split; [discriminate|split; [|apply description_sentinel_facts]]].
  - destruct (astica_post W k b64) as [resp|e].
    2:{ destruct (handler_sentinel_listed e) as [H|[H|[H|H]]]; rewrite H; auto 10. }
    destruct (_ && _); [auto 10|].
    destruct (json_body resp) as [j|e].
    2:{ destruct (handler_sentinel_listed e) as [H|[H|[H|H]]]; rewrite H; auto 10. }
    destruct j as [| | | |items|items]; cbn [description_of_json]; auto 10.
    destruct (_ || _); [left; right; right; left; eauto|].
    destruct (items_get "caption" items) as [[| | |c| |]|]; auto 10.
    destruct (str.truthy (str.strip c)); auto 10.
  - intros k' [= <-]. split.
    + now intros e ->.
    + intros resp ->. split.
      * intros Hst. replace (_ && _) with true; [reflexivity|]. lia.
      * intros Hst. replace (_ && _) with false by lia.
        split; [now intros e -> | now intros j ->].
Qed.

(** Without the key, the missing-key sentinel. *)
Lemma get_description_from_astica_outcomes_witness :
  fst (get_description_from_astica sample_world "aGk=" keyless_state)
  = Ok sentinel_no_key.
Proof.
  destruct (get_description_from_astica_outcomes sample_world "aGk=" keyless_state)
    as (r & s' & Hrun & _ & Hkey & _).
  rewrite Hrun. cbn [fst]. f_equal. apply Hkey. vm_compute. reflexivity.
Defined.

(** With [requests] 2.27 or later a body that does not decode raises an
    exception that is also a [RequestException]: the handler before the one
    for [ValueError] takes it. *)
Remark requests_decoding_error_sentinel :
  handler_sentinel RequestsJSONDecodeError = sentinel_connection.
Proof. reflexivity. Qed.

(** ** C3: the tag client *)

(** C3 (as stated, false). One label whose description is empty: the join
    of the descriptions is the empty string, and the client returns the "no
    tags" sentinel in its place. *)
Lemma tags_single_empty_label_counterexample :
  label_detection array_world "x" =
    Ok {| error_message := ""; label_annotations := [{| description := "" |}] |}
  /\ fst (get_image_tags_from_google array_world "pics/a.JPG" sample_state)
     = Ok sentinel_no_tags
  /\ str.join ", " (map description [{| description := "" |}]) <> sentinel_no_tags.
Proof. split; [reflexivity|]. split; [vm_compute; reflexivity | discriminate]. Qed.

(** C3 (amended). [get_image_tags_from_google] never raises.  When the
    service answers without an error message, the result is the
    descriptions joined by [", "] in response order if that string is not
    empty, and the "no tags" sentinel if it is, which covers an answer with
    no label.  When the client cannot be built, the file cannot be read,
    the call fails or the answer carries an error message, the result is the
    failure sentinel. *)
Theorem get_image_tags_from_google_contract (W : World) (path : string) (s : state) :
  exists r s',
    get_image_tags_from_google W path s = (Ok r, s')
    /\ (forall c response,
          vision_client W = Ok tt ->
          fs s !! path = Some (File c) ->
          label_detection W (file_bytes W c) = Ok response ->
          error_message response = "" ->
          let joined := str.join ", " (map description (label_annotations response)) in
          (joined <> "" -> r = joined)
          /\ (joined = "" -> r = sentinel_no_tags)
          /\ (label_annotations response = [] -> r = sentinel_no_tags))
    /\ (forall e, vision_client W = Raise e -> r = sentinel_tags_failed)
    /\ ((forall c, fs s !! path <> Some (File c)) -> r = sentinel_tags_failed)
    /\ (forall c e,
          fs s !! path = Some (File c) ->
          label_detection W (file_bytes W c) = Raise e -> r = sentinel_tags_failed)
    /\ (forall c response,
          fs s !! path = Some (File c) ->
          label_detection W (file_bytes W c) = Ok response ->
          error_message response <> "" -> r = sentinel_tags_failed).
Proof.
  rewrite get_image_tags_from_google_cases.
  destruct (vision_client W) as [[]|e0] eqn:Hc.
  2:{ eexists _, _. split; [reflexivity|]. repeat split; try easy. }
  destruct (fs s !! path) as [[entries|c]|] eqn:Hf.
  1,3: (eexists _, _; split; [reflexivity|]; repeat split; easy).
  eexists _, _. split; [reflexivity|].
  destruct (label_detection W (file_bytes W c)) as [resp|e] eqn:Hl.
  2:{ repeat split; try easy; intros; congruence. }
  destruct (str.truthy (error_message resp)) eqn:He.
  { apply truthy_true in He. repeat split; try easy; intros; congruence. }
  apply truthy_false in He. cbn zeta.
  split; [|split; [easy|split; [intros H; now destruct (H c)|split; [intros; congruence|]]]].
  - intros c' resp' _ [= <-] Hr _. rewrite Hl in Hr. injection Hr as <-.
    repeat split.
    + intros Hj. apply truthy_true in Hj. now rewrite Hj.
    + intros Hj. now rewrite Hj.
    + intros ->. reflexivity.
  - intros c' resp' [= <-] Hr Hm. rewrite Hl in Hr. injection Hr as <-. contradiction.
Qed.

(** Two labels, joined in response order. *)
Lemma get_image_tags_from_google_contract_witness :
  fst (get_image_tags_from_google sample_world "pics/a.JPG" sample_state)
  = Ok "cat, pet".
Proof.
  destruct (get_image_tags_from_google_contract sample_world "pics/a.JPG" sample_state)
    as (r & s' & Hrun & Hok & _).
  rewrite Hrun. cbn [fst]. f_equal.
  destruct (Hok (Raw "IMG")
              {| error_message := "";
                 label_annotations := [{| description := "cat" |};
                                       {| description := "pet" |}] |})
    as (Hj & _); try (vm_compute; reflexivity).
  apply Hj. vm_compute. discriminate.
Defined.

(** ** C4: the normaliser *)

(** An image not wider than the maximum, where the save succeeds, keeps
    its size and is saved again at the configured quality. *)
Lemma compress_image_narrow (W : World) (path : string) (s : state) (img : image) :
  image_at W s path = Some img ->
  width img <= MAX_IMAGE_WIDTH ->
  pil_save W img path = Saved ->
  fs (snd (compress_image W path s)) !! path
  = Some (File (Encoded img COMPRESSION_QUALITY)).
Proof.
  intros Himg Hw Hsave. rewrite compress_image_cases. cbn [snd fs].
  rewrite Himg, (normalized_narrow img Hw). unfold after_save. rewrite Hsave.
  apply lookup_insert_eq.
Qed.

(** An image wider than the maximum, of a size Pillow can hold: the height
    computed is the exact scaled height or at most one pixel less; when it
    is at least one pixel, which it is as soon as the exact scaled height is
    at least two, and the save succeeds, the file is saved [MAX_IMAGE_WIDTH]
    wide and that high. *)
Lemma compress_image_wide (W : World) (path : string) (s : state) (img : image) :
  image_at W s path = Some img ->
  MAX_IMAGE_WIDTH < width img < 2 ^ 31 ->
  0 < height img < 2 ^ 31 ->
  let h := height_size MAX_IMAGE_WIDTH img in
  MAX_IMAGE_WIDTH * height img - width img <= h * width img
    <= MAX_IMAGE_WIDTH * height img
  /\ (2 * width img <= MAX_IMAGE_WIDTH * height img -> 1 <= h)
  /\ (1 <= h ->
      pil_save W {| width := MAX_IMAGE_WIDTH; height := h |} path = Saved ->
      fs (snd (compress_image W path s)) !! path
      = Some (File (Encoded {| width := MAX_IMAGE_WIDTH; height := h |}
                      COMPRESSION_QUALITY))).
Proof.
  intros Himg Hw Hh. cbn zeta.
  pose proof (height_size_within_one_pixel (width img) (height img) Hw Hh) as Hb.
  cbn zeta in Hb. destruct img as [w h]. cbn [width height] in *.
  unfold MAX_IMAGE_WIDTH in *.
  set (H := height_size 1024 {| width := w; height := h |}) in *.
  split; [exact Hb|]. split; [nia|].
  intros H1 Hsave. rewrite compress_image_cases. cbn [snd fs]. rewrite Himg.
  unfold normalized. cbn [width]. unfold MAX_IMAGE_WIDTH. fold H.
  replace (w >? 1024) with true by lia. replace (H <? 1) with false by lia.
  unfold after_save. rewrite Hsave. apply lookup_insert_eq.
Qed.

(** C4 (the code departs from it). A readable picture 4096 pixels wide and
    3 high is wider than [MAX_IMAGE_WIDTH], yet [compress_image] leaves it
    as it is: the height it computes is [int(3 * (1024 / 4096)) = 0], the
    resize to 1024 x 0 is refused, and the handler for [Exception] ends the
    call before anything is saved. *)
Theorem compress_image_flat_image_untouched :
  image_at sample_world flat_state "wide.png" = Some {| width := 4096; height := 3 |}
  /\ height_size MAX_IMAGE_WIDTH {| width := 4096; height := 3 |} = 0
  /\ exists s',
       compress_image sample_world "wide.png" flat_state = (Ok tt, s')
       /\ fs s' = fs flat_state
       /\ image_at sample_world s' "wide.png" = Some {| width := 4096; height := 3 |}.
Proof.
  split; [vm_compute; reflexivity|]. split; [vm_compute; reflexivity|].
  eexists. split; [rewrite compress_image_cases; reflexivity|].
  split; vm_compute; reflexivity.
Qed.

(** ** C5: selection by extension *)

Lemma main_local_directory_filenames (W : World) (s : state) (names : list string) :
  in_colab W = false ->
  credentials_found s = true ->
  fs s !! str.strip (stdin_line W) = Some (Dir names) ->
  Forall (fun n => str.contains_char "/" n = false) names ->
  exists recs s',
    main W s = (Ok recs, s')
    /\ map (dict_get "filename") recs
       = map Some (List.filter has_image_extension names).
Proof.
  intros Hcolab Hcred Hdir Hns.
  destruct (main_local_directory W s names Hcolab Hcred Hdir)
    as (recs & s1 & s' & Hr & Hm).
  exists recs, s'. split; [assumption|].
  match type of Hr with for_each ?p _ ?st = _ =>
    destruct (for_each_process W p st) as (recs' & s1' & Hr' & _ & Hall) end.
  rewrite Hr' in Hr. injection Hr as <- <-.
  erewrite Forall2_filenames by exact Hall.
  apply map_basename_join.
  apply List.Forall_forall. intros n [Hn _]%filter_In.
  rewrite List.Forall_forall in Hns. now apply Hns.
Qed.

(** C5. In local mode, with a directory given, [main] returns one record
    per entry whose lower-cased name ends with an accepted extension, in
    listing order and under the entry's name; no other entry gets one.  In
    particular a directory holding one [.jpg] and one [.txt] yields exactly
    one record, that of the [.jpg]. *)
Theorem local_directory_selects_by_extension (W : World) (s : state)
    (src : string) (names : list string) :
  in_colab W = false ->
  credentials_found s = true ->
  str.strip (stdin_line W) = src ->
  fs s !! src = Some (Dir names) ->
  Forall (fun n => str.contains_char "/" n = false) names ->
  exists recs s',
    main W s = (Ok recs, s')
    /\ map (dict_get "filename") recs
       = map Some (List.filter has_image_extension names)
    /\ (forall n, has_image_extension n = true <->
          exists stem ext, In ext image_extensions /\ str.lower n = stem +:+ ext)
    /\ (forall jpg txt,
          names = [jpg; txt] \/ names = [txt; jpg] ->
          str.endswith (str.lower jpg) ".jpg" = true ->
          str.endswith (str.lower txt) ".txt" = true ->
          exists r, recs = [r] /\ dict_get "filename" r = Some jpg).
Proof.
  intros Hcolab Hcred <- Hdir Hns.
  destruct (main_local_directory_filenames W s names Hcolab Hcred Hdir Hns)
    as (recs & s' & Hm & Hf).
  exists recs, s'. split; [assumption|]. split; [assumption|].
  split; [apply has_image_extension_spec|].
  intros jpg txt Hnames Hj Ht.
  apply jpg_is_image in Hj. apply txt_not_image in Ht.
  assert (Hsel : List.filter has_image_extension names = [jpg]).
  { destruct Hnames as [-> | ->]; cbn [List.filter]; now rewrite Hj, Ht. }
  rewrite Hsel in Hf. destruct recs as [|r [|r' recs]]; try discriminate.
  exists r. split; [reflexivity|]. now injection Hf.
Qed.

(** The sample directory holds [a.JPG] and [notes.txt]: one record, that of
    [a.JPG]. *)
Lemma local_directory_selects_by_extension_witness :
  exists r s',
    main sample_world sample_state = (Ok [r], s')
    /\ dict_get "filename" r = Some "a.JPG".
Proof.
  destruct (local_directory_selects_by_extension sample_world sample_state "pics"
              ["a.JPG"; "notes.txt"])
    as (recs & s' & Hm & _ & _ & Hone).
  - reflexivity.
  - vm_compute. reflexivity.
  - vm_compute. reflexivity.
  - vm_compute. reflexivity.
  - repeat constructor.
  - destruct (Hone "a.JPG" "notes.txt") as (r & Hrecs & Hr).
    + left. reflexivity.
    + vm_compute. reflexivity.
    + vm_compute. reflexivity.
    + exists r, s'. split; [|exact Hr]. rewrite <- Hrecs. exact Hm.
Defined.

(** ** C6: credentials *)




(** ** C7: idempotence *)




(** ** C8: base64 failure *)



(** ** C9: non-empty fields *)

(** C9 (as stated, false). Two labels, both with an empty description:
    the join of the descriptions is the separator, which is not empty, and
    the client returns it.  All the descriptions are empty and no sentinel
    takes their place. *)
Lemma tags_two_empty_labels_counterexample :
  label_detection blank_labels_world "JPEG" =
    Ok {| error_message := "";
          label_annotations := [{| description := "" |}; {| description := "" |}] |}
  /\ fst (get_image_tags_from_google blank_labels_world "pics/a.JPG" sample_state)
     = Ok ", "
  /\ ", " <> sentinel_no_tags /\ ", " <> sentinel_tags_failed.
Proof.
  split; [reflexivity|]. split; [vm_compute; reflexivity|].
  split; discriminate.
Qed.

(** Descriptions that are all empty join to the empty string when there is
    at most one of them, and to a string of separators otherwise. *)
Lemma join_empty_descriptions (labels : list label) :
  Forall (fun l => description l = "") labels ->
  str.join ", " (map description labels) = "" <-> (length labels <= 1)%nat.
Proof.
  intros Hall. destruct Hall as [|l1 rest H1 Hrest]; [cbn; split; [lia|reflexivity]|].
  destruct Hrest as [|l2 rest' H2 _].
  - cbn. rewrite H1. split; [lia|reflexivity].
  - cbn [map length]. rewrite H1, H2. unfold str.join. cbn [String.concat].
    split; [discriminate | lia].
Qed.

(** C9 (amended). Every record [process_image_metadata] returns has a
    non-empty description and non-empty tags; the call never raises.  The
    tag client returns a non-empty string: the "no tags" sentinel when the
    joined descriptions are the empty string, which is so for no label and
    for one label with an empty description, the joined string otherwise,
    which for two labels or more with empty descriptions is a string of
    separators and no sentinel, and the failure sentinel on every error
    path.  The description client returns a non-empty string: the "no
    description" sentinel for a caption that is missing or white space
    only, and a sentinel on every error path. *)
Theorem records_have_nonempty_fields (W : World) (path : string) (s : state) :
  (exists d t s',
     process_image_metadata W path s =
       (Ok (image_record (os_path.basename path) d t), s')
     /\ dict_get "description" (image_record (os_path.basename path) d t) = Some d
     /\ dict_get "tags" (image_record (os_path.basename path) d t) = Some t
     /\ d <> "" /\ t <> "")
  /\ (exists t s',
        get_image_tags_from_google W path s = (Ok t, s') /\ t <> ""
        /\ (forall c response,
              vision_client W = Ok tt ->
              fs s !! path = Some (File c) ->
              label_detection W (file_bytes W c) = Ok response ->
              error_message response = "" ->
              let joined :=
                str.join ", " (map description (label_annotations response)) in
              (joined = "" -> t = sentinel_no_tags)
              /\ (joined <> "" -> t = joined))
        /\ ((exists e, vision_client W = Raise e)
            \/ (forall c, fs s !! path <> Some (File c))
            \/ (exists c e, fs s !! path = Some (File c)
                            /\ label_detection W (file_bytes W c) = Raise e)
            \/ (exists c response,
                  fs s !! path = Some (File c)
                  /\ label_detection W (file_bytes W c) = Ok response
                  /\ error_message response <> "") ->
            t = sentinel_tags_failed))
  /\ (forall labels,
        Forall (fun l => description l = "") labels ->
        str.join ", " (map description labels) = "" <-> (length labels <= 1)%nat)
  /\ (forall b64, exists d s',
        get_description_from_astica W b64 s = (Ok d, s') /\ d <> ""
        /\ (api_key (environ s) = None -> d = sentinel_no_key)
        /\ (forall k, api_key (environ s) = Some k ->
              (forall e, astica_post W k b64 = Raise e -> d = handler_sentinel e)
              /\ (forall resp,
                    astica_post W k b64 = Ok resp ->
                    (400 <= status_code resp < 600 -> d = sentinel_http)
                    /\ (~ 400 <= status_code resp < 600 ->
                        (forall e, json_body resp = Raise e ->
                           d = handler_sentinel e)
                        /\ (forall items,
                              json_body resp = Ok (JObj items) ->
                              items_get "status" items <> Some (JStr "error") ->
                              items_get "error" items = None ->
                              items_get "caption" items = None
                              \/ (exists c, items_get "caption" items = Some (JStr c)
                                            /\ str.strip c = "") ->
                              d = sentinel_no_description)))))
  /\ (forall e, handler_sentinel e <> "").
Proof.
  split; [|split; [|split; [|split]]].
  - destruct (process_image_metadata_record W path s) as (d & t & s' & H & _ & Hd & Ht & _).
    exists d, t, s'. repeat split; assumption.
  - destruct (get_image_tags_from_google_run W path s) as (t & evs & H & _ & Ht).
    exists t, (after_events s evs). split; [exact H|]. split; [exact Ht|].
    rewrite get_image_tags_from_google_cases in H. split.
    + intros c response Hc Hf Hl He. rewrite Hc, Hf, Hl, He in H.
      cbn [str.truthy String.eqb negb] in H. cbn zeta in H |- *.
      injection H as H _. split.
      * intros Hj. rewrite Hj in H. now rewrite <- H.
      * intros Hj. apply truthy_true in Hj. rewrite Hj in H. now rewrite <- H.
    + intros [[e He]|[Hnf|[(c & e & Hf & Hl)|(c & response & Hf & Hl & He)]]].
      * rewrite He in H. now injection H as <-.
      * destruct (vision_client W); [|now injection H as <-].
        destruct (fs s !! path) as [[entries|c]|];
          [now injection H as <- | now destruct (Hnf c) | now injection H as <-].
      * rewrite Hf, Hl in H.
        destruct (vision_client W); now injection H as <-.
      * rewrite Hf, Hl in H. apply truthy_true in He. rewrite He in H.
        destruct (vision_client W); now injection H as <-.
  - apply join_empty_descriptions.
  - intros b64.
    destruct (get_description_from_astica_run W b64 s) as (d & evs & H & Hd).
    exists d, (after_events s evs). split; [exact H|]. split; [exact Hd|].
    rewrite get_description_from_astica_cases in H. split.
    + intros Hk. rewrite Hk in H. now injection H as <-.
    + intros k Hk. rewrite Hk in H. injection H as H _. split.
      * intros e He. rewrite He in H. now rewrite <- H.
      * intros resp Hr. rewrite Hr in H. split.
        -- intros Hst. replace (_ && _) with true in H by lia. now rewrite <- H.
        -- intros Hst. replace (_ && _) with false in H by lia. split.
           ++ intros e He. rewrite He in H. now rewrite <- H.
           ++ intros items Hj Hs He Hc. rewrite Hj in H. rewrite <- H.
              destruct Hc as [Hc|(c & Hc & Hblank)].
              ** now apply (description_sentinel_facts W).
              ** unfold description_of_json, json_has. rewrite He, Hc, Hblank.
                 destruct (items_get "status" items) as [[| | |t| |]|];
                   try reflexivity.
                 cbn [json_eq_str].
                 destruct (String.eqb_spec t "error") as [->|Hne];
                   [now destruct Hs | reflexivity].
  - apply handler_sentinel_nonempty.
Qed.

(** ** C10: the directory scan *)

(** C10. The scan of the local branch looks at names only: from a
    directory it returns every entry whose name has an accepted extension,
    joined to the directory, and nothing else; what the entry is, a file or
    a sub-directory, plays no part. *)
Theorem directory_scan_looks_at_names_only (W : World) (s : state)
    (src : string) (names : list string) :
  str.strip (stdin_line W) = src ->
  fs s !! src = Some (Dir names) ->
  exists paths s',
    local_image_paths W s = (Ok (Some paths), s')
    /\ paths = map (os_path.join src) (List.filter has_image_extension names)
    /\ (forall n entries,
          In n names -> has_image_extension n = true ->
          fs s !! os_path.join src n = Some (Dir entries) ->
          In (os_path.join src n) paths)
    /\ (forall s2, fs s2 !! src = Some (Dir names) ->
          fst (local_image_paths W s2) = Ok (Some paths)).
Proof.
  intros <- Hdir. rewrite local_image_paths_cases, Hdir.
  eexists _, _. split; [reflexivity|]. split; [reflexivity|]. split.
  - intros n entries Hin Hext _. apply in_map. apply filter_In. now split.
  - intros s2 Hdir2. now rewrite local_image_paths_cases, Hdir2.
Qed.

(** The sub-directory [thumbs.png] is selected. *)
Lemma directory_scan_looks_at_names_only_witness :
  fs subdir_state !! "pics/thumbs.png" = Some (Dir [])
  /\ fst (local_image_paths sample_world subdir_state) = Ok (Some ["pics/thumbs.png"]).
Proof.
  split; [vm_compute; reflexivity|].
  destruct (directory_scan_looks_at_names_only sample_world subdir_state "pics"
              ["thumbs.png"])
    as (paths & s' & Hrun & -> & _).
  - vm_compute. reflexivity.
  - vm_compute. reflexivity.
  - rewrite Hrun. vm_compute. reflexivity.
Defined.

(** * Further properties *)

(** ** Credentials *)

(** X1. [setup_google_credentials] never raises.  It returns [True] exactly
    when the variable names an existing path, or when, in Colab, the upload
    prompt returned at least one file.  It changes and removes no file
    that is there; unless it comes to ask for the upload and gets a file,
    the files are as they were. *)
Theorem setup_google_credentials_verdict (W : World) (s : state) :
  exists ok s',
    setup_google_credentials W s = (Ok ok, s')
    /\ (ok = true <->
        credentials_found s = true
        \/ (in_colab W = true
            /\ exists fn data rest, upload_credentials W = Ok ((fn, data) :: rest)))
    /\ (credentials_found s = true \/ in_colab W = false \/ ok = false ->
        fs s' = fs s)
    /\ (forall q n, fs s !! q = Some n -> fs s' !! q = Some n).
Proof.
  rewrite setup_google_credentials_cases.
  destruct (credentials_found s) eqn:Hcf.
  { exists true, s. repeat split; auto. }
  destruct (in_colab W).
  2:{ exists false, s. repeat split; auto. intros [H|[H _]]; discriminate. }
  destruct (upload_credentials W) as [[|[fn data] rest]|e].
  - eexists false, _. split; [reflexivity|].
    split; [|split; [reflexivity | auto]].
    split; [discriminate|]. intros [H|[_ (fn & d & r & H)]]; discriminate.
  - eexists true, _. split; [reflexivity|]. cbn [fs].
    split; [|split].
    + split; [|reflexivity]. intros _. right. split; [reflexivity|]. eauto.
    + intros [H|[H|H]]; discriminate.
    + intros q n. apply upload_saved_keeps.
  - eexists false, _. split; [reflexivity|].
    split; [|split; [reflexivity | auto]].
    split; [discriminate|]. intros [H|[_ (fn & d & r & H)]]; discriminate.
Qed.

(** X2. With the credentials found, nothing happens at all, in Colab too: no
    prompt, the state as it was.  Without them, in Colab, an upload of at
    least one file sets the variable to the name of the first and leaves
    every other variable alone. *)
Theorem setup_google_credentials_environment (W : World) (s : state) :
  (credentials_found s = true -> setup_google_credentials W s = (Ok true, s))
  /\ (forall fn data rest,
        credentials_found s = false ->
        in_colab W = true ->
        upload_credentials W = Ok ((fn, data) :: rest) ->
        exists s',
          setup_google_credentials W s = (Ok true, s')
          /\ environ s' !! "GOOGLE_APPLICATION_CREDENTIALS" = Some fn
          /\ (forall key, key <> "GOOGLE_APPLICATION_CREDENTIALS" ->
                environ s' !! key = environ s !! key)
          /\ trace s' = trace s ++ [EvUpload]).
Proof.
  split.
  - apply setup_google_credentials_found.
  - intros fn data rest Hcf Hcolab Hup.
    unfold setup_google_credentials, is_running_in_colab. mstep.
    unfold credentials_found in Hcf. rewrite Hcf, Hcolab, Hup. mstep.
    eexists. split; [reflexivity|]. cbn [environ trace].
    split; [apply lookup_insert_eq|]. split; [|reflexivity].
    intros key Hk. now apply lookup_insert_ne.
Qed.

(** In Colab without credentials, the uploaded [sa.json] becomes the value
    of the variable. *)
Lemma setup_google_credentials_environment_witness :
  exists s',
    setup_google_credentials colab_world colab_state = (Ok true, s')
    /\ environ s' !! "GOOGLE_APPLICATION_CREDENTIALS" = Some "sa.json".
Proof.
  destruct (setup_google_credentials_environment colab_world colab_state) as [_ H].
  destruct (H "sa.json" "{}" []) as (s' & Hrun & Henv & _).
  - vm_compute. reflexivity.
  - reflexivity.
  - reflexivity.
  - exists s'. split; [exact Hrun | exact Henv].
Defined.

(** ** The normaliser *)

(** X3. [compress_image] never raises; it leaves the environment alone and
    every file but the one at [image_path]; what is there stays a regular
    file or a directory, as it was; and a path that holds no readable image
    (missing, a directory, not a picture) is left exactly as it was. *)
Theorem compress_image_touches_one_file (W : World) (path : string) (s : state) :
  exists s',
    compress_image W path s = (Ok tt, s')
    /\ environ s' = environ s
    /\ same_files_except (fun q => q = path) s s'
    /\ kinds_kept s s'
    /\ (image_at W s path = None -> fs s' = fs s).
Proof.
  rewrite compress_image_cases. eexists. split; [reflexivity|]. cbn [environ fs].
  split; [reflexivity|].
  destruct (image_at W s path) as [img|] eqn:Himg.
  2:{ split; [intros q _; reflexivity|]. split; [split; eauto|reflexivity]. }
  destruct (normalized img) as [img'|].
  2:{ split; [intros q _; reflexivity|]. split; [split; eauto|discriminate]. }
  destruct (image_at_file _ _ _ _ Himg) as [c Hc].
  split; [|split; [split|discriminate]].
  - intros q Hq. cbn [fs]. now apply after_save_other.
  - intros q c0 Hq. cbn [fs]. destruct (decide (q = path)) as [->|Hne].
    + eapply after_save_file. exact Hc.
    + rewrite after_save_other by assumption. eauto.
  - intros q entries Hq. cbn [fs]. rewrite after_save_other; [assumption|].
    intros ->. congruence.
Qed.

(** X4. [compress_image] never enlarges a picture.  For a readable picture
    (an empty file being none), whatever picture is at [image_path]
    afterwards is at most as wide and at most as high as the one that was
    there; when the size has changed, it is exactly [MAX_IMAGE_WIDTH] wide,
    and its height is the height scaled in proportion or one pixel less.
    No picture is left only when the encoder refused the save, which
    leaves the file empty. *)
Theorem compress_image_never_enlarges (W : World) (path : string) (s : state)
    (img : image) :
  image_at W s path = Some img ->
  0 < width img < 2 ^ 31 ->
  0 < height img < 2 ^ 31 ->
  pil_decode W "" = None ->
  (forall img',
     image_at W (snd (compress_image W path s)) path = Some img' ->
     width img' <= width img
     /\ height img' <= height img
     /\ (img' <> img ->
         width img' = MAX_IMAGE_WIDTH
         /\ MAX_IMAGE_WIDTH * height img - width img
            <= height img' * width img <= MAX_IMAGE_WIDTH * height img))
  /\ (image_at W (snd (compress_image W path s)) path = None ->
      fs (snd (compress_image W path s)) !! path = Some (File (Raw ""))
      /\ exists img', normalized img = Some img'
                      /\ pil_save W img' path = CannotWrite).
Proof.
  intros Himg Hw Hh Hempty.
  assert (Hbound : forall img', normalized img = Some img' ->
    width img' <= width img /\ height img' <= height img
    /\ (img' <> img ->
        width img' = MAX_IMAGE_WIDTH
        /\ MAX_IMAGE_WIDTH * height img - width img
           <= height img' * width img <= MAX_IMAGE_WIDTH * height img)).
  { intros img' Hn. unfold normalized in Hn.
    destruct (width img >? MAX_IMAGE_WIDTH) eqn:Hwide.
    - destruct (height_size MAX_IMAGE_WIDTH img <? 1) eqn:Hh1; [discriminate|].
      injection Hn as <-. cbn [width height].
      pose proof (height_size_within_one_pixel (width img) (height img)) as Hb.
      unfold MAX_IMAGE_WIDTH in *. cbn zeta in Hb.
      destruct img as [w h]. cbn [width height] in *.
      specialize (Hb ltac:(lia) ltac:(lia)).
      set (H := height_size 1024 {| width := w; height := h |}) in *.
      split; [lia|]. split; [nia|]. intros _. split; [reflexivity | exact Hb].
    - injection Hn as <-. split; [lia|]. split; [lia|]. congruence. }
  rewrite image_at_compress_image, compress_image_cases, Himg. cbn [snd fs].
  destruct (normalized img) as [img'|] eqn:Hn.
  2:{ split; [|discriminate]. intros img' [= <-].
      split; [lia|]. split; [lia|]. congruence. }
  unfold after_save. destruct (pil_save W img' path) eqn:Hsave.
  - split; [|discriminate]. intros img'' [= <-]. now apply Hbound.
  - split; [|discriminate]. intros img'' [= <-].
    split; [lia|]. split; [lia|]. congruence.
  - rewrite Hempty. split; [discriminate|]. intros _.
    split; [apply lookup_insert_eq | eauto].
Qed.

(** The sample picture, 2048 x 1000, comes out 1024 x 500. *)
Lemma compress_image_never_enlarges_witness :
  image_at sample_world (snd (compress_image sample_world "pics/a.JPG" sample_state))
    "pics/a.JPG" = Some {| width := 1024; height := 500 |}
  /\ 1024 <= 2048 /\ 500 <= 1000.
Proof.
  destruct (compress_image_never_enlarges sample_world "pics/a.JPG" sample_state
              {| width := 2048; height := 1000 |})
    as [H _].
  - vm_compute. reflexivity.
  - cbn. lia.
  - cbn. lia.
  - reflexivity.
  - assert (Himg : image_at sample_world
                     (snd (compress_image sample_world "pics/a.JPG" sample_state))
                     "pics/a.JPG" = Some {| width := 1024; height := 500 |})
      by (vm_compute; reflexivity).
    split; [exact Himg|].
    destruct (H _ Himg) as (H1 & H2 & _). split; [exact H1 | exact H2].
Defined.

(** ** The tag client *)

(** X5. [get_image_tags_from_google] changes neither the environment nor any
    file.  It calls the label-detection service at most once, and only
    after the client was built and the file read: with no client it does
    not even open the file. *)
Theorem get_image_tags_from_google_calls (W : World) (path : string) (s : state) :
  exists r evs,
    get_image_tags_from_google W path s = (Ok r, after_events s evs)
    /\ (In (EvLabelDetection path) evs <->
        vision_client W = Ok tt /\ exists c, fs s !! path = Some (File c))
    /\ (In (EvReadFile path) evs <-> vision_client W = Ok tt)
    /\ (length evs <= 2)%nat.
Proof.
  rewrite get_image_tags_from_google_cases.
  destruct (vision_client W) as [[]|e].
  2:{ exists sentinel_tags_failed, []. rewrite after_events_nil.
      split; [reflexivity|]. split; [|split; [|cbn; lia]].
      - split; [intros [] | intros [H _]; discriminate].
      - split; [intros [] | discriminate]. }
  assert (Hread : In (EvReadFile path) [EvReadFile path] <-> @Ok unit tt = Ok tt).
  { split; intros _; [reflexivity | now left]. }
  destruct (fs s !! path) as [[entries|c]|].
  - eexists _, _. split; [reflexivity|]. split; [|split; [exact Hread|cbn; lia]].
    split; [intros [H|[]]; discriminate | intros [_ [c H]]; discriminate].
  - eexists _, _. split; [reflexivity|]. split; [|split; [|cbn; lia]].
    + split; [intros _; split; eauto | intros _; right; now left].
    + split; intros _; [reflexivity | now left].
  - eexists _, _. split; [reflexivity|]. split; [|split; [exact Hread|cbn; lia]].
    split; [intros [H|[]]; discriminate | intros [_ [c H]]; discriminate].
Qed.

(** ** The description client *)

(** X6. [get_description_from_astica] changes neither the environment nor any
    file.  Without a key it makes no request.  With a key it makes exactly
    one, to the fixed endpoint, with the key as token and the base64 text
    as input, and none after it, whatever comes back. *)
Theorem get_description_from_astica_requests (W : World) (b64 : string) (s : state) :
  exists r evs,
    get_description_from_astica W b64 s = (Ok r, after_events s evs)
    /\ match api_key (environ s) with
       | None => evs = [EvGetenv "ASTICA_API_KEY"]
       | Some k =>
           evs = [EvGetenv "ASTICA_API_KEY";
                  EvHttpPost "https://vision.astica.ai/describe" k b64]
       end.
Proof.
  rewrite get_description_from_astica_cases.
  destruct (api_key (environ s)) as [k|]; eexists _, _; split; reflexivity.
Qed.

(** ** The handlers of the description client *)

(** X7. When the body of a successful response does not decode, the exception
    meets the handlers in their order: the JSON sentinel is returned only
    for a [ValueError] that is not also a [RequestException].  The decoding
    error raised by [requests] itself is both, and gets the connection
    sentinel. *)
Theorem get_description_from_astica_decode_failure (W : World) (b64 : string)
    (s : state) (k : string) (resp : http_response) (e : exn) :
  api_key (environ s) = Some k ->
  astica_post W k b64 = Ok resp ->
  ~ 400 <= status_code resp < 600 ->
  json_body resp = Raise e ->
  exists r s',
    get_description_from_astica W b64 s = (Ok r, s')
    /\ (r = sentinel_json <->
        isinstance e cValueError = true /\ isinstance e cRequestException = false)
    /\ (e = RequestsJSONDecodeError -> r = sentinel_connection)
    /\ (e = JSONDecodeError -> r = sentinel_json).
Proof.
  intros Hk Hpost Hst Hbody.
  rewrite get_description_from_astica_cases, Hk, Hpost, Hbody.
  replace (_ && _) with false by lia.
  eexists _, _. split; [reflexivity|]. split; [|split; now intros ->].
  destruct e; cbn; split; try discriminate; try (intros [? ?]; discriminate);
    try (now split); reflexivity.
Qed.

(** The endpoint of [colab_world] answers 200 with a body that does not
    decode. *)
Lemma get_description_from_astica_decode_failure_witness :
  fst (get_description_from_astica colab_world "aGk=" colab_state)
  = Ok sentinel_connection.
Proof.
  destruct (get_description_from_astica_decode_failure colab_world "aGk=" colab_state
              "secret" {| status_code := 200;
                          json_body := Raise RequestsJSONDecodeError |}
              RequestsJSONDecodeError)
    as (r & s' & Hrun & _ & Hr & _).
  - vm_compute. reflexivity.
  - reflexivity.
  - cbn. lia.
  - reflexivity.
  - rewrite Hrun. cbn [fst]. f_equal. now apply Hr.
Defined.

(** ** The caption, stripped *)

Lemma lstrip_split (s : string) :
  exists pre, s = pre +:+ str.lstrip s /\ str.lstrip pre = "".
Proof.
  induction s as [|c s (pre & Hs & Hpre)]; [now exists ""|].
  cbn [str.lstrip]. destruct (str.isspace c) eqn:Hc.
  - exists (String c pre). split.
    + change (String c s = String c (pre +:+ str.lstrip s)). now rewrite <- Hs.
    + cbn [str.lstrip]. now rewrite Hc.
  - now exists "".
Qed.

Lemma rstrip_split (s : string) :
  exists post, s = str.rstrip s +:+ post /\ str.rstrip post = "".
Proof.
  induction s as [|c s (post & Hs & Hpost)]; [now exists ""|].
  cbn [str.rstrip]. destruct (str.rstrip s) as [|r0 r] eqn:Hr.
  - change ("" +:+ post) with post in Hs. subst s.
    destruct (str.isspace c) eqn:Hc.
    + exists (String c post). split; [reflexivity|].
      cbn [str.rstrip]. now rewrite Hpost, Hc.
    + exists post. now split.
  - exists post. split; [|assumption].
    change (String c s = String c (String r0 r +:+ post)). now rewrite <- Hs.
Qed.

(** No white space but white space: what [rstrip] empties, [lstrip] does. *)
Lemma rstrip_empty_lstrip (s : string) : str.rstrip s = "" -> str.lstrip s = "".
Proof.
  induction s as [|c s IH]; [reflexivity|]. cbn [str.rstrip str.lstrip].
  destruct (str.rstrip s); [|discriminate].
  destruct (str.isspace c); [intros _; now apply IH | discriminate].
Qed.

Lemma rstrip_head (c : ascii) (s : string) :
  str.isspace c = false -> exists r, str.rstrip (String c s) = String c r.
Proof.
  intros Hc. cbn [str.rstrip]. destruct (str.rstrip s); [|eauto].
  rewrite Hc. eauto.
Qed.

Lemma lstrip_head (s : string) :
  str.lstrip s = "" \/ exists c r, str.lstrip s = String c r /\ str.isspace c = false.
Proof.
  induction s as [|c s IH]; [now left|]. cbn [str.lstrip].
  destruct (str.isspace c) eqn:Hc; [exact IH | right; eauto].
Qed.

Lemma rstrip_last (s init : string) (ch : ascii) :
  str.rstrip s = init +:+ String ch "" -> str.isspace ch = false.
Proof.
  revert init. induction s as [|c s IH]; intros init; cbn [str.rstrip].
  - now destruct init.
  - destruct (str.rstrip s) as [|r0 r].
    + destruct (str.isspace c) eqn:Hc; [now destruct init|].
      destruct init as [|x init]; [now intros [= <-]|].
      intros [= _ H]. now destruct init.
    + destruct init as [|x init]; [discriminate|].
      intros [= _ H]. now apply (IH init).
Qed.

Lemma strip_ends (s : string) :
  (forall ch rest, str.strip s = String ch rest -> str.isspace ch = false)
  /\ (forall init ch, str.strip s = init +:+ String ch "" -> str.isspace ch = false).
Proof.
  unfold str.strip. split; [|intros init ch; apply rstrip_last].
  intros ch rest. destruct (lstrip_head s) as [->|(c & r & -> & Hc)]; [discriminate|].
  destruct (rstrip_head c r Hc) as [r' ->]. now intros [= <- _].
Qed.

Lemma strip_split (s : string) :
  exists pre post,
    s = pre +:+ str.strip s +:+ post
    /\ str.strip pre = "" /\ str.strip post = "".
Proof.
  destruct (lstrip_split s) as (pre & Hs & Hpre).
  destruct (rstrip_split (str.lstrip s)) as (post & Hl & Hpost).
  exists pre, post. unfold str.strip. split; [|split].
  - now rewrite <- Hl.
  - now rewrite Hpre.
  - now rewrite (rstrip_empty_lstrip _ Hpost).
Qed.

(** X8. A caption sent as a string, in a body without error: the client
    returns it with the white space at both ends taken off (what is taken
    off is white space only, and what is left neither starts nor ends with
    white space); a caption of white space only gives the "no description"
    sentinel. *)
Theorem get_description_from_astica_strips_caption (W : World) (b64 : string)
    (s : state) (k : string) (resp : http_response) (items : list (string * json))
    (c : string) :
  api_key (environ s) = Some k ->
  astica_post W k b64 = Ok resp ->
  ~ 400 <= status_code resp < 600 ->
  json_body resp = Ok (JObj items) ->
  items_get "status" items <> Some (JStr "error") ->
  items_get "error" items = None ->
  items_get "caption" items = Some (JStr c) ->
  exists r s' pre post,
    get_description_from_astica W b64 s = (Ok r, s')
    /\ c = pre +:+ str.strip c +:+ post
    /\ str.strip pre = "" /\ str.strip post = ""
    /\ (forall ch rest, str.strip c = String ch rest -> str.isspace ch = false)
    /\ (forall init ch, str.strip c = init +:+ String ch "" ->
          str.isspace ch = false)
    /\ (str.strip c <> "" -> r = str.strip c)
    /\ (str.strip c = "" -> r = sentinel_no_description).
Proof.
  intros Hk Hpost Hst Hbody Hstatus Herr Hcap.
  rewrite get_description_from_astica_cases, Hk, Hpost, Hbody.
  replace (_ && _) with false by lia.
  destruct (strip_split c) as (pre & post & Hc & Hpre & Hpo).
  eexists _, _, pre, post. split; [reflexivity|].
  split; [exact Hc|]. split; [exact Hpre|]. split; [exact Hpo|].
  split; [apply strip_ends|]. split; [apply strip_ends|].
  unfold description_of_json, json_has. rewrite Herr, Hcap.
  assert (Hs : json_eq_str (match items_get "status" items with
                            | Some v => v | None => JNull end) "error" = false).
  { destruct (items_get "status" items) as [[| | |t| |]|]; try reflexivity.
    cbn [json_eq_str]. destruct (String.eqb_spec t "error") as [->|Hne];
      [now destruct Hstatus | reflexivity]. }
  rewrite Hs. cbn [orb].
  destruct (str.truthy (str.strip c)) eqn:Ht.
  - split; [reflexivity|]. intros H. apply truthy_true in Ht. contradiction.
  - split; [|reflexivity]. intros H. apply truthy_false in Ht. contradiction.
Qed.

(** The sample endpoint sends [" A cat. "]. *)
Lemma get_description_from_astica_strips_caption_witness :
  fst (get_description_from_astica sample_world "aGk=" sample_state) = Ok "A cat.".
Proof.
  destruct (get_description_from_astica_strips_caption sample_world "aGk=" sample_state
              "secret" {| status_code := 200;
                          json_body := Ok (JObj [("caption", JStr " A cat. ")]) |}
              [("caption", JStr " A cat. ")] " A cat. ")
    as (r & s' & pre & post & Hrun & _ & _ & _ & _ & _ & Hr & _).
  - vm_compute. reflexivity.
  - reflexivity.
  - cbn. lia.
  - reflexivity.
  - discriminate.
  - reflexivity.
  - reflexivity.
  - rewrite Hrun. cbn [fst]. f_equal. apply Hr. vm_compute. discriminate.
Defined.

(** ** Base64 conversion *)

Lemma b64encode_empty (data : string) :
  base64.b64encode data = "" <-> data = "".
Proof.
  split; [|now intros ->].
  destruct data as [|a [|b [|c rest]]]; [reflexivity|discriminate..].
Qed.

Lemma base64_input_cases (W : World) (s : state) (path : string) :
  base64_input W s path =
  match fs s !! path with
  | Some (File c) =>
      if String.eqb (file_bytes W c) "" then None
      else Some (base64.b64encode (file_bytes W c))
  | _ => None
  end.
Proof.
  unfold base64_input. destruct (fs s !! path) as [[entries|c]|]; try reflexivity.
  cbn zeta. unfold str.truthy.
  destruct (String.eqb (file_bytes W c) "") eqn:He.
  - apply String.eqb_eq in He. rewrite He. reflexivity.
  - destruct (String.eqb (base64.b64encode _) "") eqn:Hb; [|reflexivity].
    apply String.eqb_eq in Hb. apply (proj1 (b64encode_empty _)) in Hb.
    rewrite Hb in He. discriminate.
Qed.


Lemma b64encode_fuel_length (fuel : nat) (data : string) :
  (String.length data <= fuel)%nat ->
  String.length (base64.b64encode_fuel fuel data)
  = (4 * ((String.length data + 2) / 3))%nat.
Proof.
  revert data. induction fuel as [|fuel IH]; intros data Hlen.
  - destruct data; [reflexivity | cbn in Hlen; lia].
  - destruct data as [|a [|b [|c rest]]]; try reflexivity.
    cbn [base64.b64encode_fuel String.length]. rewrite IH by (cbn in Hlen; lia).
    replace (S (S (S (String.length rest))) + 2)%nat
      with ((String.length rest + 2) + 1 * 3)%nat by lia.
    rewrite Nat.div_add by lia. lia.
Qed.

(** X9. [convert_image_to_base64] never raises and changes no file; it reads
    the file once.  It returns [None] exactly when the path holds no
    regular file; otherwise a text of four characters for every three
    bytes of the file, the last group padded: empty only for an empty
    file. *)
Theorem convert_image_to_base64_size (W : World) (path : string) (s : state) :
  exists r,
    convert_image_to_base64 W path s = (Ok r, after_events s [EvReadFile path])
    /\ (r = None <-> forall c, fs s !! path <> Some (File c))
    /\ (forall c b64,
          fs s !! path = Some (File c) -> r = Some b64 ->
          String.length b64
          = (4 * ((String.length (file_bytes W c) + 2) / 3))%nat
          /\ (b64 = "" <-> file_bytes W c = "")).
Proof.
  rewrite convert_image_to_base64_cases. eexists. split; [reflexivity|].
  destruct (fs s !! path) as [[entries|c]|]; split;
    try (split; [intros _ c; discriminate | reflexivity]);
    try (intros c0 b64 [=]).
  - split; [discriminate|]. intros H. now destruct (H c).
  - subst c0. intros [= <-]. split.
    + unfold base64.b64encode. now apply b64encode_fuel_length.
    + apply b64encode_empty.
Qed.

(** ** Computations that respect a relation on states *)

Section Respects.

Variable R : state -> state -> Prop.
Hypothesis R_refl : forall s, R s s.
Hypothesis R_trans : forall a b c, R a b -> R b c -> R a c.

Lemma respects_ret {A} (a : A) : respects R (ret a).
Proof. intros s. apply R_refl. Qed.

Lemma respects_raise {A} (e : exn) : respects R (@raise A e).
Proof. intros s. apply R_refl. Qed.

Lemma respects_lift {A} (r : result A) : respects R (lift r).
Proof. destruct r; intros s; apply R_refl. Qed.

Lemma respects_bind {A B} (m : M A) (k : A -> M B) :
  respects R m -> (forall a, respects R (k a)) -> respects R (bind m k).
Proof.
  intros Hm Hk s. unfold bind. specialize (Hm s).
  destruct (m s) as [[a|e] s1]; cbn [snd] in *; [|assumption].
  eapply R_trans; [exact Hm | apply Hk].
Qed.

(** Reading the state: what follows may use what was read. *)
Lemma respects_get_state {A} (k : state -> M A) :
  (forall s, R s (snd (k s s))) -> respects R (bind get_state k).
Proof. intros Hk s. apply Hk. Qed.

Lemma respects_except {A} (hs : list (exn_class * M A)) (e : exn) :
  Forall (fun h => respects R (snd h)) hs -> respects R (except_ hs e).
Proof.
  induction 1 as [|[c h] hs Hh _ IH]; cbn [except_].
  - apply respects_raise.
  - now destruct (isinstance e c).
Qed.

Lemma respects_try {A} (body : M A) (hs : list (exn_class * M A)) :
  respects R body -> Forall (fun h => respects R (snd h)) hs ->
  respects R (try_ body hs).
Proof.
  intros Hb Hh s. unfold try_. specialize (Hb s).
  destruct (body s) as [[a|e] s1]; cbn [snd] in *; [assumption|].
  eapply R_trans; [exact Hb | now apply respects_except].
Qed.

Lemma respects_for_each {A B} (xs : list A) (body : A -> M B) :
  (forall x, In x xs -> respects R (body x)) -> respects R (for_each xs body).
Proof.
  induction xs as [|x xs IH]; intros Hb; cbn [for_each].
  - apply respects_ret.
  - apply respects_bind; [apply Hb; now left|]. intros y.
    apply respects_bind; [|intros ys; apply respects_ret].
    apply IH. intros x' Hx'. apply Hb. now right.
Qed.

End Respects.

(** The relations used below are reflexive and transitive. *)

Lemma same_files_except_refl (P : string -> Prop) (s : state) :
  same_files_except P s s.
Proof. now intros q _. Qed.

Lemma same_files_except_trans (P : string -> Prop) (a b c : state) :
  same_files_except P a b -> same_files_except P b c -> same_files_except P a c.
Proof. intros H1 H2 q Hq. now rewrite H2, H1. Qed.

Lemma same_files_except_weaken (P Q : string -> Prop) (a b : state) :
  (forall q, P q -> Q q) -> same_files_except P a b -> same_files_except Q a b.
Proof. intros HPQ H q Hq. apply H. auto. Qed.

Lemma kinds_kept_refl (s : state) : kinds_kept s s.
Proof. split; eauto. Qed.

Lemma kinds_kept_trans (a b c : state) :
  kinds_kept a b -> kinds_kept b c -> kinds_kept a c.
Proof.
  intros [F1 D1] [F2 D2]. split.
  - intros q x Hq. destruct (F1 q x Hq) as [x' Hx']. eauto.
  - intros q entries Hq. eauto.
Qed.

Lemma logged_only_refl (ok : event -> bool) (s : state) : logged_only ok s s.
Proof. exists []. now rewrite app_nil_r. Qed.

Lemma logged_only_trans (ok : event -> bool) (a b c : state) :
  logged_only ok a b -> logged_only ok b c -> logged_only ok a c.
Proof.
  intros (e1 & H1 & O1) (e2 & H2 & O2). exists (e1 ++ e2).
  rewrite H2, H1, <- app_assoc, forallb_app, O1, O2. now split.
Qed.

Lemma logged_only_log (ok : event -> bool) (ev : event) :
  ok ev = true -> respects (logged_only ok) (log ev).
Proof. intros H s. exists [ev]. cbn. now rewrite H. Qed.

Lemma logged_only_same_trace (ok : event -> bool) (s s' : state) :
  trace s' = trace s -> logged_only ok s s'.
Proof. intros H. exists []. now rewrite app_nil_r. Qed.

(** Writing a regular file where there is no directory. *)
Lemma kinds_kept_insert_file (s : state) (p : string) (c : content) :
  (forall entries, fs s !! p <> Some (Dir entries)) ->
  kinds_kept s {| environ := environ s; fs := <[p := File c]> (fs s);
                  trace := trace s |}.
Proof.
  intros Hnd. split; cbn [fs].
  - intros q x Hq. destruct (decide (p = q)) as [->|Hne].
    + rewrite lookup_insert_eq. eauto.
    + rewrite lookup_insert_ne by assumption. eauto.
  - intros q entries Hq. rewrite lookup_insert_ne; [assumption|].
    intros ->. now apply (Hnd entries).
Qed.

Lemma same_files_except_insert (s : state) (p : string) (n : node) :
  same_files_except (fun q => q = p)
    s {| environ := environ s; fs := <[p := n]> (fs s); trace := trace s |}.
Proof. intros q Hq. cbn [fs]. apply lookup_insert_ne. congruence. Qed.

(** ** Footprints *)

Lemma compress_image_footprint (W : World) (path : string) (s : state) :
  same_files_except (fun q => q = path) s (snd (compress_image W path s))
  /\ kinds_kept s (snd (compress_image W path s)).
Proof.
  rewrite compress_image_cases. cbn [snd].
  destruct (image_at W s path) as [img|] eqn:Himg.
  2:{ split; [intros q _; reflexivity | split; eauto]. }
  destruct (normalized img) as [img'|].
  2:{ split; [intros q _; reflexivity | split; eauto]. }
  destruct (image_at_file _ _ _ _ Himg) as [c Hc]. split.
  - intros q Hq. cbn [fs]. now apply after_save_other.
  - split; cbn [fs].
    + intros q c0 Hq. destruct (decide (q = path)) as [->|Hne].
      * eapply after_save_file. exact Hc.
      * rewrite after_save_other by assumption. eauto.
    + intros q entries Hq. rewrite after_save_other; [assumption|].
      intros ->. congruence.
Qed.

Lemma process_image_metadata_footprint (W : World) (path : string) (s : state) :
  same_files_except (fun q => q = path) s (snd (process_image_metadata W path s))
  /\ kinds_kept s (snd (process_image_metadata W path s)).
Proof.
  destruct (compress_image_footprint W path s) as [Hf Hk].
  pose proof (process_image_metadata_files W path s) as Hfs. split.
  - intros q Hq. rewrite Hfs. now apply Hf.
  - destruct Hk as [HF HD]. split.
    + intros q c Hq. rewrite Hfs. eauto.
    + intros q entries Hq. rewrite Hfs. eauto.
Qed.

Lemma for_each_process_footprint (W : World) (paths : list string) (s : state) :
  same_files_except (fun q => In q paths)
    s (snd (for_each paths (process_image_metadata W) s))
  /\ kinds_kept s (snd (for_each paths (process_image_metadata W) s)).
Proof.
  split.
  - apply (respects_for_each (same_files_except (fun q => In q paths))).
    + apply same_files_except_refl.
    + apply same_files_except_trans.
    + intros p Hp s0. eapply same_files_except_weaken;
        [|apply process_image_metadata_footprint]. now intros q ->.
  - apply (respects_for_each kinds_kept kinds_kept_refl kinds_kept_trans).
    intros p _ s0. apply process_image_metadata_footprint.
Qed.

Ltac respects_with refl trans prims :=
  repeat first
    [ prims
    | match goal with
      | |- respects _ (ret _) => eapply respects_ret; exact refl
      | |- respects _ (raise _) => eapply respects_raise; exact refl
      | |- respects _ (lift _) => eapply respects_lift; exact refl
      | |- respects _ (bind _ _) =>
          eapply respects_bind; first [exact refl | exact trans | idtac]
      | |- respects _ (try_ _ _) =>
          eapply respects_try; first [exact refl | exact trans | idtac]
      | |- respects _ (for_each _ _) =>
          eapply respects_for_each; first [exact refl | exact trans | idtac]
      | |- Forall _ (_ :: _) => apply List.Forall_cons; cbn [snd]
      | |- Forall _ [] => apply List.Forall_nil
      | |- forall _, _ => intros ?
      | |- respects _ (match ?x with _ => _ end) => destruct x
      end ].

(** *** What is never downloaded *)

Lemma no_download_get_state : respects (logged_only not_download) get_state.
Proof. intros s. apply logged_only_refl. Qed.

Lemma no_download_set_fs f : respects (logged_only not_download) (set_fs f).
Proof. intros s. now apply logged_only_same_trace. Qed.

Lemma no_download_set_environ e : respects (logged_only not_download) (set_environ e).
Proof. intros s. now apply logged_only_same_trace. Qed.

Ltac no_download :=
  respects_with (logged_only_refl not_download) (logged_only_trans not_download)
    ltac:(first [ apply no_download_get_state
                | apply no_download_set_fs
                | apply no_download_set_environ
                | apply logged_only_log; reflexivity ]).

Lemma no_download_process (W : World) (path : string) :
  respects (logged_only not_download) (process_image_metadata W path).
Proof.
  unfold process_image_metadata, compress_image, compress_image_with, Image_open,
    os_path_getsize, Image_resize, Image_save, get_image_tags_from_google,
    convert_image_to_base64, get_description_from_astica, read_file,
    os_environ_get, requests_post, raise_for_status, response_json, json_get,
    json_strip.
  no_download.
Qed.

Lemma no_download_setup (W : World) :
  respects (logged_only not_download) (setup_google_credentials W).
Proof. unfold setup_google_credentials, files_upload. no_download. Qed.

Lemma no_download_files_upload (W : World) answer :
  respects (logged_only not_download) (files_upload W answer).
Proof. unfold files_upload. no_download. Qed.

Lemma no_download_save_uploads (W : World) uploaded :
  respects (logged_only not_download) (save_uploads W uploaded).
Proof. unfold save_uploads, write_file. no_download. Qed.

Lemma no_download_local_image_paths (W : World) :
  respects (logged_only not_download) (local_image_paths W).
Proof.
  unfold local_image_paths, os_path_exists, os_path_isdir, os_path_isfile, os_listdir.
  no_download.
Qed.

Lemma no_download_clean_up (W : World) temps :
  respects (logged_only not_download) (clean_up W temps).
Proof. unfold clean_up, os_path_exists, os_remove. no_download. Qed.

(** *** The footprint of the export *)

Lemma respects_weaken (R R' : state -> state -> Prop) {A} (m : M A) :
  (forall a b, R a b -> R' a b) -> respects R m -> respects R' m.
Proof. intros H Hm s. apply H, Hm. Qed.

Lemma csv_open_footprint (path : string) :
  respects (same_files_except (fun q => q = path)) (csv_open path)
  /\ respects kinds_kept (csv_open path).
Proof.
  split; intros s; unfold csv_open; mstep;
    destruct (fs s !! path) as [[entries|c]|] eqn:Hf; cbn [snd];
    first [ apply same_files_except_refl | apply same_files_except_insert
          | apply kinds_kept_refl
          | apply kinds_kept_insert_file; intros entries' H; congruence ].
Qed.

Lemma csv_writer_writerow_footprint (path : string) (row : list string) :
  respects (same_files_except (fun q => q = path)) (csv_writer_writerow path row)
  /\ respects kinds_kept (csv_writer_writerow path row).
Proof.
  split; intros s; unfold csv_writer_writerow; mstep;
    destruct (fs s !! path) as [[entries|[data|img q|rows]]|] eqn:Hf; cbn [snd];
    first [ apply same_files_except_refl | apply same_files_except_insert
          | apply kinds_kept_refl
          | apply kinds_kept_insert_file; intros entries' H; congruence ].
Qed.

Lemma write_csv_footprint (W : World) (recs : list dict) :
  respects (same_files_except (fun q => q = OUTPUT_CSV_FILENAME)) (write_csv W recs)
  /\ respects kinds_kept (write_csv W recs).
Proof.
  unfold write_csv, DictWriter_writeheader, DictWriter_writerows,
    DictWriter_writerow, DictWriter_dict_to_list.
  split.
  - respects_with (same_files_except_refl (fun q => q = OUTPUT_CSV_FILENAME))
      (same_files_except_trans (fun q => q = OUTPUT_CSV_FILENAME))
      ltac:(first [ apply csv_open_footprint
                  | apply csv_writer_writerow_footprint
                  | (intros ?; apply same_files_except_refl) ]).
  - respects_with kinds_kept_refl kinds_kept_trans
      ltac:(first [ apply csv_open_footprint
                  | apply csv_writer_writerow_footprint
                  | (intros ?; apply kinds_kept_refl) ]).
Qed.

(** For records built by [process_image_metadata] the export never gets
    past the first [writerow] of a record: the trace is as it was. *)
Lemma write_csv_image_records (W : World) (recs : list dict) (s : state) :
  Forall (fun r => exists f d t, r = image_record f d t) recs ->
  exists s',
    write_csv W recs s = (Ok tt, s')
    /\ environ s' = environ s /\ trace s' = trace s
    /\ ((recs = [] \/ exists entries, fs s !! OUTPUT_CSV_FILENAME = Some (Dir entries))
        -> s' = s).
Proof.
  intros Hall. destruct Hall as [|r rest (f & d & t & ->) _].
  { exists s. repeat split; auto. }
  destruct (fs s !! OUTPUT_CSV_FILENAME) as [[entries|c]|] eqn:Hf.
  - exists s. split; [|repeat split; auto].
    unfold write_csv, try_, csv_open. cbn [is_empty negb]. mstep.
    rewrite Hf. mstep. now destruct s.
  - rewrite write_csv_header_only by (intros entries H; congruence).
    eexists. split; [reflexivity|]. cbn [environ trace]. repeat split.
    intros [H|[entries H]]; discriminate.
  - rewrite write_csv_header_only by (intros entries H; congruence).
    eexists. split; [reflexivity|]. cbn [environ trace]. repeat split.
    intros [H|[entries H]]; discriminate.
Qed.

Lemma for_each_process_shapes (W : World) (paths : list string) (s : state) :
  exists recs s',
    for_each paths (process_image_metadata W) s = (Ok recs, s')
    /\ Forall (fun r => exists f d t, r = image_record f d t) recs.
Proof.
  destruct (for_each_process W paths s) as (recs & s' & Hr & _ & Hall).
  exists recs, s'. split; [assumption|]. clear Hr.
  induction Hall as [|p r ps rs (d & t & -> & _) _ IH]; constructor; eauto.
Qed.

(** *** [main] never reaches the download *)

Lemma no_download_process_and_export (W : World) (paths temps : list string) :
  respects (logged_only not_download) (process_and_export W paths temps).
Proof.
  intros s. unfold process_and_export.
  destruct (for_each_process_shapes W paths s) as (recs & s1 & Hr & Hshape).
  destruct (write_csv_image_records W recs s1 Hshape) as (s2 & Hw & _ & Ht & _).
  destruct (total_run _ s2 (clean_up_total W temps)) as ([] & s3 & Hc).
  rewrite (bind_ok _ _ _ _ _ Hr), (bind_ok _ _ _ _ _ Hw), (bind_ok _ _ _ _ _ Hc).
  cbn [ret snd].
  apply logged_only_trans with s1.
  { pose proof (respects_for_each (logged_only not_download)
                  (logged_only_refl _) (logged_only_trans _) paths
                  (process_image_metadata W)
                  (fun p _ => no_download_process W p) s) as H.
    now rewrite Hr in H. }
  apply logged_only_trans with s2; [now apply logged_only_same_trace|].
  pose proof (no_download_clean_up W temps s2) as H. now rewrite Hc in H.
Qed.

(** X10. [main] never calls [files.download], in Colab or elsewhere: whenever
    there is a record to export, the export stops at the first record,
    before the download. *)
Theorem main_never_downloads (W : World) (s : state) :
  exists recs s',
    main W s = (Ok recs, s')
    /\ exists evs,
         trace s' = trace s ++ evs
         /\ forall path, ~ In (EvDownload path) evs.
Proof.
  destruct (main_run W s) as (recs & s' & Hm & _).
  exists recs, s'. split; [assumption|].
  assert (H : respects (logged_only not_download) (main W)).
  { unfold main, os_environ_get.
    respects_with (logged_only_refl not_download) (logged_only_trans not_download)
      ltac:(first [ apply no_download_setup
                  | apply no_download_files_upload
                  | apply no_download_save_uploads
                  | apply no_download_local_image_paths
                  | apply no_download_process_and_export
                  | apply no_download_get_state
                  | apply logged_only_log; reflexivity ]). }
  specialize (H s). rewrite Hm in H. destruct H as (evs & Ht & Hok).
  exists evs. split; [assumption|].
  intros path Hin. rewrite forallb_forall in Hok. specialize (Hok _ Hin).
  discriminate.
Qed.

(** ** What the pipeline sends to the providers *)

(** X11. The description client is consulted exactly when the path, after the
    normaliser has run, holds a regular file that is not empty; a directory,
    a missing file and an empty file all go without. *)
Theorem process_image_metadata_description_call (W : World) (path : string)
    (s : state) :
  exists r s' evs,
    process_image_metadata W path s = (Ok r, s')
    /\ trace s' = trace s ++ evs
    /\ (existsb description_event evs = true <->
        exists c, fs s' !! path = Some (File c) /\ file_bytes W c <> "").
Proof.
  destruct (process_image_metadata_run W path s) as (t & evs & d & s' & H).
  cbn zeta in H. destruct H as (_ & Hq & _ & Hp & Hd).
  pose proof (process_image_metadata_files W path s) as Hfs.
  rewrite Hp in Hfs. cbn [snd] in Hfs.
  rewrite base64_input_cases in Hd. rewrite <- Hfs in Hd.
  assert (Ht1 : trace (snd (compress_image W path s)) = trace s ++ [EvImageOpen path])
    by now rewrite compress_image_cases.
  assert (Hno : existsb description_event (EvImageOpen path :: evs ++ [EvReadFile path])
                = false).
  { cbn [existsb description_event orb]. rewrite existsb_app. cbn [existsb description_event orb].
    rewrite orb_false_r. clear -Hq. induction evs as [|ev evs IH]; [reflexivity|].
    cbn [forallb existsb] in *. apply andb_prop in Hq as [Hev Hq].
    apply negb_true_iff in Hev. rewrite Hev. now apply IH. }
  eexists _, s'.
  destruct (fs s' !! path) as [[entries|c]|] eqn:Hf.
  1,3: destruct Hd as [_ ->];
       exists (EvImageOpen path :: evs ++ [EvReadFile path]);
       (split; [exact Hp|]); cbn [after_events trace];
       (split; [rewrite Ht1, <- app_assoc; reflexivity|]);
       rewrite Hno; split; [discriminate | now intros (c & [=] & _)].
  destruct (String.eqb (file_bytes W c) "") eqn:He.
  - destruct Hd as [_ ->].
    exists (EvImageOpen path :: evs ++ [EvReadFile path]).
    split; [exact Hp|]. cbn [after_events trace].
    split; [rewrite Ht1, <- app_assoc; reflexivity|].
    rewrite Hno. split; [discriminate|].
    intros (c' & [= <-] & Hne). apply String.eqb_eq in He. contradiction.
  - rewrite get_description_from_astica_cases in Hd.
    exists ((EvImageOpen path :: evs ++ [EvReadFile path])
              ++ match api_key (environ s) with
                 | Some k => [EvGetenv "ASTICA_API_KEY";
                              EvHttpPost api_endpoint k
                                (base64.b64encode (file_bytes W c))]
                 | None => [EvGetenv "ASTICA_API_KEY"]
                 end).
    split; [exact Hp|].
    assert (He1 : environ (snd (compress_image W path s)) = environ s)
      by now rewrite compress_image_cases.
    cbn [after_events environ] in Hd. rewrite He1 in Hd.
    split.
    + destruct (api_key (environ s)); injection Hd as _ Hs'; rewrite <- Hs';
        cbn [after_events trace]; rewrite Ht1; cbn [app];
        rewrite <- !app_assoc; reflexivity.
    + rewrite existsb_app, Hno. cbn [orb]. split.
      * intros _. exists c. split; [reflexivity|].
        intros Hc. rewrite Hc in He. discriminate.
      * intros _. now destruct (api_key (environ s)).
Qed.

(** X12. For a picture the normaliser rewrites (the resize, where there is
    one, is accepted and the save succeeds), with the label client
    available and an API key set: the file ends up holding the normalised
    picture, both providers are given the bytes of that rewritten file (the
    description provider their base64 text), and the calls come in this
    order: open, read, label detection, read, key look-up, HTTP request. *)
Theorem process_image_metadata_sends_compressed_image (W : World) (path : string)
    (s : state) (img img' : image) (k : string) :
  image_at W s path = Some img ->
  normalized img = Some img' ->
  pil_save W img' path = Saved ->
  vision_client W = Ok tt ->
  api_key (environ s) = Some k ->
  pil_encode W img' COMPRESSION_QUALITY <> "" ->
  let b64 := base64.b64encode (pil_encode W img' COMPRESSION_QUALITY) in
  exists d t s',
    process_image_metadata W path s =
      (Ok (image_record (os_path.basename path) d t), s')
    /\ environ s' = environ s
    /\ fs s' = <[path := File (Encoded img' COMPRESSION_QUALITY)]> (fs s)
    /\ trace s' = trace s ++ [EvImageOpen path; EvReadFile path;
                              EvLabelDetection path; EvReadFile path;
                              EvGetenv "ASTICA_API_KEY";
                              EvHttpPost api_endpoint k b64]
    /\ fst (get_image_tags_from_google W path s') = Ok t
    /\ fst (get_description_from_astica W b64 s) = Ok d.
Proof.
  intros Himg Hnorm Hsave Hclient Hkey Hdata. cbn zeta.
  destruct (process_image_metadata_run W path s) as (t & evs & d & s' & H).
  cbn zeta in H. destruct H as (Ht & _ & _ & Hp & Hd).
  exists d, t, s'. split; [exact Hp|].
  pose proof (compress_image_cases W path s) as Hc.
  rewrite Himg, Hnorm in Hc. unfold after_save in Hc. rewrite Hsave in Hc.
  destruct (compress_image W path s) as [r1 s1]. injection Hc as _ ->.
  cbn [snd] in *.
  rewrite get_image_tags_from_google_cases, Hclient in Ht. cbn [fs] in Ht.
  rewrite lookup_insert_eq in Ht. cbn [file_bytes] in Ht.
  injection Ht as Ht Hevs.
  apply app_inv_head in Hevs. subst evs.
  rewrite base64_input_cases in Hd. cbn [fs] in Hd.
  rewrite lookup_insert_eq in Hd. cbn [file_bytes] in Hd.
  destruct (String.eqb (pil_encode W img' COMPRESSION_QUALITY) "") eqn:He.
  { apply String.eqb_eq in He. contradiction. }
  rewrite get_description_from_astica_cases in Hd |- *.
  cbn [after_events environ] in Hd. rewrite Hkey in Hd |- *.
  injection Hd as Hd <-. cbn [after_events environ fs trace fst].
  split; [reflexivity|]. split; [reflexivity|].
  split; [now rewrite <- !app_assoc|].
  split; [|now rewrite Hd].
  rewrite get_image_tags_from_google_cases, Hclient.
  unfold after_events. cbn [fs fst environ trace].
  rewrite lookup_insert_eq. cbn [file_bytes]. now rewrite Ht.
Qed.

(** The sample picture, 2048 pixels wide, is sent as the re-encoded file. *)
Lemma process_image_metadata_sends_compressed_image_witness :
  exists d t s',
    process_image_metadata sample_world "pics/a.JPG" sample_state =
      (Ok (image_record "a.JPG" d t), s')
    /\ trace s' = [EvImageOpen "pics/a.JPG"; EvReadFile "pics/a.JPG";
                   EvLabelDetection "pics/a.JPG"; EvReadFile "pics/a.JPG";
                   EvGetenv "ASTICA_API_KEY";
                   EvHttpPost api_endpoint "secret" (base64.b64encode "JPEG")].
Proof.
  destruct (process_image_metadata_sends_compressed_image sample_world "pics/a.JPG"
              sample_state {| width := 2048; height := 1000 |}
              {| width := 1024; height := 500 |} "secret")
    as (d & t & s' & Hp & _ & _ & Htr & _).
  - vm_compute. reflexivity.
  - vm_compute. reflexivity.
  - reflexivity.
  - reflexivity.
  - vm_compute. reflexivity.
  - discriminate.
  - exists d, t, s'. split; [exact Hp | exact Htr].
Defined.

(** ** The file name of a record *)

Lemma basename_split (p : string) :
  exists dir,
    p = dir +:+ os_path.basename p
    /\ (dir = "" \/ str.endswith dir "/" = true)
    /\ str.contains_char "/" (os_path.basename p) = false.
Proof.
  induction p as [|c p (dir & Hp & Hdir & Hno)].
  - exists "". repeat split; auto.
  - cbn [os_path.basename].
    destruct (str.contains_char "/" p) eqn:Hs.
    + exists (String c dir). split; [|split; [|assumption]].
      * change (String c p = String c (dir +:+ os_path.basename p)). now rewrite <- Hp.
      * right. destruct Hdir as [->|Hd].
        -- rewrite Hp in Hs. change ("" +:+ os_path.basename p) with (os_path.basename p) in Hs.
           congruence.
        -- cbn [str.endswith]. rewrite Hd. apply orb_true_r.
    + destruct (Ascii.eqb c "/") eqn:Hc.
      * apply Ascii.eqb_eq in Hc as ->. exists "/".
        split; [reflexivity|]. split; [now right | assumption].
      * exists "". split; [reflexivity|]. split; [now left|].
        cbn [str.contains_char]. rewrite Ascii.eqb_sym, Hc. exact Hs.
Qed.

(** X13. The file name in a record is the last component of the path: it holds
    no slash, and the path is a directory prefix (empty, or ending in a
    slash) followed by it.  The directory is not recorded: the same name
    under any other directory gives the same file name. *)
Theorem record_filename_is_last_component (W : World) (path : string) (s : state) :
  exists name d t s' dir,
    process_image_metadata W path s = (Ok (image_record name d t), s')
    /\ dict_get "filename" (image_record name d t) = Some name
    /\ str.contains_char "/" name = false
    /\ path = dir +:+ name
    /\ (dir = "" \/ str.endswith dir "/" = true)
    /\ (forall other s2, exists d2 t2 s2',
          process_image_metadata W (other +:+ String "/" name) s2
          = (Ok (image_record name d2 t2), s2')).
Proof.
  destruct (process_image_metadata_record W path s) as (d & t & s' & Hp & _).
  destruct (basename_split path) as (dir & Hpath & Hdir & Hno).
  exists (os_path.basename path), d, t, s', dir.
  split; [exact Hp|]. split; [reflexivity|]. split; [exact Hno|].
  split; [exact Hpath|]. split; [exact Hdir|].
  intros other s2.
  destruct (process_image_metadata_record W (other +:+ String "/" (os_path.basename path)) s2)
    as (d2 & t2 & s2' & Hp2 & _).
  exists d2, t2, s2'. rewrite Hp2. now rewrite basename_after_slash.
Qed.

(** ** [main] in local mode *)

Lemma lower_app (a b : string) : str.lower (a +:+ b) = str.lower a +:+ str.lower b.
Proof.
  induction a as [|c a IH]; [reflexivity|].
  change (str.lower (String c (a +:+ b)) = String (str.lower_char c) (str.lower a +:+ str.lower b)).
  cbn [str.lower]. now rewrite IH.
Qed.

Lemma endswith_app_l (a b suffix : string) :
  str.endswith b suffix = true -> str.endswith (a +:+ b) suffix = true.
Proof.
  intros [p ->]%endswith_spec. rewrite <- string_app_assoc. apply endswith_app.
Qed.

Lemma has_image_extension_app (a n : string) :
  has_image_extension n = true -> has_image_extension (a +:+ n) = true.
Proof.
  unfold has_image_extension, str.endswith_any. rewrite !existsb_exists.
  intros (ext & Hin & He). exists ext. split; [assumption|].
  rewrite lower_app. now apply endswith_app_l.
Qed.

Lemma has_image_extension_join (d n : string) :
  has_image_extension n = true -> has_image_extension (os_path.join d n) = true.
Proof.
  intros H. unfold os_path.join.
  destruct (str.startswith n "/"); [assumption|].
  destruct (_ || _); [now apply has_image_extension_app|].
  apply has_image_extension_app. now apply (has_image_extension_app "/").
Qed.

(** What the local branch returns always has an accepted extension. *)
Lemma local_image_paths_extensions (W : World) (s : state) (paths : list string) :
  fst (local_image_paths W s) = Ok (Some paths) ->
  Forall (fun p => has_image_extension p = true) paths.
Proof.
  rewrite local_image_paths_cases. cbn [fst].
  destruct (fs s !! str.strip (stdin_line W)) as [[names|c]|]; try discriminate.
  - intros [= <-]. apply List.Forall_forall. intros p Hp.
    apply in_map_iff in Hp as (n & <- & [_ Hn]%filter_In).
    now apply has_image_extension_join.
  - destruct (has_image_extension _) eqn:He; [|discriminate].
    intros [= <-]. now constructor.
Qed.

Lemma process_and_export_local_footprint (W : World) (paths : list string) :
  respects (same_files_except (fun q => q = OUTPUT_CSV_FILENAME \/ In q paths))
    (process_and_export W paths [])
  /\ respects kinds_kept (process_and_export W paths []).
Proof.
  split; intros s; unfold process_and_export.
  - apply (respects_bind _ (same_files_except_trans _)).
    + intros s0. eapply same_files_except_weaken;
        [|apply for_each_process_footprint]. auto.
    + intros recs. apply (respects_bind _ (same_files_except_trans _)).
      * intros s0. eapply same_files_except_weaken;
          [|apply write_csv_footprint]. auto.
      * intros _ s0. rewrite (bind_ok _ _ _ _ _ (clean_up_local W s0)).
        apply same_files_except_refl.
  - apply (respects_bind _ kinds_kept_trans).
    + intros s0. apply for_each_process_footprint.
    + intros recs. apply (respects_bind _ kinds_kept_trans).
      * apply write_csv_footprint.
      * intros _ s0. rewrite (bind_ok _ _ _ _ _ (clean_up_local W s0)).
        apply kinds_kept_refl.
Qed.

(** X14. In local mode [main] leaves alone every file whose name has no accepted
    extension, the CSV file apart; it removes nothing and turns no file
    into a directory or a directory into a file. *)
Theorem main_local_leaves_other_files (W : World) (s : state) :
  in_colab W = false ->
  exists recs s',
    main W s = (Ok recs, s')
    /\ (forall q, q <> OUTPUT_CSV_FILENAME -> has_image_extension q = false ->
          fs s' !! q = fs s !! q)
    /\ kinds_kept s s'.
Proof.
  intros Hcolab.
  destruct (main_run W s) as (recs & s' & Hm & _).
  exists recs, s'. split; [assumption|].
  destruct (setup_google_credentials_run W s) as (ok & s0 & Hs & Hf & _).
  specialize (Hf (or_introl Hcolab)).
  unfold main in Hm. rewrite (bind_ok _ _ _ _ _ Hs) in Hm.
  assert (Hk0 : kinds_kept s s0).
  { split; intros q x Hq; rewrite Hf; eauto. }
  destruct ok; cbn [negb] in Hm.
  2:{ injection Hm as _ <-. split; [|assumption]. intros q _ _. now rewrite Hf. }
  rewrite (bind_ok _ _ _ _ _ (os_environ_get_run _ s0)) in Hm.
  unfold is_running_in_colab in Hm. rewrite Hcolab in Hm.
  set (s1 := after_events s0 [EvGetenv "ASTICA_API_KEY"]) in *.
  pose proof (local_image_paths_extensions W s1) as Hext.
  rewrite local_image_paths_cases in Hext. cbn [fst] in Hext.
  rewrite (bind_ok _ _ _ _ _ (local_image_paths_cases W s1)) in Hm.
  set (s2 := after_events s1 [EvInput]) in *.
  assert (Hf2 : fs s2 = fs s) by exact Hf.
  assert (Hk2 : kinds_kept s s2).
  { split; intros q x Hq; rewrite Hf2; eauto. }
  destruct (match fs s1 !! _ with Some _ => _ | None => _ end) as [paths|].
  2:{ injection Hm as _ <-. split; [|assumption]. intros q _ _. now rewrite Hf2. }
  specialize (Hext paths eq_refl).
  destruct (is_empty paths).
  { injection Hm as _ <-. split; [|assumption]. intros q _ _. now rewrite Hf2. }
  destruct (process_and_export_local_footprint W paths) as [HF HK].
  specialize (HF s2). specialize (HK s2). rewrite Hm in HF, HK. cbn [snd] in *.
  split; [|eapply kinds_kept_trans; eassumption].
  intros q Hq Hne. rewrite HF, Hf2; [reflexivity|].
  intros [->|Hin]; [now apply Hq|].
  rewrite List.Forall_forall in Hext. rewrite (Hext q Hin) in Hne. discriminate.
Qed.

(** In the sample run the text file [notes.txt] is what it was. *)
Lemma main_local_leaves_other_files_witness :
  exists s',
    snd (main sample_world sample_state) = s'
    /\ fs s' !! "pics/notes.txt" = Some (File (Raw "hello")).
Proof.
  destruct (main_local_leaves_other_files sample_world sample_state)
    as (recs & s' & Hm & Hfiles & _).
  - reflexivity.
  - exists s'. split; [now rewrite Hm|].
    rewrite Hfiles.
    + vm_compute. reflexivity.
    + vm_compute. discriminate.
    + vm_compute. reflexivity.
Defined.

(** X15. In local mode, when the path typed at the prompt is a regular file:
    with an accepted extension it is the one picture processed, and its
    record carries its base name; without one nothing is processed and no
    file changes.  When the path does not exist nothing is processed
    either. *)
Theorem main_local_single_path (W : World) (s : state) (src : string) :
  in_colab W = false ->
  credentials_found s = true ->
  str.strip (stdin_line W) = src ->
  (forall entries, fs s !! src <> Some (Dir entries)) ->
  exists recs s',
    main W s = (Ok recs, s')
    /\ (match fs s !! src with
        | Some _ =>
            if has_image_extension src
            then exists d t, recs = [image_record (os_path.basename src) d t]
            else recs = [] /\ fs s' = fs s
        | None => recs = [] /\ fs s' = fs s
        end).
Proof.
  intros Hcolab Hcred <- Hnd. unfold main.
  rewrite (bind_ok _ _ _ _ _ (setup_google_credentials_found W s Hcred)).
  cbn [negb]. rewrite (bind_ok _ _ _ _ _ (os_environ_get_run _ s)).
  unfold is_running_in_colab. rewrite Hcolab.
  rewrite (bind_ok _ _ _ _ _ (local_image_paths_cases W _)).
  rewrite after_events_app. cbn [app after_events fs].
  destruct (fs s !! str.strip (stdin_line W)) as [[names|c]|] eqn:Hf.
  - now destruct (Hnd names).
  - destruct (has_image_extension (str.strip (stdin_line W))).
    + cbn [is_empty].
      destruct (process_and_export_run W [str.strip (stdin_line W)] []
                  {| environ := environ s; fs := fs s;
                     trace := trace s ++ [EvGetenv "ASTICA_API_KEY"; EvInput] |})
        as (recs & s1 & s' & Hr & Hm).
      exists recs, s'. split; [assumption|].
      destruct (for_each_process W [str.strip (stdin_line W)]
                  {| environ := environ s; fs := fs s;
                     trace := trace s ++ [EvGetenv "ASTICA_API_KEY"; EvInput] |})
        as (recs' & s1' & Hr' & _ & Hall).
      rewrite Hr in Hr'. injection Hr' as <- <-.
      inversion Hall as [|p r ps rs (d & t & -> & _) Hrest]; subst.
      inversion Hrest; subst. eauto.
    + eexists [], _. split; [reflexivity|]. split; reflexivity.
  - eexists [], _. split; [reflexivity|]. split; reflexivity.
Qed.

(** The path of the sample picture, typed with spaces around it. *)
Lemma main_local_single_path_witness :
  exists d t s',
    main single_file_world sample_state = (Ok [image_record "a.JPG" d t], s').
Proof.
  destruct (main_local_single_path single_file_world sample_state "pics/a.JPG")
    as (recs & s' & Hm & H).
  - reflexivity.
  - vm_compute. reflexivity.
  - vm_compute. reflexivity.
  - intros entries. vm_compute. discriminate.
  - replace (fs sample_state !! "pics/a.JPG") with (Some (File (Raw "IMG"))) in H
      by (vm_compute; reflexivity).
    replace (has_image_extension "pics/a.JPG") with true in H
      by (vm_compute; reflexivity).
    destruct H as (d & t & Hrecs).
    exists d, t, s'. subst recs. exact Hm.
Defined.

(** ** [main] in Colab *)

Lemma writable_insert (W : World) (f : gmap string node) (p q : string)
    (c : content) :
  writable W f p = true -> writable W f q = true ->
  writable W (<[p := File c]> f) q = true.
Proof.
  unfold writable, parent_exists. intros Hp Hq.
  assert (Hd : forall d entries, f !! d = Some (Dir entries) ->
                 <[p := File c]> f !! d = Some (Dir entries)).
  { intros d entries Hd. rewrite lookup_insert_ne; [exact Hd|].
    intros <-. rewrite Hd in Hp. discriminate. }
  assert (Hpar :
    String.eqb (os_path.dirname q) "" || String.eqb (os_path.dirname q) "/"
    || String.eqb (os_path.dirname q) (cwd W)
    || match f !! os_path.dirname q with Some (Dir _) => true | _ => false end
    = true ->
    String.eqb (os_path.dirname q) "" || String.eqb (os_path.dirname q) "/"
    || String.eqb (os_path.dirname q) (cwd W)
    || match <[p := File c]> f !! os_path.dirname q with
       | Some (Dir _) => true
       | _ => false
       end = true).
  { intros [H|H]%orb_true_iff; [now rewrite H|].
    destruct (f !! os_path.dirname q) as [[entries|c1]|] eqn:Hfd; try discriminate.
    rewrite (Hd _ _ Hfd). apply orb_true_r. }
  destruct (decide (p = q)) as [<-|Hne].
  - rewrite lookup_insert_eq. apply Hpar.
    now destruct (f !! p) as [[entries|c0]|].
  - rewrite lookup_insert_ne by assumption.
    destruct (f !! q) as [[entries|c0]|]; [discriminate|..]; now apply Hpar.
Qed.

(** What the Colab branch saves are regular files, and a regular file that
    was there is one still. *)
Lemma saved_uploads_files (W : World) (uploaded : list (string * string))
    (f : gmap string node) :
  (forall q c, f !! q = Some (File c) ->
     exists c', snd (saved_uploads W uploaded f) !! q = Some (File c'))
  /\ (forall q, In q (fst (saved_uploads W uploaded f)) ->
        exists c, snd (saved_uploads W uploaded f) !! q = Some (File c)).
Proof.
  revert f. induction uploaded as [|[name data] uploaded IH]; intros f.
  - split; [eauto | intros q []].
  - cbn [saved_uploads].
    destruct (writable W f (os_path.join (cwd W) name)); [|apply IH].
    cbn [fst snd].
    destruct (IH (<[os_path.join (cwd W) name := File (Raw data)]> f))
      as [Hkeep Hnew].
    split.
    + intros q c Hq. destruct (decide (os_path.join (cwd W) name = q)) as [<-|Hne].
      * apply (Hkeep _ (Raw data)). apply lookup_insert_eq.
      * apply (Hkeep _ c). now rewrite lookup_insert_ne.
    + intros q [<-|Hin]; [|now apply Hnew].
      apply (Hkeep _ (Raw data)). apply lookup_insert_eq.
Qed.

(** Where every upload can be written, every upload is saved. *)
Lemma saved_uploads_all (W : World) (uploaded : list (string * string))
    (f : gmap string node) :
  (forall nc, In nc uploaded ->
     writable W f (os_path.join (cwd W) (fst nc)) = true) ->
  fst (saved_uploads W uploaded f)
  = map (fun nc => os_path.join (cwd W) (fst nc)) uploaded.
Proof.
  revert f. induction uploaded as [|[name data] uploaded IH]; intros f Hw;
    [reflexivity|].
  cbn [saved_uploads map fst].
  pose proof (Hw (name, data) (or_introl eq_refl)) as Hp. cbn [fst] in Hp.
  rewrite Hp. cbn [fst]. f_equal. apply IH.
  intros nc Hin. apply writable_insert; [exact Hp|]. apply Hw. now right.
Qed.

Lemma lookup_without_file_ne (f : gmap string node) (p q : string) :
  p <> q -> without_file f p !! q = f !! q.
Proof.
  intros Hne. unfold without_file.
  destruct (f !! p) as [[entries|c]|]; try reflexivity.
  now apply lookup_delete_ne.
Qed.

Lemma lookup_fold_without_file_notin (temps : list string) (f : gmap string node)
    (q : string) :
  ~ In q temps -> fold_left without_file temps f !! q = f !! q.
Proof.
  revert f. induction temps as [|p temps IH]; intros f Hq; [reflexivity|].
  cbn [fold_left]. rewrite IH by (intros H; apply Hq; now right).
  apply lookup_without_file_ne. intros ->. apply Hq. now left.
Qed.

(** The clean-up leaves nothing at a path that held a regular file. *)
Lemma lookup_fold_without_file_in (temps : list string) (f : gmap string node)
    (q : string) (c : content) :
  In q temps -> f !! q = Some (File c) ->
  fold_left without_file temps f !! q = None.
Proof.
  revert f. induction temps as [|p temps IH]; intros f; [intros []|].
  cbn [fold_left]. intros Hin Hq.
  destruct (decide (p = q)) as [->|Hne].
  - assert (Hgone : without_file f q !! q = None).
    { unfold without_file. rewrite Hq. apply lookup_delete_eq. }
    clear -Hgone. revert Hgone. generalize (without_file f q) as g.
    induction temps as [|p temps IH]; intros g Hg; [exact Hg|].
    cbn [fold_left]. apply IH. unfold without_file.
    destruct (g !! p) as [[entries|c]|] eqn:Hp; try exact Hg.
    destruct (decide (p = q)) as [->|Hne];
      [apply lookup_delete_eq | now rewrite lookup_delete_ne].
  - destruct Hin as [->|Hin]; [congruence|].
    apply IH; [exact Hin|]. now rewrite lookup_without_file_ne.
Qed.

(** The whole Colab run, where the credentials are in place or uploaded and
    every upload can be saved: no directory stands at the path it is saved
    at, and the directory that path lies in exists. *)
Lemma main_colab_run (W : World) (s : state) :
  in_colab W = true ->
  fst (setup_google_credentials W s) = Ok true ->
  upload_images W <> [] ->
  (forall nc, In nc (upload_images W) ->
     writable W (fs s) (os_path.join (cwd W) (fst nc)) = true) ->
  let temps := map (fun nc => os_path.join (cwd W) (fst nc)) (upload_images W) in
  exists recs s',
    main W s = (Ok recs, s')
    /\ Forall2 (fun p r => exists d t, r = image_record (os_path.basename p) d t)
         temps recs
    /\ (forall q, In q temps -> fs s' !! q = None).
Proof.
  intros Hcolab Hsetup Hup Hw. cbn zeta.
  set (temps := map (fun nc => os_path.join (cwd W) (fst nc)) (upload_images W)).
  destruct (setup_google_credentials_run W s) as (ok & s0 & Hs & _).
  pose proof (setup_google_credentials_cases W s) as Hcases.
  rewrite Hs in Hsetup, Hcases. injection Hsetup as ->.
  assert (Hf0 : exists l, fs s0 = upload_saved W l (fs s)).
  { destruct (credentials_found s).
    - injection Hcases as <-. now exists [].
    - destruct (in_colab W); [|discriminate].
      destruct (upload_credentials W) as [[|[fn data] rest]|e]; try discriminate.
      exists ((fn, data) :: rest). injection Hcases as ->. reflexivity. }
  destruct Hf0 as [l Hf0].
  unfold main. rewrite (bind_ok _ _ _ _ _ Hs). cbn [negb].
  rewrite (bind_ok _ _ _ _ _ (os_environ_get_run _ s0)).
  unfold is_running_in_colab. rewrite Hcolab.
  rewrite (bind_ok _ _ _ _ _ (files_upload_run W _ _)).
  destruct (is_empty (upload_images W)) eqn:Hemp.
  { destruct (upload_images W); [congruence | discriminate]. }
  rewrite (bind_ok _ _ _ _ _ (save_uploads_cases W _ _)).
  cbn [after_events fs environ trace].
  set (fa := upload_saved W (upload_images W) (fs s0)).
  assert (Hwa : forall nc, In nc (upload_images W) ->
                  writable W fa (os_path.join (cwd W) (fst nc)) = true).
  { intros nc Hin. specialize (Hw nc Hin). unfold writable, parent_exists in *.
    assert (Hkeep : forall q n, fs s !! q = Some n -> fa !! q = Some n).
    { intros q n Hq. unfold fa. apply upload_saved_keeps. rewrite Hf0.
      now apply upload_saved_keeps. }
    assert (Hdir : forall q entries, fa !! q = Some (Dir entries) ->
                     fs s !! q = Some (Dir entries)).
    { intros q entries Hq. unfold fa in Hq. apply upload_saved_dir in Hq.
      rewrite Hf0 in Hq. now apply upload_saved_dir in Hq. }
    set (p := os_path.join (cwd W) (fst nc)) in *.
    assert (Hpar :
      String.eqb (os_path.dirname p) "" || String.eqb (os_path.dirname p) "/"
      || String.eqb (os_path.dirname p) (cwd W)
      || match fa !! os_path.dirname p with Some (Dir _) => true | _ => false end
      = true).
    { assert (H : String.eqb (os_path.dirname p) "" || String.eqb (os_path.dirname p) "/"
                  || String.eqb (os_path.dirname p) (cwd W)
                  || match fs s !! os_path.dirname p with
                     | Some (Dir _) => true
                     | _ => false
                     end = true)
        by now destruct (fs s !! p) as [[entries|c]|].
      apply orb_true_iff in H as [H|H]; [now rewrite H|].
      destruct (fs s !! os_path.dirname p) as [[entries|c]|] eqn:Hd; try discriminate.
      rewrite (Hkeep _ _ Hd). apply orb_true_r. }
    destruct (fa !! p) as [[entries|c]|] eqn:Hp; [|exact Hpar..].
    apply Hdir in Hp. rewrite Hp in Hw. discriminate. }
  rewrite (saved_uploads_all W _ fa Hwa). fold temps.
  destruct (saved_uploads_files W (upload_images W) fa) as [_ Hfiles].
  rewrite (saved_uploads_all W _ fa Hwa) in Hfiles. fold temps in Hfiles.
  match goal with |- context [process_and_export W temps temps ?st] =>
    set (s1 := st) in * end.
  unfold process_and_export.
  destruct (for_each_process W temps s1) as (recs & s2 & Hr & _ & Hall).
  destruct (for_each_process_footprint W temps s1) as [_ Hk2].
  rewrite Hr in Hk2. cbn [snd] in Hk2.
  destruct (total_run _ s2 (write_csv_total W recs)) as ([] & s3 & Hwr).
  destruct (write_csv_footprint W recs) as [_ Hk3].
  specialize (Hk3 s2). rewrite Hwr in Hk3. cbn [snd] in Hk3.
  rewrite (bind_ok _ _ _ _ _ Hr), (bind_ok _ _ _ _ _ Hwr).
  rewrite (bind_ok _ _ _ _ _ (clean_up_cases W temps s3)). rewrite Hcolab.
  eexists recs, _. split; [reflexivity|]. cbn [fs]. split.
  - clear -Hall. induction Hall as [|p r ps rs (d & t & -> & _) _ IH];
      constructor; eauto.
  - intros q Hq. destruct (Hfiles q Hq) as [c1 Hc1].
    destruct Hk2 as [HF2 _]. destruct (HF2 _ _ Hc1) as [c2 Hc2].
    destruct Hk3 as [HF3 _]. destruct (HF3 _ _ Hc2) as [c3 Hc3].
    now apply (lookup_fold_without_file_in temps (fs s3) q c3).
Qed.

(** X16. In Colab every uploaded file that can be saved is processed,
    whatever its name: where no directory stands at the path an upload is
    saved at and the directory that path lies in exists, there is one
    record per upload, in the order of the upload, and its file name is the
    base name of that path.  No extension is looked at. *)
Theorem main_colab_one_record_per_upload (W : World) (s : state) :
  in_colab W = true ->
  fst (setup_google_credentials W s) = Ok true ->
  upload_images W <> [] ->
  (forall nc, In nc (upload_images W) ->
     writable W (fs s) (os_path.join (cwd W) (fst nc)) = true) ->
  exists recs s',
    main W s = (Ok recs, s')
    /\ Forall2 (fun nc r =>
                  exists d t,
                    r = image_record
                          (os_path.basename (os_path.join (cwd W) (fst nc))) d t)
         (upload_images W) recs.
Proof.
  intros Hcolab Hsetup Hup Hw.
  destruct (main_colab_run W s Hcolab Hsetup Hup Hw) as (recs & s' & Hm & Hall & _).
  exists recs, s'. split; [exact Hm|].
  clear -Hall. remember (map _ _) as temps eqn:Ht in Hall.
  revert Ht. generalize (upload_images W) as ups.
  induction Hall as [|p r ps rs Hp _ IH]; intros [|nc ups] [=].
  - constructor.
  - subst. constructor; [exact Hp | now apply IH].
Qed.

(** The text file uploaded beside the picture gets its record too. *)
Lemma main_colab_one_record_per_upload_witness :
  exists d1 t1 d2 t2 s',
    main colab_world colab_state
    = (Ok [image_record "a.JPG" d1 t1; image_record "notes.txt" d2 t2], s').
Proof.
  destruct (main_colab_one_record_per_upload colab_world colab_state)
    as (recs & s' & Hm & Hall).
  - reflexivity.
  - vm_compute. reflexivity.
  - discriminate.
  - intros nc [<-|[<-|[]]]; vm_compute; reflexivity.
  - change (upload_images colab_world)
      with [("a.JPG", "IMG"); ("notes.txt", "hello")] in Hall.
    inversion Hall as [|nc1 r1 l1 l1' (d1 & t1 & Hr1) Hrest]; subst.
    inversion Hrest as [|nc2 r2 l2 l2' (d2 & t2 & Hr2) Hnil]; subst.
    inversion Hnil; subst.
    exists d1, t1, d2, t2, s'. exact Hm.
Defined.

(** X17. In Colab, where every upload can be saved, when [main] ends no
    file is left at any path it saved an upload at: a file that was there
    before under the name of an upload has been overwritten and then
    removed with it. *)
Theorem main_colab_removes_uploads (W : World) (s : state) :
  in_colab W = true ->
  fst (setup_google_credentials W s) = Ok true ->
  upload_images W <> [] ->
  (forall nc, In nc (upload_images W) ->
     writable W (fs s) (os_path.join (cwd W) (fst nc)) = true) ->
  exists recs s',
    main W s = (Ok recs, s')
    /\ (forall nc, In nc (upload_images W) ->
          fs s' !! os_path.join (cwd W) (fst nc) = None).
Proof.
  intros Hcolab Hsetup Hup Hw.
  destruct (main_colab_run W s Hcolab Hsetup Hup Hw)
    as (recs & s' & Hm & _ & Hgone).
  exists recs, s'. split; [exact Hm|].
  intros nc Hin. apply Hgone. apply in_map_iff. now exists nc.
Qed.

(** The older [notes.txt] is gone after the run. *)
Lemma main_colab_removes_uploads_witness :
  fs colab_state !! "/content/notes.txt" = Some (File (Raw "older"))
  /\ fs (snd (main colab_world colab_state)) !! "/content/notes.txt" = None.
Proof.
  split; [vm_compute; reflexivity|].
  destruct (main_colab_removes_uploads colab_world colab_state)
    as (recs & s' & Hm & Hgone).
  - reflexivity.
  - vm_compute. reflexivity.
  - discriminate.
  - intros nc [<-|[<-|[]]]; vm_compute; reflexivity.
  - rewrite Hm. cbn [snd].
    apply (Hgone ("notes.txt", "hello")). right. now left.
Defined.

(** ** The export, in every local run *)

(** From the paths on: with at least one path, none of them and no
    temporary file at the place of the CSV file, the CSV file ends up with
    the header and nothing else. *)
Lemma process_and_export_header_only (W : World) (paths temps : list string)
    (s : state) :
  paths <> [] ->
  ~ In OUTPUT_CSV_FILENAME paths ->
  ~ In OUTPUT_CSV_FILENAME temps ->
  (forall entries, fs s !! OUTPUT_CSV_FILENAME <> Some (Dir entries)) ->
  exists recs s',
    process_and_export W paths temps s = (Ok recs, s')
    /\ fs s' !! OUTPUT_CSV_FILENAME = Some (File (CsvText [csv_header])).
Proof.
  intros Hne Hp Ht Hnd. unfold process_and_export.
  destruct (for_each_process W paths s) as (recs & s1 & Hr & _ & Hall).
  destruct (for_each_process_footprint W paths s) as [Hsame1 _].
  rewrite Hr in Hsame1. cbn [snd] in Hsame1.
  specialize (Hsame1 OUTPUT_CSV_FILENAME Hp).
  destruct Hall as [|p r ps rs (d & t & -> & _) _]; [congruence|].
  assert (Hw := write_csv_header_only W s1 (os_path.basename p) d t rs).
  rewrite (bind_ok _ _ _ _ _ Hr).
  rewrite (bind_ok _ _ _ _ _ (Hw ltac:(intros entries; rewrite Hsame1; apply Hnd))).
  rewrite (bind_ok _ _ _ _ _ (clean_up_cases W temps _)).
  eexists _, _. split; [reflexivity|]. cbn [fs].
  destruct (in_colab W); [rewrite lookup_fold_without_file_notin by exact Ht|];
    apply lookup_insert_eq.
Qed.

(** X18. Whenever a local run of [main] produces records, however many, the
    CSV file it leaves holds the header row and no record: the first record
    is refused by the writer and the export ends there.  When it produces
    none, it leaves every file as it was.  (No directory stands at the
    place of the CSV file.) *)
Theorem main_export_header_only (W : World) (s : state) :
  in_colab W = false ->
  (forall entries, fs s !! OUTPUT_CSV_FILENAME <> Some (Dir entries)) ->
  exists recs s',
    main W s = (Ok recs, s')
    /\ (recs <> [] ->
        fs s' !! OUTPUT_CSV_FILENAME = Some (File (CsvText [csv_header])))
    /\ (recs = [] -> fs s' = fs s).
Proof.
  intros Hcolab Hnd.
  assert (H : exists recs s',
    main W s = (Ok recs, s')
    /\ (recs <> [] ->
        fs s' !! OUTPUT_CSV_FILENAME = Some (File (CsvText [csv_header])))).
  { destruct (setup_google_credentials_run W s) as (ok & s0 & Hs & Hf & _).
    specialize (Hf (or_introl Hcolab)).
    unfold main. rewrite (bind_ok _ _ _ _ _ Hs).
    destruct ok; cbn [negb]; [|now exists [], s0].
    rewrite (bind_ok _ _ _ _ _ (os_environ_get_run _ s0)).
    unfold is_running_in_colab. rewrite Hcolab.
    pose proof (local_image_paths_extensions W (after_events s0 [EvGetenv "ASTICA_API_KEY"]))
      as Hext.
    rewrite local_image_paths_cases in Hext. cbn [fst] in Hext.
    rewrite (bind_ok _ _ _ _ _ (local_image_paths_cases W _)).
    destruct (match fs _ !! _ with Some _ => _ | None => _ end) as [paths|];
      [|now eexists [], _].
    specialize (Hext paths eq_refl).
    destruct paths as [|p paths]; [now eexists [], _|]. cbn [is_empty].
    match goal with |- context [process_and_export W _ [] ?st] => set (sa := st) end.
    destruct (process_and_export_header_only W (p :: paths) [] sa)
      as (recs & s' & Hm & Hfile); [discriminate| |intros []| |].
    { intros Hin. rewrite List.Forall_forall in Hext.
      specialize (Hext _ Hin). vm_compute in Hext. discriminate. }
    { intros entries. change (fs sa) with (fs s0). rewrite Hf. apply Hnd. }
    exists recs, s'. split; [exact Hm | intros _; exact Hfile]. }
  destruct H as (recs & s' & Hm & Hfile). exists recs, s'.
  split; [exact Hm|]. split; [exact Hfile|].
  intros ->. exact (main_without_records_creates_nothing W s s' Hcolab Hm).
Qed.

(** The sample run: one record, and a CSV file with the header only. *)
Lemma main_export_header_only_witness :
  exists recs s',
    main sample_world sample_state = (Ok recs, s')
    /\ recs <> []
    /\ fs s' !! OUTPUT_CSV_FILENAME = Some (File (CsvText [csv_header])).
Proof.
  destruct (main_export_header_only sample_world sample_state)
    as (recs & s' & Hm & Hfile & _).
  - reflexivity.
  - intros entries. vm_compute. discriminate.
  - assert (Hrecs : recs <> []).
    { assert (H : fst (main sample_world sample_state)
                  = Ok [image_record "a.JPG" "A cat." "cat, pet"])
        by (vm_compute; reflexivity).
      rewrite Hm in H. cbn [fst] in H. injection H as ->. discriminate. }
    exists recs, s'. split; [exact Hm|]. split; [exact Hrecs | exact (Hfile Hrecs)].
Defined.
